(** * tinykv raft: a shallow embedding of the consensus node

    The embedding follows [raft/raft.go] (the node and, after it in the
    same file, the log) and [raft/msg.go] (the message constructors); the
    properties of the node are stated and checked against it below.

    Conventions of the embedding.
    - [uint64] values are [Z] in [0, 2^64); every addition and subtraction
      of the source is wrapped with [u64].  Go's [int] (the tick counters)
      is [Z] wrapped with [int64].
    - A Go panic ([log.Panicf], nil dereference, index or slice bound out of
      range, call of a nil [step]) is [None]; a method that mutates its
      receiver returns the new receiver.
    - Go checks slice bounds against the capacity; the embedding takes the
      capacity of [RaftLog.entries] to be its length, so re-slicing past
      the length is a panic here.
    - [map[uint64]*Progress] is a [gmap Z Progress.t]: every pointer stored in
      the map is allocated by [newRaft] for one key only, so no two keys
      alias and an update through the pointer is an update of that key.
    - [[]*pb.Entry] is a list of entries: [leaderAppendEntries] stamps the
      entries of the caller through the pointers and copies them, and only
      the copies reach the log.
    - Logging calls have no effect on the state; of their arguments only
      [r.RaftLog.LastIndex()] can panic, and it is evaluated where the
      source evaluates it ([r.info()] and [MessageStr] only format).
    - The pseudo-random draw of [randN] is an argument of [newRaft]. *)

From Stdlib Require Import ZArith Lia.
From stdpp Require Import base option list strings gmap.

Local Open Scope Z_scope.

(** ** Machine integers *)

Definition u64 (z : Z) : Z := z mod 2 ^ 64.
Definition int64 (z : Z) : Z := (z + 2 ^ 63) mod 2 ^ 64 - 2 ^ 63.

Definition add64 (a b : Z) : Z := u64 (a + b).
Definition sub64 (a b : Z) : Z := u64 (a - b).

(** [const None uint64 = 0], the placeholder node id. *)
Definition None_id : Z := 0.

(** ** eraftpb: the protocol-buffer records used by the node *)

Inductive MessageType :=
| MsgHup | MsgBeat | MsgPropose | MsgAppend | MsgAppendResponse
| MsgRequestVote | MsgRequestVoteResponse | MsgSnapshot
| MsgHeartbeat | MsgHeartbeatResponse | MsgTransferLeader | MsgTimeoutNow.

Global Instance MessageType_eq_dec : EqDecision MessageType.
Proof. solve_decision. Defined.

Module Entry.
Record t := mk { Term : Z; Index : Z; Data : list Z }.
Definition zero : t := mk 0 0 [].
End Entry.

Module Snapshot.
Record t := mk { Data : list Z; Index : Z; Term : Z }.
End Snapshot.

Module HardState.
Record t := mk { Term : Z; Vote : Z; Commit : Z }.
End HardState.

Module ConfState.
Record t := mk { Nodes : list Z }.
End ConfState.

Module Message.
Record t := mk {
  MsgType : MessageType;
  To : Z;
  From : Z;
  Term : Z;
  LogTerm : Z;
  Index : Z;
  Entries : list Entry.t;
  Commit : Z;
  Snapshot : option Snapshot.t;
  Reject : bool
}.
(** The zero value of every field but the type, as in a Go composite
    literal that names only some fields. *)
Definition zero (ty : MessageType) : t :=
  mk ty 0 0 0 0 0 [] 0 None false.
Definition with_To (v : Z) (m : t) : t :=
  mk (MsgType m) v (From m) (Term m) (LogTerm m) (Index m) (Entries m)
     (Commit m) (Snapshot m) (Reject m).
Definition with_From (v : Z) (m : t) : t :=
  mk (MsgType m) (To m) v (Term m) (LogTerm m) (Index m) (Entries m)
     (Commit m) (Snapshot m) (Reject m).
Definition with_Term (v : Z) (m : t) : t :=
  mk (MsgType m) (To m) (From m) v (LogTerm m) (Index m) (Entries m)
     (Commit m) (Snapshot m) (Reject m).
Definition with_LogTerm (v : Z) (m : t) : t :=
  mk (MsgType m) (To m) (From m) (Term m) v (Index m) (Entries m)
     (Commit m) (Snapshot m) (Reject m).
Definition with_Index (v : Z) (m : t) : t :=
  mk (MsgType m) (To m) (From m) (Term m) (LogTerm m) v (Entries m)
     (Commit m) (Snapshot m) (Reject m).
Definition with_Entries (v : list Entry.t) (m : t) : t :=
  mk (MsgType m) (To m) (From m) (Term m) (LogTerm m) (Index m) v
     (Commit m) (Snapshot m) (Reject m).
Definition with_Commit (v : Z) (m : t) : t :=
  mk (MsgType m) (To m) (From m) (Term m) (LogTerm m) (Index m) (Entries m)
     v (Snapshot m) (Reject m).
Definition with_Snapshot (v : option Snapshot.t) (m : t) : t :=
  mk (MsgType m) (To m) (From m) (Term m) (LogTerm m) (Index m) (Entries m)
     (Commit m) v (Reject m).
Definition with_Reject (v : bool) (m : t) : t :=
  mk (MsgType m) (To m) (From m) (Term m) (LogTerm m) (Index m) (Entries m)
     (Commit m) (Snapshot m) v.
End Message.

(** ** Errors *)

Inductive error :=
| ErrCompacted
| ErrUnavailable
| ErrSnapOutOfDate
| ErrSnapshotTemporarilyUnavailable
| ErrNew (text : string).

Global Instance error_eq_dec : EqDecision error.
Proof. solve_decision. Defined.

(** A Go [(value, error)] pair whose value is read only when the error is
    nil. *)
Inductive result (A : Type) :=
| Ok (a : A)
| Err (e : error).
Arguments Ok {A} a.
Arguments Err {A} e.

(** ** The Storage interface

    Storage is an interface of the repository; the log reads it and never
    writes it, so an implementation is a record of its answers. *)

Module Storage.
Record t := mk {
  InitialState : HardState.t * ConfState.t * option error;
  FirstIndex : Z * option error;
  LastIndex : Z * option error;
  Entries : Z -> Z -> list Entry.t * option error;
  Term : Z -> Z * option error;
  Snapshot : Snapshot.t * option error
}.
End Storage.

(** Modelled from the spec: [mustBeNil] is called by [newLog] and is not
    under src/; an invariant violation is fatal, so a non-nil error
    panics. *)
Definition mustBeNil (err : option error) : option unit :=
  match err with
  | None => Some tt
  | Some _ => None
  end.

(** ** log.go *)

Module RaftLog.
Record t := mk {
  storage : Storage.t;
  committed : Z;
  applied : Z;
  stabled : Z;
  entries : list Entry.t;
  pendingSnapshot : option Snapshot.t;
  start : Z
}.

Definition with_committed (v : Z) (l : t) : t :=
  mk (storage l) v (applied l) (stabled l) (entries l)
     (pendingSnapshot l) (start l).
Definition with_stabled (v : Z) (l : t) : t :=
  mk (storage l) (committed l) (applied l) v (entries l)
     (pendingSnapshot l) (start l).
Definition with_entries (v : list Entry.t) (l : t) : t :=
  mk (storage l) (committed l) (applied l) (stabled l) v
     (pendingSnapshot l) (start l).

(** [l.entries[len(l.entries)-1]]: out of range on an empty slice. *)
Definition LastLog (l : t) : option Entry.t := last (entries l).

Definition LastIndex (l : t) : option Z := Entry.Index <$> LastLog l.

Definition NextIndex (l : t) : option Z :=
  (fun e => add64 (Entry.Index e) 1) <$> LastLog l.

Definition LastTerm (l : t) : option Z := Entry.Term <$> LastLog l.

Definition First (l : t) : Z := add64 (start l) 1.

Definition entryAt (l : t) (index : Z) : option (result Entry.t) :=
  if index =? start l then
    Ok <$> entries l !! 0%nat
  else if index <? First l then
    Some (Err ErrCompacted)
  else
    li ← LastIndex l;
    if li <? index then
      Some (Err ErrUnavailable)
    else
      Ok <$> entries l !! Z.to_nat (sub64 index (start l)).

Definition Term (l : t) (i : Z) : option (result Z) :=
  at_ ← entryAt l i;
  match at_ with
  | Err err => Some (Err err)
  | Ok e => Some (Ok (Entry.Term e))
  end.

Definition append (l : t) (es : list Entry.t) : option (t * Z) :=
  let l' := with_entries (entries l ++ es) l in
  li ← LastIndex l';
  Some (l', li).

(** Modelled from the spec: [covEntry2PtrC] is not under src/; it turns
    the entries of the window into the pointers a message carries, which
    is the identity on values. *)
Definition covEntry2PtrC (es : list Entry.t) : list Entry.t := es.

(** [l.entries[lo : hi+1]] *)
Definition slice (l : t) (lo hi : Z) : option (list Entry.t) :=
  if hi <? lo then Some []
  else if hi <? First l then Some []
  else
    let lo := Z.max lo (First l) in
    let hi := Z.max hi (First l) in
    li ← LastIndex l;
    let hi := Z.min hi li in
    let lo := sub64 lo (start l) in
    let hi := sub64 hi (start l) in
    let hi1 := add64 hi 1 in
    if (lo <=? hi1) && (hi1 <=? Z.of_nat (length (entries l))) then
      Some (covEntry2PtrC
              (drop (Z.to_nat lo) (take (Z.to_nat hi1) (entries l))))
    else None.

(** Go's [&&] evaluates [l.LastIndex()] only when the first test holds. *)
Definition Contain (l : t) (index : Z) : option bool :=
  if First l <=? index then
    li ← LastIndex l;
    Some (index <=? li)
  else Some false.

Definition IsConflict (l : t) (index term : Z) : option bool :=
  c ← Contain l index;
  if negb c then Some true
  else
    e ← entries l !! Z.to_nat (sub64 index (start l));
    Some (negb (Entry.Term e =? term)).

(** [l.entries = l.entries[:index-l.start]] *)
Definition truncate (l : t) (index : Z) : option t :=
  let n := sub64 index (start l) in
  if n <=? Z.of_nat (length (entries l)) then
    let l1 := with_entries (take (Z.to_nat n) (entries l)) l in
    li ← LastIndex l1;
    Some (with_stabled (Z.min (stabled l1) li) l1)
  else None.

Definition updateCommitIndex (l : t) (commit : Z) : t :=
  if commit <? committed l then l else with_committed commit l.

(** [l.entries[1:]]: the low bound 1 is out of range on an empty slice. *)
Definition allEntries (l : t) : option (list Entry.t) :=
  match entries l with
  | [] => None
  | _ :: rest => Some rest
  end.

(** [l.entries[l.stabled-l.start+1:]] *)
Definition unstableEntries (l : t) : option (list Entry.t) :=
  li ← LastIndex l;
  if stabled l =? li then Some []
  else
    let lo := add64 (sub64 (stabled l) (start l)) 1 in
    if lo <=? Z.of_nat (length (entries l)) then
      Some (drop (Z.to_nat lo) (entries l))
    else None.

(** [l.entries[l.applied-l.start+1 : l.committed-l.start+1]] *)
Definition nextEnts (l : t) : option (list Entry.t) :=
  if applied l =? committed l then Some []
  else if committed l <? applied l then None
  else
    let lo := add64 (sub64 (applied l) (start l)) 1 in
    let hi := add64 (sub64 (committed l) (start l)) 1 in
    if (lo <=? hi) && (hi <=? Z.of_nat (length (entries l))) then
      Some (drop (Z.to_nat lo) (take (Z.to_nat hi) (entries l)))
    else None.

Definition newLog (storage : Storage.t) : option t :=
  let '(state, _, err) := Storage.InitialState storage in
  let committed := HardState.Commit state in
  _ ← mustBeNil err;
  let '(start, err) := Storage.FirstIndex storage in
  let log_start := sub64 start 1 in
  let applied := log_start in
  _ ← mustBeNil err;
  let '(LastIndex, err) := Storage.LastIndex storage in
  let stabled := LastIndex in
  _ ← mustBeNil err;
  let '(entries, err) := Storage.Entries storage start (add64 LastIndex 1) in
  _ ← mustBeNil err;
  let '(term0, err) := Storage.Term storage log_start in
  _ ← mustBeNil err;
  let sentinel := Entry.mk term0 log_start [] in
  Some (mk storage committed applied stabled (sentinel :: entries)
           None log_start).
End RaftLog.

(** ** raft.go *)

Inductive StateType := StateFollower | StateCandidate | StateLeader.

Global Instance StateType_eq_dec : EqDecision StateType.
Proof. solve_decision. Defined.

(** The value of the [step] field: one of the three role handlers, or nil
    before the first role transition. *)
Inductive stepFunc := StepNil | StepFollower | StepCandidate | StepLeader.

(** The outcome of a poll ([VoteWon], [VoteLost] are used by
    [stepCandidate]; their declaration is not under src/). *)
Inductive VoteResult := VotePending | VoteLost | VoteWon.

Module Config.
Record t := mk {
  ID : Z;
  peers : list Z;
  ElectionTick : Z;
  HeartbeatTick : Z;
  Storage : option Storage.t;
  Applied : Z
}.

Definition validate (c : t) : option error :=
  if ID c =? None_id then
    Some (ErrNew "cannot use none as id")
  else if HeartbeatTick c <=? 0 then
    Some (ErrNew "heartbeat tick must be greater than 0")
  else if ElectionTick c <=? HeartbeatTick c then
    Some (ErrNew "election tick must be greater than heartbeat tick")
  else match Storage c with
       | None => Some (ErrNew "storage cannot be nil")
       | Some _ => None
       end.
End Config.

Module Progress.
Record t := mk { Match : Z; Next : Z }.

Definition mayUpdateIndex (p : t) (index : Z) : t :=
  let m := if Match p <? index then index else Match p in
  mk m (Z.max (add64 m 1) (Next p)).
End Progress.

Module Raft.
Record t := mk {
  id : Z;
  peers : list Z;
  step : stepFunc;
  Term : Z;
  Vote : Z;
  raftLog : RaftLog.t;
  Prs : gmap Z Progress.t;
  State : StateType;
  votes : gmap Z bool;
  msgs : list Message.t;
  Lead : Z;
  heartbeatTimeout : Z;
  electionTimeout : Z;
  heartbeatElapsed : Z;
  electionElapsed : Z;
  leadTransferee : Z;
  PendingConfIndex : Z
}.

Definition with_step (v : stepFunc) (r : t) : t :=
  mk (id r) (peers r) v (Term r) (Vote r) (raftLog r) (Prs r) (State r)
     (votes r) (msgs r) (Lead r) (heartbeatTimeout r) (electionTimeout r)
     (heartbeatElapsed r) (electionElapsed r) (leadTransferee r)
     (PendingConfIndex r).
Definition with_Term (v : Z) (r : t) : t :=
  mk (id r) (peers r) (step r) v (Vote r) (raftLog r) (Prs r) (State r)
     (votes r) (msgs r) (Lead r) (heartbeatTimeout r) (electionTimeout r)
     (heartbeatElapsed r) (electionElapsed r) (leadTransferee r)
     (PendingConfIndex r).
Definition with_Vote (v : Z) (r : t) : t :=
  mk (id r) (peers r) (step r) (Term r) v (raftLog r) (Prs r) (State r)
     (votes r) (msgs r) (Lead r) (heartbeatTimeout r) (electionTimeout r)
     (heartbeatElapsed r) (electionElapsed r) (leadTransferee r)
     (PendingConfIndex r).
Definition with_raftLog (v : RaftLog.t) (r : t) : t :=
  mk (id r) (peers r) (step r) (Term r) (Vote r) v (Prs r) (State r)
     (votes r) (msgs r) (Lead r) (heartbeatTimeout r) (electionTimeout r)
     (heartbeatElapsed r) (electionElapsed r) (leadTransferee r)
     (PendingConfIndex r).
Definition with_Prs (v : gmap Z Progress.t) (r : t) : t :=
  mk (id r) (peers r) (step r) (Term r) (Vote r) (raftLog r) v (State r)
     (votes r) (msgs r) (Lead r) (heartbeatTimeout r) (electionTimeout r)
     (heartbeatElapsed r) (electionElapsed r) (leadTransferee r)
     (PendingConfIndex r).
Definition with_State (v : StateType) (r : t) : t :=
  mk (id r) (peers r) (step r) (Term r) (Vote r) (raftLog r) (Prs r) v
     (votes r) (msgs r) (Lead r) (heartbeatTimeout r) (electionTimeout r)
     (heartbeatElapsed r) (electionElapsed r) (leadTransferee r)
     (PendingConfIndex r).
Definition with_votes (v : gmap Z bool) (r : t) : t :=
  mk (id r) (peers r) (step r) (Term r) (Vote r) (raftLog r) (Prs r) (State r)
     v (msgs r) (Lead r) (heartbeatTimeout r) (electionTimeout r)
     (heartbeatElapsed r) (electionElapsed r) (leadTransferee r)
     (PendingConfIndex r).
Definition with_msgs (v : list Message.t) (r : t) : t :=
  mk (id r) (peers r) (step r) (Term r) (Vote r) (raftLog r) (Prs r) (State r)
     (votes r) v (Lead r) (heartbeatTimeout r) (electionTimeout r)
     (heartbeatElapsed r) (electionElapsed r) (leadTransferee r)
     (PendingConfIndex r).
Definition with_Lead (v : Z) (r : t) : t :=
  mk (id r) (peers r) (step r) (Term r) (Vote r) (raftLog r) (Prs r) (State r)
     (votes r) (msgs r) v (heartbeatTimeout r) (electionTimeout r)
     (heartbeatElapsed r) (electionElapsed r) (leadTransferee r)
     (PendingConfIndex r).
Definition with_heartbeatElapsed (v : Z) (r : t) : t :=
  mk (id r) (peers r) (step r) (Term r) (Vote r) (raftLog r) (Prs r) (State r)
     (votes r) (msgs r) (Lead r) (heartbeatTimeout r) (electionTimeout r)
     v (electionElapsed r) (leadTransferee r) (PendingConfIndex r).
Definition with_electionElapsed (v : Z) (r : t) : t :=
  mk (id r) (peers r) (step r) (Term r) (Vote r) (raftLog r) (Prs r) (State r)
     (votes r) (msgs r) (Lead r) (heartbeatTimeout r) (electionTimeout r)
     (heartbeatElapsed r) v (leadTransferee r) (PendingConfIndex r).

(** The functions and values of the package that [raft.go] uses and that
    are not under src/: the list of peer ids [nodes], the vote handler
    [handleVote], the vote counter [poll] (it returns the granted and
    rejected counts and the outcome, and may update the node) and the
    error value [LogIsCompacted].  Every definition and theorem below is
    parametric in them. *)
Class Absent := {
  nodes : t -> list Z;
  handleVote : t -> Message.t -> option t;
  poll : t -> Z -> MessageType -> bool -> option (t * (Z * Z * VoteResult));
  LogIsCompacted : error
}.

(** [int(rd.Int63()) % n], for the draw [draw] of the generator. *)
Definition randN (draw n : Z) : Z := Z.rem draw n.

Definition becomeFollower (r : t) (term lead : Z) : t :=
  let r := with_Term term r in
  let r := with_Vote None_id r in
  let r := with_Lead lead r in
  let r := with_electionElapsed 0 r in
  let r := with_State StateFollower r in
  with_step StepFollower r.

Definition becomeCandidate (r : t) : t :=
  let r := with_State StateCandidate r in
  let r := with_step StepCandidate r in
  let r := with_Term (add64 (Term r) 1) r in
  let r := with_Vote (id r) r in
  with_votes ∅ r.

Definition newRaft (c : Config.t) (draw : Z) : option t :=
  match Config.validate c, Config.Storage c with
  | None, Some st =>
      log ← RaftLog.newLog st;
      let raft :=
        mk (Config.ID c) (Config.peers c) StepNil 0 0 log ∅ StateFollower ∅ []
           0 (Config.HeartbeatTick c)
           (int64 (Config.ElectionTick c + randN draw (Config.ElectionTick c)))
           0 0 0 0 in
      let raft :=
        with_Prs (foldl (fun prs peer => <[peer := Progress.mk 0 0]> prs)
                        (Prs raft) (Config.peers c)) raft in
      Some (becomeFollower raft (Term raft) None_id)
  | _, _ => None
  end.

Definition send (r : t) (m : Message.t) : t :=
  let m := if Message.Term m =? None_id
           then Message.with_Term (Term r) m else m in
  let m := if Message.From m =? None_id
           then Message.with_From (id r) m else m in
  with_msgs (msgs r ++ [m]) r.

Definition resetElectionTimeOut (r : t) : t := with_electionElapsed 0 r.

Definition handleHeartbeat (r : t) (m : Message.t) : t :=
  becomeFollower r (Message.Term m) (Message.To m).
(** *** msg.go *)

Definition NewHeartbeatMsg (r : t) (to : Z) : option Message.t :=
  match State r with
  | StateLeader =>
      Some (Message.with_Commit (RaftLog.committed (raftLog r))
              (Message.with_To to (Message.zero MsgHeartbeat)))
  | _ => None
  end.

Definition NewRespHeartbeatMsg (r : t) (to : Z) : Message.t :=
  Message.with_To to (Message.zero MsgHeartbeatResponse).

Definition NewRequestVoteMsg (r : t) (to : Z) : option Message.t :=
  match State r with
  | StateCandidate =>
      LastLog ← RaftLog.LastLog (raftLog r);
      Some (Message.with_Index (Entry.Index LastLog)
              (Message.with_LogTerm (Entry.Term LastLog)
                 (Message.with_To to (Message.zero MsgRequestVote))))
  | _ => None
  end.

Definition NewRespVoteMsg (r : t) (to : Z) (reject : bool) : Message.t :=
  Message.with_Reject reject
    (Message.with_From (id r)
       (Message.with_To to (Message.zero MsgRequestVoteResponse))).

Definition NewRespAppendMsg (r : t) (to index : Z) (reject : bool)
  : Message.t :=
  Message.with_Index index
    (Message.with_Reject reject
       (Message.with_To to (Message.zero MsgAppendResponse))).

Definition NewAppendMsg (r : t) (to : Z) : option Message.t :=
  match State r with
  | StateLeader =>
      pr ← Prs r !! to;
      prevLog ← RaftLog.entryAt (raftLog r) (sub64 (Progress.Next pr) 1);
      match prevLog with
      | Err err =>
          if decide (err = ErrCompacted) then
            _ ← RaftLog.LastIndex (raftLog r);
            match Storage.Snapshot (RaftLog.storage (raftLog r)) with
            | (snapshot, None) =>
                Some (Message.with_Snapshot (Some snapshot)
                        (Message.with_To to (Message.zero MsgSnapshot)))
            | (_, Some err) =>
                if decide (err = ErrSnapshotTemporarilyUnavailable) then
                  NewHeartbeatMsg r to
                else None
            end
          else None
      | Ok prevLog =>
          li ← RaftLog.LastIndex (raftLog r);
          ents ← RaftLog.slice (raftLog r) (Progress.Next pr) li;
          Some (Message.with_Entries ents
                  (Message.with_Commit (RaftLog.committed (raftLog r))
                     (Message.with_LogTerm (Entry.Term prevLog)
                        (Message.with_Index (Entry.Index prevLog)
                           (Message.with_To to (Message.zero MsgAppend))))))
      end
  | _ => None
  end.

(** Modelled from the spec: [handleAppendEntries] calls
    [NewResponseAppendMsg], which is not under src/; the spec's
    [AppendResponse] carries [index] and [reject], as [NewRespAppendMsg] of
    msg.go builds it. *)
Definition NewResponseAppendMsg (r : t) (to index : Z) (reject : bool)
  : Message.t :=
  NewRespAppendMsg r to index reject.

(** Modelled from the spec: [hup] calls [NewResponseVoteMsg], which is not
    under src/; the spec's [RequestVoteResponse] carries [reject], as
    [NewRespVoteMsg] of msg.go builds it. *)
Definition NewResponseVoteMsg (r : t) (to : Z) (reject : bool) : Message.t :=
  NewRespVoteMsg r to reject.

(** *** raft.go, continued *)

Definition sendAppend (r : t) (to : Z) : option (t * bool) :=
  if to =? id r then None
  else
    pr ← Prs r !! to;
    next ← RaftLog.NextIndex (raftLog r);
    if Progress.Next pr =? next then Some (r, true)
    else
      m ← NewAppendMsg r to;
      Some (send r m, false).

(** The call site computes [commit] and passes it after [to];
    [NewHeartbeatMsg] of msg.go has the one parameter [to] and stamps
    [r.RaftLog.committed], so [commit] does not reach the message. *)
Definition sendHeartbeat (r : t) (to : Z) : option t :=
  if to =? id r then None
  else
    pr ← Prs r !! to;
    let commit := Z.min (Progress.Match pr) (RaftLog.committed (raftLog r)) in
    msg ← NewHeartbeatMsg r to;
    Some (send r msg).

Definition leaderAppendEntries (r : t) (es : list Entry.t) : option (t * Z) :=
  match State r with
  | StateLeader =>
      li ← RaftLog.LastIndex (raftLog r);
      let esA :=
        imap (fun i e =>
                Entry.mk (Term r) (u64 (u64 (li + 1) + Z.of_nat i))
                         (Entry.Data e)) es in
      '(log, li) ← RaftLog.append (raftLog r) esA;
      let r := with_raftLog log r in
      let r :=
        send r (Message.with_Index li
                  (Message.with_To (id r) (Message.zero MsgAppendResponse))) in
      pr ← Prs r !! id r;
      let r := with_Prs (<[id r := Progress.mayUpdateIndex pr li]> (Prs r)) r in
      Some (r, li)
  | _ => None
  end.

Definition becomeLeader (r : t) : option t :=
  if (Vote r =? None_id) || negb (bool_decide (State r = StateCandidate)) then
    None
  else
    let r := with_State StateLeader r in
    let r := with_step StepLeader r in
    let r := with_electionElapsed 0 r in
    let r :=
      with_Prs ((fun pr => Progress.mk (Progress.Match pr)
                              (add64 (Progress.Match pr) 1)) <$> Prs r) r in
    let r := with_Lead (id r) r in
    let entry := Entry.mk (Term r) 1 [] in
    '(r, _) ← leaderAppendEntries r [entry];
    Some r.

Fixpoint appendEntries_loop (l : RaftLog.t) (entries : list Entry.t)
  : option RaftLog.t :=
  match entries with
  | [] => Some l
  | entry :: rest =>
      conflict ← RaftLog.IsConflict l (Entry.Index entry) (Entry.Term entry);
      if (conflict : bool) then
        l ← RaftLog.truncate l (Entry.Index entry);
        '(l, _) ← RaftLog.append l [entry];
        appendEntries_loop l rest
      else
        c ← RaftLog.Contain l (Entry.Index entry);
        if (c : bool) then appendEntries_loop l rest
        else
          '(l, _) ← RaftLog.append l [entry];
          appendEntries_loop l rest
  end.

Definition appendEntries (r : t) (entries : list Entry.t) : option (t * Z) :=
  l ← appendEntries_loop (raftLog r) entries;
  li ← RaftLog.LastIndex l;
  Some (with_raftLog l r, li).

Section Node.
Context {absent : Absent}.

Definition handleAppendEntries (r : t) (m : Message.t) : option t :=
  prevLog ← RaftLog.entryAt (raftLog r) (Message.Index m);
  match prevLog with
  | Err err =>
      let '(index, reject) :=
        if decide (err = LogIsCompacted)
        then (RaftLog.committed (raftLog r), false)
        else (0, true) in
      Some (send r (NewResponseAppendMsg r (Message.From m) index reject))
  | Ok prevLog =>
      if negb (Entry.Term prevLog =? Message.LogTerm m) then
        Some (send r (NewResponseAppendMsg r (Message.From m) 0 true))
      else
        let r := resetElectionTimeOut r in
        '(r, newIndex) ← appendEntries r (Message.Entries m);
        let myCommit := RaftLog.committed (raftLog r) in
        let r :=
          if myCommit <? Message.Commit m then
            with_raftLog
              (RaftLog.updateCommitIndex (raftLog r)
                 (Z.min newIndex (Message.Commit m))) r
          else r in
        let index :=
          add64 (Message.Index m) (Z.of_nat (length (Message.Entries m))) in
        Some (send r (NewResponseAppendMsg r (Message.From m) index false))
  end.

(** [Visit]: the callback runs on the ids of [nodes(r)], read once. *)
Fixpoint Visit_loop (f : t -> nat -> Z -> option t) (sendMe : bool)
  (idx : nat) (ids : list Z) (r : t) : option t :=
  match ids with
  | [] => Some r
  | to :: rest =>
      if (id r =? to) && negb sendMe then Visit_loop f sendMe (S idx) rest r
      else
        r ← f r idx to;
        Visit_loop f sendMe (S idx) rest r
  end.

Definition Visit (r : t) (f : t -> nat -> Z -> option t) (sendMe : bool)
  : option t :=
  Visit_loop f sendMe 0%nat (nodes r) r.

Definition bcastAppend (r : t) : option t :=
  Visit r (fun r _ to => fst <$> sendAppend r to) false.

Definition handleProse (r : t) (m : Message.t) : option t :=
  '(r, _) ← leaderAppendEntries r (Message.Entries m);
  bcastAppend r.

Definition stepFollower (r : t) (m : Message.t) : option t :=
  match State r with
  | StateFollower =>
      match Message.MsgType m with
      | MsgBeat => Some (handleHeartbeat r m)
      | MsgRequestVote => handleVote r m
      | MsgAppend => handleAppendEntries r m
      | _ => Some r
      end
  | _ => None
  end.

Definition stepCandidate (r : t) (m : Message.t) : option t :=
  match State r with
  | StateCandidate =>
      match Message.MsgType m with
      | MsgBeat => Some (handleHeartbeat r m)
      | MsgRequestVoteResponse =>
          polled ←
            poll r (Message.From m) (Message.MsgType m)
                 (negb (Message.Reject m));
          let '(r, (gr, rj, res)) := polled in
          match res with
          | VoteWon =>
              match State r with
              | StateCandidate =>
                  r ← becomeLeader r;
                  bcastAppend r
              | _ => Some r
              end
          | VoteLost => Some (becomeFollower r (Term r) None_id)
          | VotePending => Some r
          end
      | _ => Some r
      end
  | _ => None
  end.

Definition stepLeader (r : t) (m : Message.t) : option t :=
  match State r with
  | StateLeader =>
      match Message.MsgType m with
      | MsgHeartbeat => Visit r (fun r _ to => sendHeartbeat r to) false
      | MsgPropose => handleProse r m
      | MsgAppendResponse =>
          if negb (Message.Reject m) then
            pr ← Prs r !! Message.From m;
            let pr :=
              Progress.mk (Progress.Match pr)
                (Z.max (Progress.Next pr) (add64 (Message.Index m) 1)) in
            let pr :=
              Progress.mk (Z.max (Progress.Match pr) (Message.Index m))
                (Progress.Next pr) in
            Some (with_Prs (<[Message.From m := pr]> (Prs r)) r)
          else Some r
      | _ => Some r
      end
  | _ => None
  end.

(** [r.step(r, m)]: the call through the [step] field. *)
Definition call_step (r : t) (m : Message.t) : option t :=
  match step r with
  | StepNil => None
  | StepFollower => stepFollower r m
  | StepCandidate => stepCandidate r m
  | StepLeader => stepLeader r m
  end.

Definition tick (r : t) : option t :=
  let r := with_heartbeatElapsed (int64 (heartbeatElapsed r + 1)) r in
  let r := with_electionElapsed (int64 (electionElapsed r + 1)) r in
  match State r with
  | StateLeader =>
      if heartbeatTimeout r <=? heartbeatElapsed r then
        call_step r (Message.zero MsgBeat)
      else Some r
  | _ =>
      if electionTimeout r <=? electionElapsed r then
        Some (becomeCandidate r)
      else Some r
  end.

Fixpoint hup_loop (ids : list Z) (r : t) : option t :=
  match ids with
  | [] => Some r
  | i :: rest =>
      if i =? id r then
        r ← call_step r (NewResponseVoteMsg r (id r) false);
        hup_loop rest r
      else
        m ← NewRequestVoteMsg r i;
        hup_loop rest (send r m)
  end.

Definition hup (r : t) : option t :=
  match State r with
  | StateLeader => Some r
  | _ =>
      let r := becomeCandidate r in
      hup_loop (nodes r) r
  end.

Definition Step (r : t) (m : Message.t) : option t :=
  let dispatch (r : t) : option t :=
    match Message.MsgType m with
    | MsgHup => hup r
    | _ => call_step r m
    end in
  if Message.Term m =? 0 then dispatch r
  else if Message.Term m <? Term r then Some r
  else if Term r <? Message.Term m then
    match Message.MsgType m with
    | MsgAppend | MsgHeartbeat | MsgSnapshot =>
        dispatch (becomeFollower r (Message.Term m) (Message.From m))
    | _ => dispatch (becomeFollower r (Message.Term m) None_id)
    end
  else dispatch r.

End Node.
End Raft.

(** * Statements of the checked properties

    The definitions of this part name what the properties below talk
    about; each follows the words of the specification, not the code. *)

(** The AppendResponse that [leaderAppendEntries] addresses to the node
    itself, once [send] has stamped the term and the sender. *)
Definition selfAppendResponse (r : Raft.t) (li : Z) : Message.t :=
  Message.mk MsgAppendResponse (Raft.id r) (Raft.id r) (Raft.Term r) 0 li []
             0 None false.

(** The entries [leaderAppendEntries] appends: the caller's data, stamped
    with the leader's term and the indices after [li]. *)
Definition stamped (term li : Z) (es : list Entry.t) : list Entry.t :=
  imap (fun i e => Entry.mk term (u64 (u64 (li + 1) + Z.of_nat i))
                            (Entry.Data e)) es.

(** Modelled from the spec: [nodes], [handleVote] and [poll] are not under
    src/.  The instance below follows the specification: the peers are the
    configured ones; a vote is granted iff the request's term is not older,
    the node has not voted for somebody else and the candidate's log is at
    least as up to date, and granting records the vote, resets the
    election timer and replies without reject; a poll records the vote and
    is won (lost) once a quorum [n/2 + 1] of the [n] peers granted
    (rejected).  [LogIsCompacted] is taken to be [ErrCompacted], the error
    [entryAt] returns for a compacted index.  The examples run the node
    with this instance; the general theorems hold for every instance. *)
Definition spec_handleVote (r : Raft.t) (m : Message.t) : option Raft.t :=
  lastLog ← RaftLog.LastLog (Raft.raftLog r);
  let upToDate :=
    (Entry.Term lastLog <? Message.LogTerm m) ||
    ((Message.LogTerm m =? Entry.Term lastLog) &&
     (Entry.Index lastLog <=? Message.Index m)) in
  let canVote :=
    (Raft.Vote r =? None_id) || (Raft.Vote r =? Message.From m) in
  if (Raft.Term r <=? Message.Term m) && canVote && upToDate then
    let r := Raft.resetElectionTimeOut (Raft.with_Vote (Message.From m) r) in
    Some (Raft.send r (Raft.NewRespVoteMsg r (Message.From m) false))
  else
    Some (Raft.send r (Raft.NewRespVoteMsg r (Message.From m) true)).

Definition spec_poll (r : Raft.t) (from : Z) (ty : MessageType)
  (granted : bool) : option (Raft.t * (Z * Z * VoteResult)) :=
  let r := Raft.with_votes (<[from := granted]> (Raft.votes r)) r in
  let cast := (map_to_list (Raft.votes r)).*2 in
  let gr := Z.of_nat (length (filter (fun v => v = true) cast)) in
  let rj := Z.of_nat (length (filter (fun v => v = false) cast)) in
  let q := Z.of_nat (length (Raft.peers r)) / 2 + 1 in
  let res := if q <=? gr then VoteWon
             else if q <=? rj then VoteLost else VotePending in
  Some (r, (gr, rj, res)).

Definition spec_absent : Raft.Absent :=
  Raft.Build_Absent Raft.peers spec_handleVote spec_poll ErrCompacted.

(** ** The commit rule of the specification (4.3.6) *)

(** A quorum is [n/2 + 1] of the peers the leader tracks. *)
Definition quorum (r : Raft.t) : Z := Z.of_nat (size (Raft.Prs r)) / 2 + 1.

(** The number of peers, the leader included, whose [match] reaches [N]. *)
Definition matched (r : Raft.t) (N : Z) : Z :=
  Z.of_nat
    (length (filter (fun kv => N <= Progress.Match kv.2)
                    (map_to_list (Raft.Prs r)))).

(** [N] may be committed by a leader in state [r] whose commit index was
    [committed]: it is above it, a quorum has replicated it, and its entry
    is of the leader's term. *)
Definition commit_eligible (r : Raft.t) (committed N : Z) : Prop :=
  (committed < N) /\
  (quorum r <= matched r N) /\
  (RaftLog.Term (Raft.raftLog r) N = Some (Ok (Raft.Term r))).

(** In going from [r] to [r'] the leader has recomputed its commit index:
    no eligible index is left above it. *)
Definition commit_recomputed (r r' : Raft.t) : Prop :=
  forall N,
    commit_eligible r' (RaftLog.committed (Raft.raftLog r)) N ->
    N <= RaftLog.committed (Raft.raftLog r').

(** ** The promotion of the specification (4.3.1) *)

(** Every progress of [r'] is reset against the log of [r]: [match = 0]
    and [next = last_index + 1]. *)
Definition progress_reset (r r' : Raft.t) : Prop :=
  forall i pr li,
    RaftLog.LastIndex (Raft.raftLog r) = Some li ->
    Raft.Prs r' !! i = Some pr ->
    Progress.Match pr = 0 /\ Progress.Next pr = li + 1.

(** ** The follower's commit of the specification (4.3.4, step 4) *)

Definition follower_commit (r : Raft.t) (m : Message.t) : Z :=
  Z.max (RaftLog.committed (Raft.raftLog r))
        (Z.min (Message.Commit m)
               (Message.Index m + Z.of_nat (length (Message.Entries m)))).

(** The log window is well formed: it starts with its sentinel, the entry
    at position [i] has index [start + i], and no index overflows. *)
Definition wf_log (l : RaftLog.t) : Prop :=
  0 <= RaftLog.start l /\
  RaftLog.entries l <> [] /\
  (forall i e, RaftLog.entries l !! i = Some e ->
     Entry.Index e = RaftLog.start l + Z.of_nat i) /\
  RaftLog.start l + Z.of_nat (length (RaftLog.entries l)) < 2 ^ 64.

(** The executable form of [wf_log]. *)
Fixpoint indexed_from (s : Z) (es : list Entry.t) : bool :=
  match es with
  | [] => true
  | e :: rest => (Entry.Index e =? s) && indexed_from (s + 1) rest
  end.

Definition wf_logb (l : RaftLog.t) : bool :=
  (0 <=? RaftLog.start l) &&
  (1 <=? length (RaftLog.entries l))%nat &&
  indexed_from (RaftLog.start l) (RaftLog.entries l) &&
  (RaftLog.start l + Z.of_nat (length (RaftLog.entries l)) <? 2 ^ 64).

(** ** The back-off of the specification (4.3.4, reject) *)

(** The progress of the sender after an accepting response. *)
Definition acknowledged (pr : Progress.t) (m : Message.t) : Progress.t :=
  Progress.mk (Z.max (Progress.Match pr) (Message.Index m))
              (Z.max (Progress.Next pr) (add64 (Message.Index m) 1)).



(** The reply of a follower to [m]: an AppendResponse for the sender of
    [m], stamped by [send] with the follower's id and term. *)
Definition appendReply (r : Raft.t) (m : Message.t) (index : Z)
  (reject : bool) : Message.t :=
  Message.mk MsgAppendResponse (Message.From m) (Raft.id r) (Raft.Term r) 0
             index [] 0 None reject.

(** ** The heartbeat of the specification (4.3.5) *)

(** A heartbeat [hb] of leader [r] advertises no more than its addressee
    is known to have replicated. *)
Definition heartbeat_clamped (r : Raft.t) (hb : Message.t) : Prop :=
  exists pr,
    Raft.Prs r !! Message.To hb = Some pr /\
    Message.Commit hb =
      Z.min (Progress.Match pr) (RaftLog.committed (Raft.raftLog r)).

(** The heartbeat of leader [r] for peer [to] advertising [commit], stamped
    by [send] with the leader's id and term. *)
Definition heartbeatTo (r : Raft.t) (to commit : Z) : Message.t :=
  Message.mk MsgHeartbeat to (Raft.id r) (Raft.Term r) 0 0 [] commit None
             false.

(** The Append of leader [r] for peer [to] after the entry [prevLog],
    carrying [ents], stamped by [send] with the leader's id and term. *)
Definition appendTo (r : Raft.t) (to : Z) (prevLog : Entry.t)
  (ents : list Entry.t) : Message.t :=
  Message.mk MsgAppend to (Raft.id r) (Raft.Term r) (Entry.Term prevLog)
             (Entry.Index prevLog) ents
             (RaftLog.committed (Raft.raftLog r)) None false.

(** ** The node *)

(** The [step] field is the handler of the node's role. *)
Definition coherent (r : Raft.t) : Prop :=
  match Raft.step r, Raft.State r with
  | StepFollower, StateFollower
  | StepCandidate, StateCandidate
  | StepLeader, StateLeader => True
  | _, _ => False
  end.

(** The message types whose handling is all under src/: every type but
    the local Hup, the Beat and the two vote messages. *)
Definition replication_message (ty : MessageType) : bool :=
  match ty with
  | MsgHup | MsgBeat | MsgRequestVote | MsgRequestVoteResponse => false
  | _ => true
  end.

(** The message types a role has a case for in its step function. *)
Definition handled (st : StateType) (ty : MessageType) : bool :=
  match st, ty with
  | StateFollower, (MsgBeat | MsgRequestVote | MsgAppend) => true
  | StateCandidate, (MsgBeat | MsgRequestVoteResponse) => true
  | StateLeader, (MsgHeartbeat | MsgPropose | MsgAppendResponse) => true
  | _, _ => false
  end.

(** [r'] differs from [r] at most in its log, its progresses, its send
    buffer and its timers. *)
Definition same_role (r r' : Raft.t) : Prop :=
  Raft.id r' = Raft.id r /\
  Raft.step r' = Raft.step r /\
  Raft.State r' = Raft.State r /\
  Raft.Term r' = Raft.Term r /\
  Raft.Vote r' = Raft.Vote r /\
  Raft.Lead r' = Raft.Lead r.

(** Every progress the node keeps has [Match] below [Next], both 64-bit
    values. *)
Definition progress_ok (r : Raft.t) : Prop :=
  forall i pr, Raft.Prs r !! i = Some pr ->
    0 <= Progress.Match pr < Progress.Next pr /\ Progress.Next pr < 2 ^ 64.

(** [r'] is [r] with further messages in its send buffer. *)
Definition only_sent (r r' : Raft.t) : Prop :=
  exists new, r' = Raft.with_msgs (Raft.msgs r ++ new) r.

(** * Concrete storages, nodes and messages of the examples *)

(** A storage holding [ents] from index [first] on, compacted below
    [first]; the entry before [first] has term [term0]. *)
Definition memoryStorage (hs : HardState.t) (first term0 : Z)
  (ents : list Entry.t) (snap : Snapshot.t * option error) : Storage.t :=
  Storage.mk (hs, ConfState.mk [], None) (first, None)
    (first + Z.of_nat (length ents) - 1, None)
    (fun lo hi =>
       (drop (Z.to_nat (lo - first)) (take (Z.to_nat (hi - first)) ents),
        None))
    (fun i =>
       if i =? first - 1 then (term0, None)
       else match ents !! Z.to_nat (i - first) with
            | Some e => (Entry.Term e, None)
            | None => (0, Some ErrUnavailable)
            end)
    snap.

Definition noSnapshot : Snapshot.t * option error :=
  (Snapshot.mk [] 0 0, None).

Definition entriesOfTerm1 (n : nat) : list Entry.t :=
  (fun i => Entry.mk 1 (Z.of_nat i) []) <$> seq 1 n.

(** The node of a run that does not panic (the zero node otherwise). *)
Definition zeroNode : Raft.t :=
  Raft.mk 0 [] StepNil 0 0
    (RaftLog.mk (memoryStorage (HardState.mk 0 0 0) 1 0 [] noSnapshot)
                0 0 0 [] None 0)
    ∅ StateFollower ∅ [] 0 0 0 0 0 0 0.

Definition must (run : option Raft.t) : Raft.t := default zeroNode run.

(** Three peers; node 1 restarts on a storage that persisted term 5, a
    vote for peer 2, commit index 3 and three entries of term 1. *)
Definition restartConfig : Config.t :=
  Config.mk 1 [1; 2; 3] 10 1
    (Some (memoryStorage (HardState.mk 5 2 3) 1 0 (entriesOfTerm1 3)
             noSnapshot)) 0.

Definition restarted : option Raft.t := Raft.newRaft restartConfig 0.

(** The restarted node, timed out once and then promoted. *)
Definition candidate : Raft.t := Raft.becomeCandidate (must restarted).

Definition promoted : option Raft.t := Raft.becomeLeader candidate.

(** Scenario S5: node 1 holds four entries, all committed; it wins the
    election of term 2 and appends its no-op at index 5. *)
Definition configS5 : Config.t :=
  Config.mk 1 [1; 2; 3] 10 1
    (Some (memoryStorage (HardState.mk 0 0 4) 1 0 (entriesOfTerm1 4)
             noSnapshot)) 0.

Definition leaderS5 : option Raft.t :=
  r ← Raft.newRaft configS5 0;
  Raft.becomeLeader (Raft.becomeCandidate (Raft.becomeCandidate r)).

(** Peer 2 acknowledges index 5 in term 2. *)
Definition ackS5 : Message.t :=
  Message.mk MsgAppendResponse 1 2 2 0 5 [] 0 None false.


(** The host proposes one entry to the leader. *)
Definition proposeS5 : Message.t :=
  Message.mk MsgPropose 1 1 0 0 0 [Entry.mk 0 0 [7]] 0 None false.

Definition proposedS5 : Raft.t :=
  must (Raft.Step (absent := spec_absent) (must leaderS5) proposeS5).

(** The leader once peer 2 is known to hold index 5. *)
Definition ackedS5 : Raft.t :=
  Raft.with_Prs (<[2 := Progress.mk 5 6]> (Raft.Prs (must leaderS5)))
                (must leaderS5).

(** The same leader, with peer 2 probed at index 9, beyond its log. *)
Definition probedS5 : Raft.t :=
  Raft.with_Prs (<[2 := Progress.mk 5 9]> (Raft.Prs ackedS5)) ackedS5.

(** The same leader, with peer 2 known to hold index 2 and probed at
    index 5. *)
Definition leaderAhead : Raft.t :=
  Raft.with_Prs (<[2 := Progress.mk 2 5]> (Raft.Prs (must leaderS5)))
                (must leaderS5).

(** The same leader, with peer 2 known to hold index 2 and probed at
    index 3. *)
Definition leaderBehind : Raft.t :=
  Raft.with_Prs (<[2 := Progress.mk 2 3]> (Raft.Prs (must leaderS5)))
                (must leaderS5).

(** A follower that holds three entries of term 1, none committed. *)
Definition configLong : Config.t :=
  Config.mk 1 [1; 2; 3] 10 1
    (Some (memoryStorage (HardState.mk 0 0 0) 1 0 (entriesOfTerm1 3)
             noSnapshot)) 0.

Definition followerLong : option Raft.t := Raft.newRaft configLong 0.

(** Peer 2 holds three entries of term 1 and follows node 1 in term 2. *)
Definition configPeer2 : Config.t :=
  Config.mk 2 [1; 2; 3] 10 1
    (Some (memoryStorage (HardState.mk 0 0 0) 1 0 (entriesOfTerm1 3)
             noSnapshot)) 0.

Definition peer2 : Raft.t :=
  Raft.becomeFollower (must (Raft.newRaft configPeer2 0)) 2 1.

(** The leader of term 1 sends the first entry only and commit index 3. *)
Definition appendFirst : Message.t :=
  Message.mk MsgAppend 1 2 1 0 0 [Entry.mk 1 1 []] 3 None false.

(** Node 1 restarts behind a snapshot at index 5 that its storage cannot
    serve for the moment, and is promoted. *)
Definition configCompacted : Config.t :=
  Config.mk 1 [1; 2; 3] 10 1
    (Some (memoryStorage (HardState.mk 0 0 5) 6 1 []
             (Snapshot.mk [] 0 0, Some ErrSnapshotTemporarilyUnavailable)))
    0.

Definition leaderCompacted : option Raft.t :=
  r ← Raft.newRaft configCompacted 0;
  Raft.becomeLeader (Raft.becomeCandidate r).

(** Node 1 restarts behind a snapshot at index 5 that its storage holds,
    and is promoted. *)
Definition configSnapshot : Config.t :=
  Config.mk 1 [1; 2; 3] 10 1
    (Some (memoryStorage (HardState.mk 0 0 5) 6 1 []
             (Snapshot.mk [9] 5 1, None)))
    0.

Definition leaderSnapshot : option Raft.t :=
  r ← Raft.newRaft configSnapshot 0;
  Raft.becomeLeader (Raft.becomeCandidate r).

(** [n] ticks of the clock. *)
Fixpoint ticks {absent : Raft.Absent} (n : nat) (r : Raft.t) : option Raft.t :=
  match n with
  | O => Some r
  | S n => r ← Raft.tick r; ticks n r
  end.

(** The restarted node as a follower of term 1 that voted for peer 2. *)
Definition voted : Raft.t :=
  Raft.with_Vote 2 (Raft.becomeFollower (must restarted) 1 None_id).

(** The restarted node as a follower of term 1 that knows no leader and
    has seen three ticks. *)
Definition follower1 : Raft.t :=
  must (ticks (absent := spec_absent) 3
          (Raft.becomeFollower (must restarted) 1 None_id)).

(** The restarted node one tick before its election timeout. *)
Definition waiting : Raft.t :=
  must (ticks (absent := spec_absent) 9 (must restarted)).

(** The candidate of term 1 the election timeout makes of it. *)
Definition timedOut : Raft.t :=
  must (Raft.tick (absent := spec_absent) waiting).

(** A beat as the host delivers it: local, without term. *)
Definition localBeat : Message.t :=
  Message.mk MsgBeat 1 1 0 0 0 [] 0 None false.

(** The vote requests [hup] sends for the candidate of term 1. *)
Definition requestVote1 (to : Z) : Message.t :=
  Message.mk MsgRequestVote to 1 1 1 3 [] 0 None false.

(** A local beat and a heartbeat of peer 2 in term 1, both for node 1. *)
Definition beat1 : Message.t :=
  Message.mk MsgBeat 1 2 1 0 0 [] 0 None false.

Definition heartbeat1 : Message.t :=
  Message.mk MsgHeartbeat 1 2 1 0 0 [] 0 None false.

(** * Properties *)

(** ** Projections through [send] and the role transitions *)

Lemma send_msgs (r : Raft.t) (m : Message.t) :
  Raft.msgs (Raft.send r m) =
  Raft.msgs r ++
    [Message.with_From
       (if Message.From m =? None_id then Raft.id r else Message.From m)
       (Message.with_Term
          (if Message.Term m =? None_id then Raft.Term r else Message.Term m)
          m)].
Proof.
  unfold Raft.send; simpl.
  destruct (Message.Term m =? None_id) eqn:Ht;
    destruct m as [ty to from term lt ix es cm sn rj]; simpl in *;
    destruct (from =? None_id) eqn:Hf; simpl; reflexivity.
Qed.

Lemma send_frame (r : Raft.t) (m : Message.t) :
  Raft.id (Raft.send r m) = Raft.id r /\
  Raft.Term (Raft.send r m) = Raft.Term r /\
  Raft.Vote (Raft.send r m) = Raft.Vote r /\
  Raft.State (Raft.send r m) = Raft.State r /\
  Raft.Lead (Raft.send r m) = Raft.Lead r /\
  Raft.Prs (Raft.send r m) = Raft.Prs r /\
  Raft.raftLog (Raft.send r m) = Raft.raftLog r /\
  Raft.peers (Raft.send r m) = Raft.peers r.
Proof. unfold Raft.send; simpl; repeat split. Qed.

Lemma send_selfAppendResponse (r : Raft.t) (li : Z) :
  Raft.msgs
    (Raft.send r (Message.with_Index li
                    (Message.with_To (Raft.id r)
                       (Message.zero MsgAppendResponse)))) =
  Raft.msgs r ++ [selfAppendResponse r li].
Proof.
  rewrite send_msgs. simpl. unfold selfAppendResponse, None_id.
  unfold Message.with_From, Message.with_Term; simpl.
  destruct (Raft.id r =? 0) eqn:E.
  - apply Z.eqb_eq in E. now rewrite E.
  - reflexivity.
Qed.

Lemma leaderAppendEntries_inv (r r' : Raft.t) (es : list Entry.t) (li' : Z) :
  Raft.leaderAppendEntries r es = Some (r', li') ->
  Raft.State r = StateLeader /\
  exists li pr,
    RaftLog.LastIndex (Raft.raftLog r) = Some li /\
    Raft.Prs r !! Raft.id r = Some pr /\
    RaftLog.LastIndex
      (RaftLog.with_entries
         (RaftLog.entries (Raft.raftLog r) ++ stamped (Raft.Term r) li es)
         (Raft.raftLog r)) = Some li' /\
    Raft.raftLog r' =
      RaftLog.with_entries
        (RaftLog.entries (Raft.raftLog r) ++ stamped (Raft.Term r) li es)
        (Raft.raftLog r) /\
    Raft.msgs r' = Raft.msgs r ++ [selfAppendResponse r li'] /\
    Raft.Prs r' = <[Raft.id r := Progress.mayUpdateIndex pr li']> (Raft.Prs r) /\
    Raft.id r' = Raft.id r /\ Raft.Term r' = Raft.Term r /\
    Raft.State r' = Raft.State r /\ Raft.Lead r' = Raft.Lead r /\
    Raft.Vote r' = Raft.Vote r /\ Raft.peers r' = Raft.peers r.
Proof.
  unfold Raft.leaderAppendEntries, RaftLog.append.
  destruct (Raft.State r) eqn:Hs; try discriminate.
  intros Hrun. split; [reflexivity|].
  destruct (RaftLog.LastIndex (Raft.raftLog r)) as [li|] eqn:Hli;
    simpl in Hrun; [|discriminate].
  fold (stamped (Raft.Term r) li es) in Hrun.
  destruct (RaftLog.LastIndex _) as [l2|] eqn:Hl2 in Hrun;
    simpl in Hrun; [|discriminate].
  destruct (Raft.Prs r !! Raft.id r) as [pr|] eqn:Hpr;
    simpl in Hrun; [|discriminate].
  injection Hrun as <- <-.
  exists li, pr. simpl.
  repeat split; try assumption; try reflexivity.
Qed.

Lemma u64_idem (z : Z) : u64 (u64 z) = u64 z.
Proof. unfold u64. apply Z.mod_mod. lia. Qed.

Lemma stamped_one (term li : Z) (e : Entry.t) :
  stamped term li [e] = [Entry.mk term (add64 li 1) (Entry.Data e)].
Proof.
  unfold stamped, add64; simpl.
  now rewrite Z.add_0_r, u64_idem.
Qed.

Lemma LastIndex_snoc (l : RaftLog.t) (es : list Entry.t) (e : Entry.t) :
  RaftLog.LastIndex (RaftLog.with_entries (es ++ [e]) l) =
  Some (Entry.Index e).
Proof.
  unfold RaftLog.LastIndex, RaftLog.LastLog; simpl.
  now rewrite last_snoc.
Qed.

(** [sendAppend] leaves the node as it is or sends one message. *)
Lemma sendAppend_inv (r r' : Raft.t) (to : Z) (b : bool) :
  Raft.sendAppend r to = Some (r', b) ->
  r' = r \/ exists m, r' = Raft.send r m.
Proof.
  unfold Raft.sendAppend.
  destruct (to =? Raft.id r); [discriminate|].
  destruct (Raft.Prs r !! to) as [pr|]; simpl; [|discriminate].
  destruct (RaftLog.NextIndex (Raft.raftLog r)) as [next|]; simpl;
    [|discriminate].
  destruct (Progress.Next pr =? next).
  - intros [= <- _]. now left.
  - destruct (Raft.NewAppendMsg r to) as [m|]; simpl; [|discriminate].
    intros [= <- _]. right. now exists m.
Qed.

Section Broadcast.
Context {absent : Raft.Absent}.

(** A broadcast of appends only adds to the send buffer. *)
Lemma bcastAppend_loop_msgs (ids : list Z) :
  forall (idx : nat) (r r' : Raft.t),
    Raft.Visit_loop (fun r _ to => fst <$> Raft.sendAppend r to) false
                    idx ids r = Some r' ->
    exists new, Raft.msgs r' = Raft.msgs r ++ new.
Proof.
  induction ids as [|to ids IH]; intros idx r r'; simpl.
  - intros [= <-]. exists []. now rewrite app_nil_r.
  - destruct (_ && _).
    + apply IH.
    + destruct (Raft.sendAppend r to) as [[r1 b]|] eqn:Hsend; simpl;
        [|discriminate].
      intros Hrest. destruct (IH _ _ _ Hrest) as [new Hnew].
      destruct (sendAppend_inv _ _ _ _ Hsend) as [->|[m ->]].
      * now exists new.
      * rewrite send_msgs in Hnew. rewrite <- app_assoc in Hnew.
        eexists. exact Hnew.
Qed.

Lemma bcastAppend_msgs (r r' : Raft.t) :
  Raft.bcastAppend r = Some r' ->
  exists new, Raft.msgs r' = Raft.msgs r ++ new.
Proof. apply bcastAppend_loop_msgs. Qed.

End Broadcast.

(** [leaderAppendEntries] runs to its end on every leader whose log window
    has its sentinel and that tracks its own progress. *)
Lemma leaderAppendEntries_total (r : Raft.t) (es : list Entry.t) :
  Raft.State r = StateLeader ->
  RaftLog.entries (Raft.raftLog r) <> [] ->
  is_Some (Raft.Prs r !! Raft.id r) ->
  is_Some (Raft.leaderAppendEntries r es).
Proof.
  intros Hs Hne [pr Hpr].
  unfold Raft.leaderAppendEntries, RaftLog.append. rewrite Hs.
  assert (Hlast : forall tl, is_Some (RaftLog.LastIndex
            (RaftLog.with_entries (RaftLog.entries (Raft.raftLog r) ++ tl)
                                  (Raft.raftLog r)))).
  { intros tl. unfold RaftLog.LastIndex, RaftLog.LastLog; simpl.
    destruct (last (RaftLog.entries (Raft.raftLog r) ++ tl)) eqn:E; [eauto|].
    apply last_None in E. apply app_eq_nil in E as [E _]. contradiction. }
  destruct (RaftLog.LastIndex (Raft.raftLog r)) as [li|] eqn:Hli; simpl.
  - destruct (Hlast (imap (fun i e =>
        Entry.mk (Raft.Term r) (u64 (u64 (li + 1) + Z.of_nat i))
                 (Entry.Data e)) es)) as [l2 Hl2].
    rewrite Hl2; simpl. rewrite Hpr; simpl. eauto.
  - destruct (Hlast []) as [l2 Hl2]. rewrite app_nil_r in Hl2.
    unfold RaftLog.LastIndex, RaftLog.LastLog in *; simpl in *. congruence.
Qed.

(** C10 (confirmed): whenever the leader appends entries to its own log,
    an AppendResponse addressed to the node's own id is placed in the
    outbound buffer.  [leaderAppendEntries], which runs to its end on every
    leader with a non-empty log window and a progress of its own, appends
    to [msgs] one AppendResponse whose [To] (and [From]) is the node's id
    and whose index is the new last index; the promotion to leader does so
    for its no-op entry, and after the broadcast that follows a Propose the
    message is still in the buffer. *)
Theorem C10_leader_append_sends_to_self {absent : Raft.Absent} (r : Raft.t) :
  (forall es, Raft.State r = StateLeader ->
     RaftLog.entries (Raft.raftLog r) <> [] ->
     is_Some (Raft.Prs r !! Raft.id r) ->
     is_Some (Raft.leaderAppendEntries r es)) /\
  (forall es r' li, Raft.leaderAppendEntries r es = Some (r', li) ->
     Raft.msgs r' = Raft.msgs r ++ [selfAppendResponse r li] /\
     Message.MsgType (selfAppendResponse r li) = MsgAppendResponse /\
     Message.To (selfAppendResponse r li) = Raft.id r' /\
     RaftLog.LastIndex (Raft.raftLog r') = Some li) /\
  (forall r', Raft.becomeLeader r = Some r' ->
     exists li, Raft.msgs r' = Raft.msgs r ++ [selfAppendResponse r' li]) /\
  (forall m r', Raft.handleProse r m = Some r' ->
     exists li, selfAppendResponse r li ∈ Raft.msgs r').
Proof.
  split; [|split; [|split]].
  - intros es. apply leaderAppendEntries_total.
  - intros es r' li Hrun.
    destruct (leaderAppendEntries_inv _ _ _ _ Hrun)
      as (_ & li0 & pr & _ & _ & Hli & Hlog & Hmsgs & _ & Hid & _).
    rewrite Hlog, Hid. auto.
  - intros r'. unfold Raft.becomeLeader.
    destruct (_ || _); [discriminate|].
    destruct (Raft.leaderAppendEntries _ _) as [[r1 li]|] eqn:Hrun; simpl;
      [|discriminate].
    intros [= <-].
    destruct (leaderAppendEntries_inv _ _ _ _ Hrun)
      as (_ & li0 & pr & _ & _ & _ & _ & Hmsgs & _ & Hid & Hterm & _).
    exists li. rewrite Hmsgs. simpl.
    unfold selfAppendResponse. now rewrite Hid, Hterm.
  - intros m r'. unfold Raft.handleProse.
    destruct (Raft.leaderAppendEntries r _) as [[r1 li]|] eqn:Hrun; simpl;
      [|discriminate].
    intros Hb. destruct (bcastAppend_msgs _ _ Hb) as [new Hnew].
    destruct (leaderAppendEntries_inv _ _ _ _ Hrun)
      as (_ & li0 & pr & _ & _ & _ & _ & Hmsgs & _).
    exists li. rewrite Hnew, Hmsgs. set_solver.
Qed.

(** C10, an instance: the leader of scenario S5 takes a proposal of one
    entry; after the broadcast an AppendResponse addressed to node 1 itself
    is in the send buffer. *)
Lemma C10_leader_append_sends_to_self_witness :
  Raft.handleProse (absent := spec_absent) (must leaderS5) proposeS5 =
    Some proposedS5 /\
  exists li, selfAppendResponse (must leaderS5) li ∈ Raft.msgs proposedS5.
Proof.
  assert (Hrun : Raft.handleProse (absent := spec_absent) (must leaderS5)
                   proposeS5 = Some proposedS5) by (vm_compute; reflexivity).
  split; [exact Hrun|].
  exact (proj2 (proj2 (proj2
           (C10_leader_append_sends_to_self (absent := spec_absent)
              (must leaderS5)))) _ _ Hrun).
Defined.

(** ** Promotion to leader *)

(** [becomeLeader] runs to its end exactly from a candidate with a vote
    set, a non-empty log window and a progress of its own. *)
Lemma becomeLeader_total (r : Raft.t) :
  Raft.State r = StateCandidate ->
  Raft.Vote r <> None_id ->
  RaftLog.entries (Raft.raftLog r) <> [] ->
  is_Some (Raft.Prs r !! Raft.id r) ->
  is_Some (Raft.becomeLeader r).
Proof.
  intros Hs Hv Hne [pr Hpr]. unfold Raft.becomeLeader.
  apply Z.eqb_neq in Hv. rewrite Hv, Hs; simpl.
  match goal with
  | |- is_Some (Raft.leaderAppendEntries ?r1 ?es ≫= _) =>
      destruct (leaderAppendEntries_total r1 es) as [[r2 li] Hrun]
  end; simpl; try reflexivity; try assumption.
  - rewrite lookup_fmap, Hpr. simpl. eauto.
  - rewrite Hrun. simpl. eauto.
Qed.

(** C3 (corrected): the promotion to leader.  [becomeLeader] runs only
    from a candidate whose vote is set; it makes the node leader with
    [Lead] its own id and the term unchanged, and appends exactly one entry
    without data whose term is the node's term and whose index is the last
    index plus one (64-bit): the literal [Index: 1] of the source is
    overwritten by [leaderAppendEntries].  It does not reset the progresses:
    every other peer keeps its [Match] and gets [Next = Match + 1], and the
    node's own progress is then advanced to the new last index by
    [mayUpdateIndex]. *)
Theorem C3_becomeLeader (r r' : Raft.t) :
  Raft.becomeLeader r = Some r' ->
  Raft.State r = StateCandidate /\
  Raft.Vote r <> None_id /\
  Raft.State r' = StateLeader /\
  Raft.Lead r' = Raft.id r /\
  Raft.Term r' = Raft.Term r /\
  exists li pr,
    RaftLog.LastIndex (Raft.raftLog r) = Some li /\
    RaftLog.entries (Raft.raftLog r') =
      RaftLog.entries (Raft.raftLog r) ++
        [Entry.mk (Raft.Term r) (add64 li 1) []] /\
    RaftLog.LastIndex (Raft.raftLog r') = Some (add64 li 1) /\
    (forall i, i <> Raft.id r ->
       Raft.Prs r' !! i =
       (fun p => Progress.mk (Progress.Match p) (add64 (Progress.Match p) 1))
         <$> Raft.Prs r !! i) /\
    Raft.Prs r !! Raft.id r = Some pr /\
    Raft.Prs r' !! Raft.id r =
      Some (Progress.mayUpdateIndex
              (Progress.mk (Progress.Match pr) (add64 (Progress.Match pr) 1))
              (add64 li 1)).
Proof.
  unfold Raft.becomeLeader.
  destruct (Raft.Vote r =? None_id) eqn:Hv; [discriminate|].
  destruct (bool_decide (Raft.State r = StateCandidate)) eqn:Hs;
    [|discriminate].
  apply bool_decide_eq_true in Hs. apply Z.eqb_neq in Hv. simpl.
  destruct (Raft.leaderAppendEntries _ _) as [[r1 li1]|] eqn:Hrun; simpl;
    [|discriminate].
  intros [= <-].
  destruct (leaderAppendEntries_inv _ _ _ _ Hrun)
    as (_ & li & pr1 & Hli & Hpr1 & Hli1 & Hlog & _ & Hprs & Hid & Hterm &
        Hstate & Hlead & _).
  simpl in *. rewrite stamped_one in Hlog, Hli1. simpl in *.
  rewrite LastIndex_snoc in Hli1. simpl in Hli1. injection Hli1 as <-.
  rewrite lookup_fmap in Hpr1.
  destruct (Raft.Prs r !! Raft.id r) as [pr|] eqn:Hpr; [|discriminate].
  simpl in Hpr1. injection Hpr1 as <-.
  repeat split; try assumption.
  exists li, pr. rewrite Hlog, Hprs; simpl.
  repeat split; try assumption; try reflexivity.
  - apply LastIndex_snoc.
  - intros i Hi. rewrite lookup_insert_ne by congruence.
    now rewrite lookup_fmap.
  - now rewrite lookup_insert_eq.
Qed.

(** C3, an instance: the node restarted on three entries and timed out
    once is promoted; it leads itself and its no-op has index 4. *)
Lemma C3_becomeLeader_witness :
  Raft.becomeLeader candidate = Some (must promoted) /\
  Raft.Lead (must promoted) = 1 /\
  RaftLog.LastIndex (Raft.raftLog (must promoted)) = Some 4.
Proof.
  assert (Hrun : Raft.becomeLeader candidate = Some (must promoted))
    by (vm_compute; reflexivity).
  split; [exact Hrun|].
  destruct (C3_becomeLeader candidate (must promoted) Hrun)
    as (_ & _ & _ & Hlead & _ & li & pr & Hli & _ & Hlast & _).
  split; [exact Hlead|].
  rewrite Hlast. f_equal.
  assert (Hli3 : RaftLog.LastIndex (Raft.raftLog candidate) = Some 3)
    by (vm_compute; reflexivity).
  rewrite Hli3 in Hli. injection Hli as <-. reflexivity.
Defined.

(** C3, as stated, fails: on the node restarted on three entries (last
    index 3) the promotion leaves peer 2 at [match = 0, next = 1] and puts
    the node itself at [match = 4, next = 5]; no progress has
    [next = last_index + 1 = 4]. *)
Lemma C3_progress_not_reset :
  exists r',
    Raft.becomeLeader candidate = Some r' /\
    RaftLog.LastIndex (Raft.raftLog candidate) = Some 3 /\
    Raft.Prs r' !! 2 = Some (Progress.mk 0 1) /\
    Raft.Prs r' !! 1 = Some (Progress.mk 4 5) /\
    (progress_reset candidate r' -> False).
Proof.
  exists (must promoted).
  assert (H2 : Raft.Prs (must promoted) !! 2 = Some (Progress.mk 0 1))
    by (vm_compute; reflexivity).
  assert (Hli : RaftLog.LastIndex (Raft.raftLog candidate) = Some 3)
    by (vm_compute; reflexivity).
  split; [vm_compute; reflexivity|].
  split; [exact Hli|].
  split; [exact H2|].
  split; [vm_compute; reflexivity|].
  intros Hreset. destruct (Hreset 2 _ 3 Hli H2) as [_ Hnext].
  simpl in Hnext. discriminate.
Qed.

(** ** The leader on an AppendResponse *)

Section AppendResponse.
Context {absent : Raft.Absent}.

Lemma stepLeader_AppendResponse (r r' : Raft.t) (m : Message.t) :
  Message.MsgType m = MsgAppendResponse ->
  Raft.stepLeader r m = Some r' ->
  Raft.State r = StateLeader /\
  if Message.Reject m then r' = r
  else exists pr,
      Raft.Prs r !! Message.From m = Some pr /\
      r' = Raft.with_Prs (<[Message.From m := acknowledged pr m]> (Raft.Prs r))
                         r.
Proof.
  intros Hty. unfold Raft.stepLeader. rewrite Hty.
  destruct (Raft.State r); try discriminate.
  destruct (Message.Reject m); simpl.
  - intros [= <-]. auto.
  - destruct (Raft.Prs r !! Message.From m) as [pr|]; simpl; [|discriminate].
    intros [= <-]. split; [reflexivity|]. now exists pr.
Qed.


Lemma stepLeader_AppendResponse_log (r r' : Raft.t) (m : Message.t) :
  Message.MsgType m = MsgAppendResponse ->
  Raft.stepLeader r m = Some r' ->
  Raft.raftLog r' = Raft.raftLog r /\ Raft.Term r' = Raft.Term r.
Proof.
  intros Hty Hrun.
  destruct (stepLeader_AppendResponse _ _ _ Hty Hrun) as [_ Hr'].
  destruct (Message.Reject m).
  - now subst.
  - destruct Hr' as (pr & _ & ->). auto.
Qed.

Lemma call_step_AppendResponse_log (r r' : Raft.t) (m : Message.t) :
  Message.MsgType m = MsgAppendResponse ->
  Raft.call_step r m = Some r' ->
  Raft.raftLog r' = Raft.raftLog r /\ Raft.Term r' = Raft.Term r.
Proof.
  intros Hty. unfold Raft.call_step.
  destruct (Raft.step r); try discriminate.
  - unfold Raft.stepFollower. rewrite Hty.
    destruct (Raft.State r); try discriminate. now intros [= <-].
  - unfold Raft.stepCandidate. rewrite Hty.
    destruct (Raft.State r); try discriminate. now intros [= <-].
  - now apply stepLeader_AppendResponse_log.
Qed.

Lemma Step_AppendResponse_log (r r' : Raft.t) (m : Message.t) :
  Message.MsgType m = MsgAppendResponse ->
  Raft.Step r m = Some r' ->
  Raft.raftLog r' = Raft.raftLog r.
Proof.
  intros Hty. unfold Raft.Step. rewrite Hty.
  destruct (Message.Term m =? 0).
  { intros Hrun. now apply (call_step_AppendResponse_log _ _ _ Hty Hrun). }
  destruct (Message.Term m <? Raft.Term r).
  { now intros [= <-]. }
  destruct (Raft.Term r <? Message.Term m).
  - intros Hrun.
    now destruct (call_step_AppendResponse_log _ _ _ Hty Hrun) as [-> _].
  - intros Hrun. now apply (call_step_AppendResponse_log _ _ _ Hty Hrun).
Qed.

(** C1 (corrected): the leader on an AppendResponse.  Neither [stepLeader]
    nor the entry point [Step] touches the log when the message is an
    AppendResponse: the commit index is not recomputed, it stays where it
    was.  So it is monotone, and it never advances to an entry of another
    term, because it never advances. *)
Theorem C1_append_response_keeps_commit (r r' : Raft.t) (m : Message.t) :
  Message.MsgType m = MsgAppendResponse ->
  Raft.stepLeader r m = Some r' \/ Raft.Step r m = Some r' ->
  Raft.raftLog r' = Raft.raftLog r /\
  RaftLog.committed (Raft.raftLog r) <= RaftLog.committed (Raft.raftLog r') /\
  (forall N,
     RaftLog.committed (Raft.raftLog r) < N <=
       RaftLog.committed (Raft.raftLog r') ->
     RaftLog.Term (Raft.raftLog r') N = Some (Ok (Raft.Term r'))).
Proof.
  intros Hty Hrun.
  assert (Hlog : Raft.raftLog r' = Raft.raftLog r).
  { destruct Hrun as [Hrun|Hrun].
    - now apply (stepLeader_AppendResponse_log _ _ _ Hty Hrun).
    - now apply (Step_AppendResponse_log _ _ _ Hty Hrun). }
  rewrite Hlog. split; [reflexivity|]. split; [lia|]. intros N HN. lia.
Qed.


End AppendResponse.

(** C1, an instance: the leader of scenario S5 takes the acknowledgement of
    peer 2 and its log is as before. *)
Lemma C1_append_response_keeps_commit_witness :
  Raft.Step (absent := spec_absent) (must leaderS5) ackS5 = Some ackedS5 /\
  Raft.raftLog ackedS5 = Raft.raftLog (must leaderS5).
Proof.
  assert (Hrun :
    Raft.Step (absent := spec_absent) (must leaderS5) ackS5 = Some ackedS5)
    by (vm_compute; reflexivity).
  split; [exact Hrun|].
  apply (C1_append_response_keeps_commit (absent := spec_absent)
           (must leaderS5) _ ackS5 eq_refl (or_intror Hrun)).
Defined.

(** C1, as stated, fails on scenario S5: the leader of term 2 holds its
    no-op of term 2 at index 5 and commit index 4; peer 2 acknowledges
    index 5, so two of the three peers hold index 5; the commit index
    remains 4. *)
Lemma C1_commit_not_recomputed :
  leaderS5 = Some (must leaderS5) /\
  Raft.Step (absent := spec_absent) (must leaderS5) ackS5 = Some ackedS5 /\
  RaftLog.committed (Raft.raftLog (must leaderS5)) = 4 /\
  RaftLog.committed (Raft.raftLog ackedS5) = 4 /\
  commit_eligible ackedS5 4 5 /\
  (commit_recomputed (must leaderS5) ackedS5 -> False).
Proof.
  assert (Hc : RaftLog.committed (Raft.raftLog (must leaderS5)) = 4)
    by (vm_compute; reflexivity).
  assert (Hc' : RaftLog.committed (Raft.raftLog ackedS5) = 4)
    by (vm_compute; reflexivity).
  assert (Hel : commit_eligible ackedS5 4 5).
  { split; [lia|]. split.
    - assert (Hq : quorum ackedS5 = 2) by (vm_compute; reflexivity).
      assert (Hm : matched ackedS5 5 = 2) by (vm_compute; reflexivity).
      rewrite Hq, Hm. lia.
    - vm_compute. reflexivity. }
  split; [vm_compute; reflexivity|].
  split; [vm_compute; reflexivity|].
  split; [exact Hc|]. split; [exact Hc'|]. split; [exact Hel|].
  intros Hre. specialize (Hre 5). rewrite Hc, Hc' in Hre.
  specialize (Hre Hel). lia.
Qed.



(** ** The follower on an Append *)

Lemma truncate_frame (l l' : RaftLog.t) (index : Z) :
  RaftLog.truncate l index = Some l' ->
  RaftLog.committed l' = RaftLog.committed l.
Proof.
  unfold RaftLog.truncate.
  destruct (_ <=? _); [|discriminate].
  destruct (RaftLog.LastIndex _); simpl; [|discriminate].
  now intros [= <-].
Qed.

Lemma append_frame (l l' : RaftLog.t) (es : list Entry.t) (li : Z) :
  RaftLog.append l es = Some (l', li) ->
  RaftLog.committed l' = RaftLog.committed l /\
  RaftLog.entries l' = RaftLog.entries l ++ es.
Proof.
  unfold RaftLog.append.
  destruct (RaftLog.LastIndex _); simpl; [|discriminate].
  now intros [= <- _].
Qed.

(** The loop of [appendEntries] leaves the commit index alone and never
    empties the log window. *)
Lemma appendEntries_loop_frame (es : list Entry.t) :
  forall l l',
    Raft.appendEntries_loop l es = Some l' ->
    RaftLog.committed l' = RaftLog.committed l /\
    (RaftLog.entries l <> [] -> RaftLog.entries l' <> []).
Proof.
  induction es as [|e es IH]; intros l l'; simpl.
  - now intros [= <-].
  - destruct (RaftLog.IsConflict l _ _) as [[|]|]; simpl; [| |discriminate].
    + destruct (RaftLog.truncate l _) as [l1|] eqn:Ht; simpl; [|discriminate].
      destruct (RaftLog.append l1 [e]) as [[l2 li]|] eqn:Ha; simpl;
        [|discriminate].
      intros Hrest. destruct (IH _ _ Hrest) as [Hc Hne].
      destruct (append_frame _ _ _ _ Ha) as [Hc2 He2].
      split.
      * rewrite Hc, Hc2. now apply truncate_frame in Ht.
      * intros _. apply Hne. rewrite He2.
        intros E. now apply app_eq_nil in E as [_ E].
    + destruct (RaftLog.Contain l _) as [[|]|]; simpl; [| |discriminate].
      * apply IH.
      * destruct (RaftLog.append l [e]) as [[l2 li]|] eqn:Ha; simpl;
          [|discriminate].
        intros Hrest. destruct (IH _ _ Hrest) as [Hc Hne].
        destruct (append_frame _ _ _ _ Ha) as [Hc2 He2].
        split; [congruence|].
        intros _. apply Hne. rewrite He2.
        intros E. now apply app_eq_nil in E as [_ E].
Qed.

Lemma entryAt_Ok_nonempty (l : RaftLog.t) (index : Z) (e : Entry.t) :
  RaftLog.entryAt l index = Some (Ok e) -> RaftLog.entries l <> [].
Proof.
  unfold RaftLog.entryAt. intros Hat E. rewrite E in Hat.
  unfold RaftLog.LastIndex, RaftLog.LastLog in Hat. rewrite E in Hat.
  simpl in Hat.
  destruct (index =? RaftLog.start l); [discriminate|].
  destruct (index <? RaftLog.First l); discriminate.
Qed.

Lemma LastIndex_nonempty (l : RaftLog.t) :
  RaftLog.entries l <> [] -> is_Some (RaftLog.LastIndex l).
Proof.
  intros Hne. unfold RaftLog.LastIndex, RaftLog.LastLog.
  destruct (last (RaftLog.entries l)) eqn:E; simpl; [eauto|].
  now apply last_None in E.
Qed.

Section Append.
Context {absent : Raft.Absent}.

(** What [handleAppendEntries] does once the previous entry is found with
    the term of the message and the append loop has run. *)
Lemma handleAppendEntries_accept (r : Raft.t) (m : Message.t)
  (prevLog : Entry.t) (l' : RaftLog.t) :
  RaftLog.entryAt (Raft.raftLog r) (Message.Index m) = Some (Ok prevLog) ->
  Entry.Term prevLog = Message.LogTerm m ->
  Raft.appendEntries_loop (Raft.raftLog r) (Message.Entries m) = Some l' ->
  exists r' newIndex,
    Raft.handleAppendEntries r m = Some r' /\
    RaftLog.LastIndex l' = Some newIndex /\
    RaftLog.entries (Raft.raftLog r') = RaftLog.entries l' /\
    RaftLog.start (Raft.raftLog r') = RaftLog.start l' /\
    RaftLog.committed (Raft.raftLog r') =
      (if RaftLog.committed (Raft.raftLog r) <? Message.Commit m
       then Z.max (RaftLog.committed (Raft.raftLog r))
                  (Z.min newIndex (Message.Commit m))
       else RaftLog.committed (Raft.raftLog r)) /\
    RaftLog.committed (Raft.raftLog r) <=
      RaftLog.committed (Raft.raftLog r') /\
    Raft.msgs r' =
      Raft.msgs r ++
        [appendReply r m
           (add64 (Message.Index m)
                  (Z.of_nat (length (Message.Entries m)))) false] /\
    Raft.electionElapsed r' = 0.
Proof.
  intros Hat Hterm Hloop.
  destruct (appendEntries_loop_frame _ _ _ Hloop) as [Hc Hne].
  specialize (Hne (entryAt_Ok_nonempty _ _ _ Hat)).
  destruct (LastIndex_nonempty _ Hne) as [newIndex Hli].
  unfold Raft.handleAppendEntries, Raft.appendEntries.
  rewrite Hat; simpl. rewrite Hterm, Z.eqb_refl; simpl.
  rewrite Hloop; simpl. rewrite Hli; simpl. rewrite Hc.
  eexists. exists newIndex. split; [reflexivity|].
  split; [reflexivity|].
  unfold RaftLog.updateCommitIndex.
  destruct (RaftLog.committed (Raft.raftLog r) <? Message.Commit m) eqn:Hlt;
    simpl.
  - rewrite Hc.
    destruct (Z.min newIndex (Message.Commit m) <?
              RaftLog.committed (Raft.raftLog r)) eqn:Hmin; simpl;
      rewrite ?Hc; repeat split; try reflexivity; lia.
  - rewrite Hc. repeat split; try reflexivity; lia.
Qed.

(** C5 (corrected): the follower on an Append whose previous entry is
    present with the same term.  Given that the append loop does not panic,
    [handleAppendEntries] runs to its end, resets the election timer and
    replies [reject = false, index = prev_index + len(entries)] (64-bit)
    whatever the log holds beyond that index.  The commit index moves only
    when it is below the leader's, and then to
    [max(committed, min(last index of the log after the append,
    leader_commit))]: the bound is the follower's last index, not
    [prev_index + len(entries)].  It never decreases. *)
Theorem C5_handleAppendEntries (r : Raft.t) (m : Message.t)
  (prevLog : Entry.t) (l' : RaftLog.t) :
  RaftLog.entryAt (Raft.raftLog r) (Message.Index m) = Some (Ok prevLog) ->
  Entry.Term prevLog = Message.LogTerm m ->
  Raft.appendEntries_loop (Raft.raftLog r) (Message.Entries m) = Some l' ->
  exists r' newIndex,
    Raft.handleAppendEntries r m = Some r' /\
    RaftLog.LastIndex l' = Some newIndex /\
    RaftLog.entries (Raft.raftLog r') = RaftLog.entries l' /\
    RaftLog.start (Raft.raftLog r') = RaftLog.start l' /\
    RaftLog.committed (Raft.raftLog r') =
      (if RaftLog.committed (Raft.raftLog r) <? Message.Commit m
       then Z.max (RaftLog.committed (Raft.raftLog r))
                  (Z.min newIndex (Message.Commit m))
       else RaftLog.committed (Raft.raftLog r)) /\
    RaftLog.committed (Raft.raftLog r) <=
      RaftLog.committed (Raft.raftLog r') /\
    Raft.msgs r' =
      Raft.msgs r ++
        [appendReply r m
           (add64 (Message.Index m)
                  (Z.of_nat (length (Message.Entries m)))) false] /\
    Raft.electionElapsed r' = 0.
Proof. apply handleAppendEntries_accept. Qed.

End Append.

(** C5, an instance: the follower holding three entries takes the first
    entry again; it replies with index 1 and its commit index goes to 3. *)
Lemma C5_handleAppendEntries_witness :
  RaftLog.entryAt (Raft.raftLog (must followerLong)) 0 =
    Some (Ok (Entry.mk 0 0 [])) /\
  Raft.appendEntries_loop (Raft.raftLog (must followerLong))
    [Entry.mk 1 1 []] = Some (Raft.raftLog (must followerLong)) /\
  exists r',
    Raft.handleAppendEntries (absent := spec_absent) (must followerLong)
      appendFirst = Some r' /\
    Raft.electionElapsed r' = 0.
Proof.
  assert (Hat : RaftLog.entryAt (Raft.raftLog (must followerLong))
                  (Message.Index appendFirst) =
                Some (Ok (Entry.mk 0 0 []))) by (vm_compute; reflexivity).
  assert (Hloop : Raft.appendEntries_loop (Raft.raftLog (must followerLong))
                    (Message.Entries appendFirst) =
                  Some (Raft.raftLog (must followerLong)))
    by (vm_compute; reflexivity).
  split; [exact Hat|]. split; [exact Hloop|].
  destruct (C5_handleAppendEntries (absent := spec_absent)
              (must followerLong) appendFirst _ _ Hat eq_refl Hloop)
    as (r' & newIndex & Hrun & _ & _ & _ & _ & _ & _ & Hel).
  exists r'. split; [exact Hrun|exact Hel].
Defined.

(** C5, as stated, fails: the follower holds entries 1 to 3 of term 1 and
    has committed nothing; the leader of term 1 sends entry 1 alone after
    index 0, with commit index 3.  The reply carries index 1, and the
    commit index goes to 3, not to [min(3, 0 + 1) = 1]: entries 2 and 3,
    which the leader did not send, count as committed. *)
Lemma C5_commit_beyond_appended :
  exists r',
    followerLong = Some (must followerLong) /\
    Raft.Step (absent := spec_absent) (must followerLong) appendFirst =
      Some r' /\
    RaftLog.committed (Raft.raftLog (must followerLong)) = 0 /\
    follower_commit (must followerLong) appendFirst = 1 /\
    RaftLog.committed (Raft.raftLog r') = 3 /\
    Raft.msgs r' = [appendReply r' appendFirst 1 false].
Proof.
  exists (must (Raft.Step (absent := spec_absent) (must followerLong)
                          appendFirst)).
  split; [vm_compute; reflexivity|].
  split; [vm_compute; reflexivity|].
  split; [vm_compute; reflexivity|].
  split; [vm_compute; reflexivity|].
  split; [vm_compute; reflexivity|].
  vm_compute; reflexivity.
Qed.

(** ** The append loop on a well-formed log *)

Lemma u64_small (z : Z) : 0 <= z < 2 ^ 64 -> u64 z = z.
Proof. intros Hz. unfold u64. now apply Z.mod_small. Qed.

Lemma wf_LastIndex (l : RaftLog.t) :
  wf_log l ->
  RaftLog.LastIndex l =
    Some (RaftLog.start l + Z.of_nat (length (RaftLog.entries l)) - 1).
Proof.
  intros (Hs & Hne & Hix & Hb).
  unfold RaftLog.LastIndex, RaftLog.LastLog. rewrite last_lookup.
  destruct (RaftLog.entries l !! pred (length (RaftLog.entries l)))
    as [e|] eqn:He; simpl.
  - rewrite (Hix _ _ He). f_equal.
    destruct (RaftLog.entries l); [contradiction|]. simpl length in *. lia.
  - apply lookup_ge_None in He.
    destruct (RaftLog.entries l); [contradiction|]. simpl in He. lia.
Qed.

Lemma appendEntries_loop_total (es : list Entry.t) :
  forall (l : RaftLog.t) (j : Z),
    wf_log l ->
    (forall k e, es !! k = Some e -> Entry.Index e = j + Z.of_nat k) ->
    RaftLog.start l + 1 <= j <=
      RaftLog.start l + Z.of_nat (length (RaftLog.entries l)) ->
    RaftLog.start l + Z.of_nat (length (RaftLog.entries l)) +
      Z.of_nat (length es) < 2 ^ 64 ->
    exists l',
      Raft.appendEntries_loop l es = Some l' /\
      wf_log l' /\
      RaftLog.start l' = RaftLog.start l /\
      j + Z.of_nat (length es) <=
        RaftLog.start l' + Z.of_nat (length (RaftLog.entries l')).
Proof.
  induction es as [|e es IH]; intros l j Hwf Hes Hj Hb.
  - exists l. split; [reflexivity|]. split; [exact Hwf|].
    split; [reflexivity|]. simpl in *. lia.
  - pose proof Hwf as (Hs & Hne & Hix & Hb0).
    assert (Hej : Entry.Index e = j).
    { rewrite (Hes 0%nat e eq_refl). simpl. lia. }
    assert (Hes' : forall k e', es !! k = Some e' ->
                     Entry.Index e' = (j + 1) + Z.of_nat k).
    { intros k e' Hk. rewrite (Hes (S k) e' Hk). lia. }
    simpl length in Hb.
    set (n := length (RaftLog.entries l)) in *.
    assert (HFirst : RaftLog.First l = RaftLog.start l + 1).
    { unfold RaftLog.First, add64. apply u64_small. lia. }
    assert (Hsub : sub64 j (RaftLog.start l) = j - RaftLog.start l).
    { unfold sub64. apply u64_small. lia. }
    simpl. rewrite Hej.
    unfold RaftLog.IsConflict, RaftLog.Contain.
    rewrite HFirst, (wf_LastIndex _ Hwf). fold n.
    replace (RaftLog.start l + 1 <=? j) with true by (symmetry; apply Z.leb_le; lia).
    simpl.
    assert (Htrunc : forall m, (1 <= m)%nat -> (m <= n)%nat ->
      j = RaftLog.start l + Z.of_nat m ->
      exists l1,
        RaftLog.truncate l j ≫= (fun l0 => RaftLog.append l0 [e]) =
          Some (l1, j) /\
        wf_log l1 /\ RaftLog.start l1 = RaftLog.start l /\
        length (RaftLog.entries l1) = S m).
    { intros m Hm1 Hmn Hjm.
      unfold RaftLog.truncate. rewrite Hsub. fold n.
      replace (j - RaftLog.start l <=? Z.of_nat n) with true
        by (symmetry; apply Z.leb_le; lia).
      replace (Z.to_nat (j - RaftLog.start l)) with m by lia.
      set (l0 := RaftLog.with_entries (take m (RaftLog.entries l)) l).
      assert (Hwf0 : wf_log l0).
      { unfold wf_log, l0; simpl. split; [exact Hs|]. split.
        - intros E. apply (f_equal length) in E. rewrite length_take in E.
          simpl in E. fold n in E. lia.
        - split.
          + intros i e0 Hi. apply lookup_take_Some in Hi as [Hi _].
            now apply Hix.
          + rewrite length_take. fold n. lia. }
      rewrite (wf_LastIndex _ Hwf0). simpl.
      unfold RaftLog.append. simpl.
      unfold RaftLog.LastIndex, RaftLog.LastLog. simpl.
      rewrite last_snoc. simpl. rewrite Hej.
      eexists. split; [reflexivity|]. simpl.
      split; [|split; [reflexivity|]].
      - unfold wf_log; simpl. split; [exact Hs|]. split.
        + intros E. now apply app_eq_nil in E as [_ E].
        + split.
          * intros i e0 Hi. apply lookup_app_Some in Hi as [Hi|[Hlen Hi]].
            -- apply lookup_take_Some in Hi as [Hi _]. now apply Hix.
            -- rewrite length_take in Hlen, Hi. fold n in Hlen, Hi.
               replace (m `min` n)%nat with m in * by lia.
               destruct (i - m)%nat eqn:Him; simpl in Hi; [|discriminate].
               injection Hi as <-. rewrite Hej. lia.
          * rewrite length_app, length_take. fold n. simpl. lia.
      - rewrite length_app, length_take. fold n. simpl. lia. }
    destruct (Z.leb_spec j (RaftLog.start l + Z.of_nat n - 1)) as [Hin|Hout];
      simpl.
    + (* the index is in the window *)
      destruct (RaftLog.entries l !! Z.to_nat (sub64 j (RaftLog.start l)))
        as [e0|] eqn:He0; simpl.
      2:{ apply lookup_ge_None in He0. rewrite Hsub in He0. fold n in He0. lia. }
      destruct (Entry.Term e0 =? Entry.Term e); simpl.
      * (* same term: skipped *)
        replace (RaftLog.start l + 1 <=? j) with true
          by (symmetry; apply Z.leb_le; lia).
        simpl.
        replace (j <=? RaftLog.start l + Z.of_nat n - 1) with true
          by (symmetry; apply Z.leb_le; lia).
        simpl.
        destruct (IH l (j + 1) Hwf Hes') as (l' & Hrun & Hwf' & Hs' & Hlen');
          [fold n; lia|fold n; lia|].
        exists l'. split; [exact Hrun|]. split; [exact Hwf'|].
        split; [exact Hs'|]. simpl length. lia.
      * (* another term: truncated, then appended *)
        destruct (Htrunc (Z.to_nat (j - RaftLog.start l)))
          as (l1 & Hrun1 & Hwf1 & Hs1 & Hlen1); [lia|lia|lia|].
        destruct (RaftLog.truncate l j) as [lt|]; simpl in Hrun1;
          [|discriminate].
        simpl. rewrite Hrun1. simpl.
        destruct (IH l1 (j + 1) Hwf1 Hes') as (l' & Hrun & Hwf' & Hs' & Hlen');
          [rewrite Hs1, Hlen1; lia|rewrite Hs1, Hlen1; lia|].
        exists l'. split; [exact Hrun|]. split; [exact Hwf'|].
        split; [congruence|]. simpl length. lia.
    + (* the index follows the window *)
      destruct (Htrunc n) as (l1 & Hrun1 & Hwf1 & Hs1 & Hlen1);
        [destruct (RaftLog.entries l); [contradiction|subst n; simpl; lia]
        |lia|lia|].
      destruct (RaftLog.truncate l j) as [lt|]; simpl in Hrun1;
        [|discriminate].
      simpl. rewrite Hrun1. simpl.
      destruct (IH l1 (j + 1) Hwf1 Hes') as (l' & Hrun & Hwf' & Hs' & Hlen');
        [rewrite Hs1, Hlen1; lia|rewrite Hs1, Hlen1; lia|].
      exists l'. split; [exact Hrun|]. split; [exact Hwf'|].
      split; [congruence|]. simpl length. lia.
Qed.

Section AppendWellFormed.
Context {absent : Raft.Absent}.

Lemma entryAt_Ok_range (l : RaftLog.t) (i : Z) (e : Entry.t) :
  wf_log l ->
  RaftLog.entryAt l i = Some (Ok e) ->
  RaftLog.start l <= i <=
    RaftLog.start l + Z.of_nat (length (RaftLog.entries l)) - 1.
Proof.
  intros Hwf. pose proof Hwf as (Hs & Hne & _ & Hb).
  assert (Hn : (1 <= length (RaftLog.entries l))%nat).
  { destruct (RaftLog.entries l); [contradiction|simpl; lia]. }
  unfold RaftLog.entryAt.
  destruct (Z.eqb_spec i (RaftLog.start l)) as [->|Hi]; [lia|].
  assert (HFirst : RaftLog.First l = RaftLog.start l + 1).
  { unfold RaftLog.First, add64. apply u64_small. lia. }
  rewrite HFirst.
  destruct (Z.ltb_spec i (RaftLog.start l + 1)); [discriminate|].
  rewrite (wf_LastIndex _ Hwf). simpl.
  destruct (Z.ltb_spec
              (RaftLog.start l + Z.of_nat (length (RaftLog.entries l)) - 1)
              i); [discriminate|].
  lia.
Qed.

(** On a well-formed log, an Append whose previous entry is present with
    the term of the message and whose entries follow it index by index is
    taken without panic; the log stays well formed, and the commit index
    is never below the one of the specification. *)
Lemma handleAppendEntries_wf (r : Raft.t) (m : Message.t) (prevLog : Entry.t) :
  wf_log (Raft.raftLog r) ->
  RaftLog.entryAt (Raft.raftLog r) (Message.Index m) = Some (Ok prevLog) ->
  Entry.Term prevLog = Message.LogTerm m ->
  (forall k e, Message.Entries m !! k = Some e ->
     Entry.Index e = Message.Index m + 1 + Z.of_nat k) ->
  RaftLog.start (Raft.raftLog r) +
    Z.of_nat (length (RaftLog.entries (Raft.raftLog r))) +
    Z.of_nat (length (Message.Entries m)) < 2 ^ 64 ->
  exists r',
    Raft.handleAppendEntries r m = Some r' /\
    wf_log (Raft.raftLog r') /\
    follower_commit r m <= RaftLog.committed (Raft.raftLog r').
Proof.
  intros Hwf Hat Hterm Hes Hb.
  pose proof (entryAt_Ok_range _ _ _ Hwf Hat) as Hrange.
  destruct (appendEntries_loop_total (Message.Entries m) (Raft.raftLog r)
              (Message.Index m + 1) Hwf Hes) as (l' & Hloop & Hwf' & Hs' & Hlen);
    [lia|exact Hb|].
  destruct (handleAppendEntries_accept r m prevLog l' Hat Hterm Hloop)
    as (r' & newIndex & Hrun & Hli & Hents & Hstart & Hc & Hmono & _).
  exists r'. split; [exact Hrun|]. split.
  - destruct Hwf' as (H1 & H2 & H3 & H4).
    unfold wf_log. rewrite Hents, Hstart. auto.
  - rewrite (wf_LastIndex _ Hwf') in Hli. injection Hli as <-.
    unfold follower_commit. rewrite Hc.
    destruct (Z.ltb_spec (RaftLog.committed (Raft.raftLog r))
                         (Message.Commit m)); lia.
Qed.

End AppendWellFormed.

(** ** Heartbeats *)

Lemma sendHeartbeat_inv (r r' : Raft.t) (to : Z) :
  Raft.sendHeartbeat r to = Some r' ->
  to <> Raft.id r /\
  Raft.State r = StateLeader /\
  exists pr,
    Raft.Prs r !! to = Some pr /\
    r' = Raft.with_msgs
           (Raft.msgs r ++
            [heartbeatTo r to (RaftLog.committed (Raft.raftLog r))]) r.
Proof.
  unfold Raft.sendHeartbeat, Raft.NewHeartbeatMsg.
  destruct (to =? Raft.id r) eqn:Hto; [discriminate|].
  apply Z.eqb_neq in Hto.
  destruct (Raft.Prs r !! to) as [pr|]; simpl; [|discriminate].
  destruct (Raft.State r); simpl; try discriminate.
  intros [= <-]. repeat split; try assumption. now exists pr.
Qed.

(** C9 (code defect): the commit index a heartbeat advertises.
    [sendHeartbeat] computes [min(match[to], committed)], but the heartbeat
    it sends is built by [NewHeartbeatMsg] of msg.go, which stamps the
    leader's commit index: every heartbeat of [sendHeartbeat] carries
    [committed].  The leader of scenario S5 (commit index 4, peers 2 and 3
    at [match = 0]) sends peer 2 a heartbeat with commit 4, not
    [min(0, 4) = 0], and its broadcast on a Heartbeat message sends peers 2
    and 3 commit 4; with peer 2 at [match = 2] the heartbeat still carries
    4, not 2.  The heartbeat that [NewAppendMsg] sends in place of a
    snapshot that is not available for the moment carries commit 5 for a
    peer at [match = 0]. *)
Theorem C9_heartbeat_not_clamped :
  (forall r to r',
     Raft.sendHeartbeat r to = Some r' ->
     Raft.msgs r' =
       Raft.msgs r ++
         [heartbeatTo r to (RaftLog.committed (Raft.raftLog r))]) /\
  leaderS5 = Some (must leaderS5) /\
  Raft.State (must leaderS5) = StateLeader /\
  RaftLog.committed (Raft.raftLog (must leaderS5)) = 4 /\
  Raft.Prs (must leaderS5) !! 2 = Some (Progress.mk 0 1) /\
  Raft.msgs <$> Raft.sendHeartbeat (must leaderS5) 2 =
    Some (Raft.msgs (must leaderS5) ++ [heartbeatTo (must leaderS5) 2 4]) /\
  (heartbeat_clamped (must leaderS5) (heartbeatTo (must leaderS5) 2 4) ->
   False) /\
  Raft.msgs <$>
    Raft.Step (absent := spec_absent) (must leaderS5)
      (Message.zero MsgHeartbeat) =
    Some (Raft.msgs (must leaderS5) ++
          [heartbeatTo (must leaderS5) 2 4;
           heartbeatTo (must leaderS5) 3 4]) /\
  Raft.Prs leaderAhead !! 2 = Some (Progress.mk 2 5) /\
  Raft.msgs <$> Raft.sendHeartbeat leaderAhead 2 =
    Some (Raft.msgs leaderAhead ++ [heartbeatTo leaderAhead 2 4]) /\
  leaderCompacted = Some (must leaderCompacted) /\
  Raft.Prs (must leaderCompacted) !! 2 = Some (Progress.mk 0 1) /\
  (Raft.msgs ∘ fst) <$> Raft.sendAppend (must leaderCompacted) 2 =
    Some (Raft.msgs (must leaderCompacted) ++
          [heartbeatTo (must leaderCompacted) 2 5]).
Proof.
  assert (Hpr : Raft.Prs (must leaderS5) !! 2 = Some (Progress.mk 0 1))
    by (vm_compute; reflexivity).
  assert (Hc : RaftLog.committed (Raft.raftLog (must leaderS5)) = 4)
    by (vm_compute; reflexivity).
  split.
  { intros r to r' Hsend.
    destruct (sendHeartbeat_inv _ _ _ Hsend) as (_ & _ & pr & _ & ->).
    reflexivity. }
  split; [vm_compute; reflexivity|].
  split; [vm_compute; reflexivity|].
  split; [exact Hc|]. split; [exact Hpr|].
  split; [vm_compute; reflexivity|].
  split.
  { intros (pr & Hpr' & Hcommit).
    unfold heartbeatTo in Hpr', Hcommit.
    cbn [Message.To Message.Commit] in Hpr', Hcommit.
    rewrite Hpr in Hpr'. injection Hpr' as <-.
    rewrite Hc in Hcommit. discriminate. }
  split; [vm_compute; reflexivity|].
  split; [vm_compute; reflexivity|].
  split; [vm_compute; reflexivity|].
  split; [vm_compute; reflexivity|].
  split; vm_compute; reflexivity.
Qed.

(** ** Construction *)

Lemma newLog_committed (st : Storage.t) (l : RaftLog.t) :
  RaftLog.newLog st = Some l ->
  RaftLog.committed l = HardState.Commit (Storage.InitialState st).1.1.
Proof.
  unfold RaftLog.newLog.
  destruct (Storage.InitialState st) as [[state conf] err0].
  destruct (mustBeNil err0); simpl; [|discriminate].
  destruct (Storage.FirstIndex st) as [first err1].
  destruct (mustBeNil err1); simpl; [|discriminate].
  destruct (Storage.LastIndex st) as [lst err2].
  destruct (mustBeNil err2); simpl; [|discriminate].
  destruct (Storage.Entries st _ _) as [ents err3].
  destruct (mustBeNil err3); simpl; [|discriminate].
  destruct (Storage.Term st _) as [term0 err4].
  destruct (mustBeNil err4); simpl; [|discriminate].
  now intros [= <-].
Qed.

(** Whatever the storage persisted, a new node is a follower of term 0
    without vote; of the hard state only the commit index is read. *)
Lemma newRaft_inv (c : Config.t) (draw : Z) (r : Raft.t) :
  Raft.newRaft c draw = Some r ->
  Config.validate c = None /\
  Raft.State r = StateFollower /\
  Raft.Term r = 0 /\
  Raft.Vote r = None_id /\
  Raft.Lead r = None_id /\
  exists st,
    Config.Storage c = Some st /\
    RaftLog.committed (Raft.raftLog r) =
      HardState.Commit (Storage.InitialState st).1.1.
Proof.
  unfold Raft.newRaft.
  destruct (Config.validate c); [discriminate|].
  destruct (Config.Storage c) as [st|]; [|discriminate].
  destruct (RaftLog.newLog st) as [l|] eqn:Hlog; simpl; [|discriminate].
  intros [= <-]. simpl. repeat split.
  exists st. split; [reflexivity|]. now apply newLog_committed.
Qed.

(** C4 (code defect): node 1 restarts on a storage whose hard state is
    term 5, vote 2, commit 3.  The configuration is valid and the
    construction runs to its end; the node is a follower and its commit
    index is the persisted 3, but its term and its vote are 0: they are
    not read from the storage. *)
Theorem C4_restart_forgets_term_and_vote :
  Config.validate restartConfig = None /\
  Storage.InitialState <$> Config.Storage restartConfig =
    Some (HardState.mk 5 2 3, ConfState.mk [], None) /\
  restarted = Some (must restarted) /\
  Raft.State (must restarted) = StateFollower /\
  RaftLog.committed (Raft.raftLog (must restarted)) = 3 /\
  Raft.Term (must restarted) = 0 /\
  Raft.Vote (must restarted) = 0.
Proof.
  assert (Hrun : restarted = Some (must restarted))
    by (vm_compute; reflexivity).
  destruct (newRaft_inv _ _ _ Hrun)
    as (Hv & Hs & Ht & Hvote & _ & st & Hst & Hc).
  split; [exact Hv|]. split; [reflexivity|]. split; [exact Hrun|].
  split; [exact Hs|]. split; [|split; [exact Ht|exact Hvote]].
  rewrite Hc. injection Hst as <-. reflexivity.
Qed.

(** ** Timers *)

Section Timers.
Context {absent : Raft.Absent}.

(** On the election timeout of a node that is not leader, [tick] is
    [becomeCandidate] and nothing more: the send buffer is as before and
    no vote is recorded. *)
Lemma tick_election (r : Raft.t) :
  Raft.State r <> StateLeader ->
  Raft.electionTimeout r <= int64 (Raft.electionElapsed r + 1) ->
  exists r',
    Raft.tick r = Some r' /\
    Raft.State r' = StateCandidate /\
    Raft.Term r' = add64 (Raft.Term r) 1 /\
    Raft.Vote r' = Raft.id r /\
    Raft.votes r' = ∅ /\
    Raft.msgs r' = Raft.msgs r /\
    Raft.electionElapsed r' = int64 (Raft.electionElapsed r + 1).
Proof.
  intros Hs Hto. unfold Raft.tick. simpl.
  apply Z.leb_le in Hto. rewrite Hto.
  destruct (Raft.State r); try contradiction; eexists; split;
    try reflexivity; simpl; repeat split.
Qed.

(** A beat that reaches a follower or a candidate makes it a follower at
    the term of the message, led by the addressee of the message, without
    vote. *)
Lemma call_step_beat (r : Raft.t) (m : Message.t) :
  Message.MsgType m = MsgBeat ->
  (Raft.step r = StepFollower /\ Raft.State r = StateFollower) \/
  (Raft.step r = StepCandidate /\ Raft.State r = StateCandidate) ->
  Raft.call_step r m =
    Some (Raft.becomeFollower r (Message.Term m) (Message.To m)).
Proof.
  intros Hty [[Hstep Hs]|[Hstep Hs]]; unfold Raft.call_step; rewrite Hstep.
  - unfold Raft.stepFollower. now rewrite Hs, Hty.
  - unfold Raft.stepCandidate. now rewrite Hs, Hty.
Qed.

(** A heartbeat of the node's own term leaves a follower as it is. *)
Lemma Step_heartbeat_same_term (r : Raft.t) (m : Message.t) :
  Message.MsgType m = MsgHeartbeat ->
  Message.Term m = Raft.Term r ->
  Raft.step r = StepFollower ->
  Raft.State r = StateFollower ->
  Raft.Step r m = Some r.
Proof.
  intros Hty Hterm Hstep Hs. unfold Raft.Step. rewrite Hty, Hterm.
  rewrite !Z.ltb_irrefl.
  assert (Hcall : Raft.call_step r m = Some r).
  { unfold Raft.call_step, Raft.stepFollower. now rewrite Hstep, Hs, Hty. }
  now destruct (Raft.Term r =? 0).
Qed.

End Timers.

(** C8 (code defect): node 1, a follower of term 0 with election timeout
    10, has seen 9 ticks.  The next tick makes it a candidate of term 1
    that voted for itself, but records no vote and puts no RequestVote in
    the send buffer, and the election timer is not reset; the Hup path on
    the same node sends a RequestVote with the last index 3 and the last
    term 1 to peers 2 and 3. *)
Theorem C8_tick_election_sends_nothing :
  Raft.State waiting = StateFollower /\
  Raft.electionElapsed waiting = 9 /\
  Raft.electionTimeout waiting = 10 /\
  Raft.peers waiting = [1; 2; 3] /\
  Raft.tick (absent := spec_absent) waiting = Some timedOut /\
  Raft.State timedOut = StateCandidate /\
  Raft.Term timedOut = Raft.Term waiting + 1 /\
  Raft.Vote timedOut = Raft.id timedOut /\
  Raft.votes timedOut = ∅ /\
  Raft.msgs timedOut = [] /\
  Raft.electionElapsed timedOut = 10 /\
  Raft.msgs <$> Raft.Step (absent := spec_absent) waiting (Message.zero MsgHup)
    = Some [requestVote1 2; requestVote1 3].
Proof.
  repeat (split; [vm_compute; reflexivity|]).
  vm_compute; reflexivity.
Qed.

(** C2 (code defect): a follower of term 1 that voted for peer 2 takes a
    beat of term 1 and is left at term 1 without vote; a local beat leaves
    it without vote at term 0.  The candidate that voted for itself in
    term 1 loses its vote to the same beat.  With the vote handler of the
    specification the follower then grants peer 3 a second vote in
    term 1. *)
Theorem C2_vote_cleared_within_term :
  Raft.State voted = StateFollower /\
  Raft.Term voted = 1 /\
  Raft.Vote voted = 2 /\
  (exists r',
     Raft.Step (absent := spec_absent) voted beat1 = Some r' /\
     Raft.Term r' = 1 /\ Raft.Vote r' = None_id) /\
  (exists r',
     Raft.Step (absent := spec_absent) voted localBeat = Some r' /\
     Raft.Term r' = 0 /\ Raft.Vote r' = None_id) /\
  (Raft.State timedOut = StateCandidate /\
   Raft.Term timedOut = 1 /\
   Raft.Vote timedOut = 1 /\
   exists r',
     Raft.Step (absent := spec_absent) timedOut beat1 = Some r' /\
     Raft.Term r' = 1 /\ Raft.Vote r' = None_id) /\
  (exists r' r'',
     Raft.Step (absent := spec_absent) voted beat1 = Some r' /\
     Raft.Step (absent := spec_absent) r'
       (Message.with_From 3 (requestVote1 1)) = Some r'' /\
     Raft.Term r'' = 1 /\ Raft.Vote r'' = 3).
Proof.
  split; [reflexivity|]. split; [reflexivity|]. split; [reflexivity|].
  split.
  { eexists. split; [apply call_step_beat; [reflexivity|left; split; reflexivity]|].
    split; reflexivity. }
  split.
  { eexists. split; [apply call_step_beat; [reflexivity|left; split; reflexivity]|].
    split; reflexivity. }
  split.
  { split; [vm_compute; reflexivity|]. split; [vm_compute; reflexivity|].
    split; [vm_compute; reflexivity|].
    exists (Raft.becomeFollower timedOut 1 1).
    split; [vm_compute; reflexivity|]. split; reflexivity. }
  exists (Raft.becomeFollower voted 1 1).
  exists (must (Raft.Step (absent := spec_absent)
                  (Raft.becomeFollower voted 1 1)
                  (Message.with_From 3 (requestVote1 1)))).
  split; [vm_compute; reflexivity|]. split; [vm_compute; reflexivity|].
  split; vm_compute; reflexivity.
Qed.

(** C6 (code defect): node 1 is a follower of term 1 that knows no leader
    and has seen three ticks.  The heartbeat of peer 2 in term 1 leaves it
    as it is: the leader is not recorded and the election timer is not
    reset.  Only a beat reaches [handleHeartbeat], which resets the timer
    and records as leader the addressee of the message, node 1 itself, not
    its sender, peer 2. *)
Theorem C6_heartbeat_lead :
  Raft.State follower1 = StateFollower /\
  Raft.Term follower1 = 1 /\
  Raft.Lead follower1 = None_id /\
  Raft.electionElapsed follower1 = 3 /\
  Message.From heartbeat1 = 2 /\
  Raft.Step (absent := spec_absent) follower1 heartbeat1 = Some follower1 /\
  exists r',
    Raft.Step (absent := spec_absent) follower1 beat1 = Some r' /\
    Raft.electionElapsed r' = 0 /\
    Raft.Lead r' = Raft.id follower1 /\
    Raft.Lead r' <> Message.From beat1.
Proof.
  split; [vm_compute; reflexivity|]. split; [vm_compute; reflexivity|].
  split; [vm_compute; reflexivity|]. split; [vm_compute; reflexivity|].
  split; [reflexivity|].
  split.
  { apply Step_heartbeat_same_term; vm_compute; reflexivity. }
  exists (Raft.becomeFollower follower1 1 1).
  split; [vm_compute; reflexivity|]. split; [reflexivity|].
  split; [vm_compute; reflexivity|]. simpl. discriminate.
Qed.

(** * Further properties of the log *)

Lemma wf_length (l : RaftLog.t) :
  wf_log l -> (1 <= length (RaftLog.entries l))%nat.
Proof.
  intros (_ & Hne & _). destruct (RaftLog.entries l); [contradiction|].
  simpl. lia.
Qed.

Lemma wf_First (l : RaftLog.t) :
  wf_log l -> RaftLog.First l = RaftLog.start l + 1.
Proof.
  intros Hwf. pose proof (wf_length _ Hwf).
  destruct Hwf as (Hs & _ & _ & Hb). unfold RaftLog.First, add64.
  apply u64_small. lia.
Qed.

Lemma wf_sub64 (l : RaftLog.t) (i : Z) :
  wf_log l -> RaftLog.start l <= i < 2 ^ 64 ->
  sub64 i (RaftLog.start l) = i - RaftLog.start l.
Proof.
  intros (Hs & _) Hi. unfold sub64. apply u64_small. lia.
Qed.

(** The entry of index [i] sits at position [i - start]. *)
Lemma wf_lookup (l : RaftLog.t) (i : Z) :
  wf_log l ->
  RaftLog.start l <= i <=
    RaftLog.start l + Z.of_nat (length (RaftLog.entries l)) - 1 ->
  exists e,
    RaftLog.entries l !! Z.to_nat (i - RaftLog.start l) = Some e /\
    Entry.Index e = i.
Proof.
  intros (Hs & Hne & Hix & Hb) Hi.
  destruct (RaftLog.entries l !! Z.to_nat (i - RaftLog.start l))
    as [e|] eqn:He.
  - exists e. split; [reflexivity|]. rewrite (Hix _ _ He). lia.
  - apply lookup_ge_None in He. lia.
Qed.

(** What [entryAt] answers on a well-formed log. *)
Lemma entryAt_wf (l : RaftLog.t) (i : Z) :
  wf_log l -> 0 <= i < 2 ^ 64 ->
  (i < RaftLog.start l /\ RaftLog.entryAt l i = Some (Err ErrCompacted)) \/
  (RaftLog.start l + Z.of_nat (length (RaftLog.entries l)) - 1 < i /\
   RaftLog.entryAt l i = Some (Err ErrUnavailable)) \/
  (RaftLog.start l <= i <=
     RaftLog.start l + Z.of_nat (length (RaftLog.entries l)) - 1 /\
   exists e,
     RaftLog.entryAt l i = Some (Ok e) /\
     RaftLog.entries l !! Z.to_nat (i - RaftLog.start l) = Some e /\
     Entry.Index e = i).
Proof.
  intros Hwf Hi. pose proof (wf_length _ Hwf) as Hn.
  pose proof Hwf as (Hs & _ & _ & Hb).
  unfold RaftLog.entryAt. rewrite (wf_First _ Hwf), (wf_LastIndex _ Hwf).
  destruct (Z.eqb_spec i (RaftLog.start l)) as [->|Hne].
  - right. right. split; [lia|].
    destruct (wf_lookup l (RaftLog.start l) Hwf) as (e & He & Hie); [lia|].
    exists e. rewrite Z.sub_diag in *.
    change (Z.to_nat 0) with 0%nat in *. rewrite He. auto.
  - destruct (Z.ltb_spec i (RaftLog.start l + 1)).
    + left. split; [lia|reflexivity].
    + simpl.
      destruct (Z.ltb_spec
                  (RaftLog.start l +
                   Z.of_nat (length (RaftLog.entries l)) - 1) i).
      * right. left. split; [lia|reflexivity].
      * right. right. split; [lia|].
        destruct (wf_lookup l i Hwf) as (e & He & Hie); [lia|].
        exists e. rewrite (wf_sub64 _ _ Hwf) by lia. rewrite He. auto.
Qed.

(** X1: on a well-formed log window [entryAt] never panics.  It answers
    [ErrCompacted] below [start], [ErrUnavailable] above the last index,
    and between the two the entry stored at position [i - start], whose
    index is [i] (the sentinel for [i = start]). *)
Theorem X1_entryAt_wf (l : RaftLog.t) (i : Z) :
  wf_log l -> 0 <= i < 2 ^ 64 ->
  match RaftLog.entryAt l i with
  | Some (Ok e) =>
      RaftLog.start l <= i <=
        RaftLog.start l + Z.of_nat (length (RaftLog.entries l)) - 1 /\
      RaftLog.entries l !! Z.to_nat (i - RaftLog.start l) = Some e /\
      Entry.Index e = i
  | Some (Err err) =>
      (err = ErrCompacted /\ i < RaftLog.start l) \/
      (err = ErrUnavailable /\
       RaftLog.start l + Z.of_nat (length (RaftLog.entries l)) - 1 < i)
  | None => False
  end.
Proof.
  intros Hwf Hi.
  destruct (entryAt_wf l i Hwf Hi)
    as [[Hlt ->]|[[Hgt ->]|[Hin (e & -> & He & Hie)]]]; auto.
Qed.

Lemma entryAt_in (l : RaftLog.t) (i : Z) :
  wf_log l ->
  RaftLog.start l <= i <=
    RaftLog.start l + Z.of_nat (length (RaftLog.entries l)) - 1 ->
  RaftLog.entryAt l i =
    Ok <$> RaftLog.entries l !! Z.to_nat (i - RaftLog.start l).
Proof.
  intros Hwf Hi. pose proof Hwf as (Hs & _ & _ & Hb).
  destruct (entryAt_wf l i Hwf) as [[? _]|[[? _]|[_ (e & -> & -> & _)]]];
    [lia|lia|lia|reflexivity].
Qed.

Lemma entryAt_above (l : RaftLog.t) (i : Z) :
  wf_log l ->
  RaftLog.start l + Z.of_nat (length (RaftLog.entries l)) - 1 < i < 2 ^ 64 ->
  RaftLog.entryAt l i = Some (Err ErrUnavailable).
Proof.
  intros Hwf Hi. pose proof Hwf as (Hs & _ & _ & Hb).
  pose proof (wf_length _ Hwf).
  destruct (entryAt_wf l i Hwf) as [[? _]|[[_ ->]|[? _]]];
    [lia|lia|reflexivity|lia].
Qed.

(** A window is well formed as soon as it passes this check. *)
Lemma wf_log_intro (l : RaftLog.t) :
  0 <= RaftLog.start l ->
  (1 <= length (RaftLog.entries l))%nat ->
  (forall i e, RaftLog.entries l !! i = Some e ->
     Entry.Index e = RaftLog.start l + Z.of_nat i) ->
  RaftLog.start l + Z.of_nat (length (RaftLog.entries l)) < 2 ^ 64 ->
  wf_log l.
Proof.
  intros Hs Hn Hix Hb. split; [exact Hs|]. split; [|split; assumption].
  intros E. rewrite E in Hn. simpl in Hn. lia.
Qed.

Lemma indexed_from_spec (es : list Entry.t) :
  forall s, indexed_from s es = true ->
    forall i e, es !! i = Some e -> Entry.Index e = s + Z.of_nat i.
Proof.
  induction es as [|e0 es IH]; intros s Hck i e Hi; [discriminate|].
  simpl in Hck. apply andb_true_iff in Hck as [H0 Hrest].
  destruct i as [|i]; simpl in Hi.
  - injection Hi as <-. apply Z.eqb_eq in H0. lia.
  - rewrite (IH _ Hrest i e Hi). lia.
Qed.

Lemma wf_logb_sound (l : RaftLog.t) : wf_logb l = true -> wf_log l.
Proof.
  unfold wf_logb. intros Hck.
  apply andb_true_iff in Hck as [Hck Hb].
  apply andb_true_iff in Hck as [Hck Hix].
  apply andb_true_iff in Hck as [Hs Hn].
  apply wf_log_intro.
  - now apply Z.leb_le.
  - apply Nat.leb_le in Hn. exact Hn.
  - now apply indexed_from_spec.
  - now apply Z.ltb_lt.
Qed.

(** X1, an instance: the node restarted on three entries finds entry 2. *)
Lemma X1_entryAt_wf_witness :
  wf_log (Raft.raftLog (must restarted)) /\
  0 <= 2 < 2 ^ 64 /\
  RaftLog.entryAt (Raft.raftLog (must restarted)) 2 =
    Some (Ok (Entry.mk 1 2 [])).
Proof.
  assert (Hwf : wf_log (Raft.raftLog (must restarted)))
    by (apply wf_logb_sound; vm_compute; reflexivity).
  assert (Hi : 0 <= 2 < 2 ^ 64) by lia.
  split; [exact Hwf|]. split; [exact Hi|].
  pose proof (X1_entryAt_wf _ 2 Hwf Hi) as Hat.
  destruct (RaftLog.entryAt (Raft.raftLog (must restarted)) 2)
    as [[e|err]|] eqn:E; vm_compute in E; congruence.
Defined.

(** Appending entries that continue a well-formed log. *)
Lemma append_wf (l : RaftLog.t) (es : list Entry.t) :
  wf_log l ->
  (forall k e, es !! k = Some e ->
     Entry.Index e =
       RaftLog.start l + Z.of_nat (length (RaftLog.entries l)) + Z.of_nat k) ->
  RaftLog.start l + Z.of_nat (length (RaftLog.entries l)) +
    Z.of_nat (length es) < 2 ^ 64 ->
  exists l',
    RaftLog.append l es =
      Some (l', RaftLog.start l + Z.of_nat (length (RaftLog.entries l)) +
                Z.of_nat (length es) - 1) /\
    wf_log l' /\
    RaftLog.entries l' = RaftLog.entries l ++ es /\
    RaftLog.start l' = RaftLog.start l /\
    RaftLog.committed l' = RaftLog.committed l /\
    RaftLog.applied l' = RaftLog.applied l /\
    RaftLog.stabled l' = RaftLog.stabled l /\
    (forall e, e ∈ es -> RaftLog.entryAt l' (Entry.Index e) = Some (Ok e)) /\
    (forall i e, RaftLog.entryAt l i = Some (Ok e) ->
       RaftLog.entryAt l' i = Some (Ok e)).
Proof.
  intros Hwf Hes Hb. pose proof Hwf as (Hs & Hne & Hix & Hb0).
  pose proof (wf_length _ Hwf) as Hn.
  set (l' := RaftLog.with_entries (RaftLog.entries l ++ es) l).
  assert (Hwf' : wf_log l').
  { apply wf_log_intro; unfold l'; simpl; try assumption.
    - rewrite length_app. lia.
    - intros i e Hi. apply lookup_app_Some in Hi as [Hi|[Hlen Hi]].
      + now apply Hix.
      + rewrite (Hes _ _ Hi). lia.
    - rewrite length_app. lia. }
  exists l'. unfold RaftLog.append. fold l'.
  rewrite (wf_LastIndex _ Hwf'). simpl. rewrite length_app.
  split; [do 2 f_equal; lia|]. split; [exact Hwf'|].
  do 5 (split; [reflexivity|]). split.
  - intros e He. apply list_elem_of_lookup in He as [k Hk].
    pose proof (lookup_lt_Some _ _ _ Hk) as Hklen.
    rewrite (entryAt_in _ _ Hwf').
    + simpl. rewrite (Hes _ _ Hk).
      rewrite lookup_app_r by lia.
      replace (Z.to_nat _ - length (RaftLog.entries l))%nat with k by lia.
      now rewrite Hk.
    + simpl. rewrite length_app, (Hes _ _ Hk). lia.
  - intros i e Hat.
    pose proof (entryAt_Ok_range _ _ _ Hwf Hat) as Hi.
    rewrite (entryAt_in _ _ Hwf) in Hat by lia.
    rewrite (entryAt_in _ _ Hwf') by (simpl; rewrite length_app; lia).
    simpl. rewrite lookup_app_l by lia. exact Hat.
Qed.

(** X2: on a well-formed log, appending entries whose indices continue the
    log does not panic and returns the new last index; the window stays
    well formed, the cursors are untouched, every appended entry is found
    by [entryAt] at its index and every older entry is still found. *)
Theorem X2_append_wf (l : RaftLog.t) (es : list Entry.t) :
  wf_log l ->
  (forall k e, es !! k = Some e ->
     Entry.Index e =
       RaftLog.start l + Z.of_nat (length (RaftLog.entries l)) + Z.of_nat k) ->
  RaftLog.start l + Z.of_nat (length (RaftLog.entries l)) +
    Z.of_nat (length es) < 2 ^ 64 ->
  exists l',
    RaftLog.append l es =
      Some (l', RaftLog.start l + Z.of_nat (length (RaftLog.entries l)) +
                Z.of_nat (length es) - 1) /\
    wf_log l' /\
    RaftLog.entries l' = RaftLog.entries l ++ es /\
    RaftLog.start l' = RaftLog.start l /\
    RaftLog.committed l' = RaftLog.committed l /\
    RaftLog.applied l' = RaftLog.applied l /\
    RaftLog.stabled l' = RaftLog.stabled l /\
    (forall e, e ∈ es -> RaftLog.entryAt l' (Entry.Index e) = Some (Ok e)) /\
    (forall i e, RaftLog.entryAt l i = Some (Ok e) ->
       RaftLog.entryAt l' i = Some (Ok e)).
Proof. exact (append_wf l es). Qed.

(** X2, an instance: entry 4 is appended to the log of the restarted
    node. *)
Lemma X2_append_wf_witness :
  wf_log (Raft.raftLog (must restarted)) /\
  exists l',
    RaftLog.append (Raft.raftLog (must restarted)) [Entry.mk 7 4 []] =
      Some (l', 4) /\
    RaftLog.entryAt l' 4 = Some (Ok (Entry.mk 7 4 [])).
Proof.
  assert (Hwf : wf_log (Raft.raftLog (must restarted)))
    by (apply wf_logb_sound; vm_compute; reflexivity).
  split; [exact Hwf|].
  destruct (X2_append_wf _ [Entry.mk 7 4 []] Hwf)
    as (l' & Happ & _ & _ & _ & _ & _ & _ & Hnew & _).
  - intros [|k] e Hk; [|discriminate]. injection Hk as <-.
    vm_compute. reflexivity.
  - vm_compute. reflexivity.
  - exists l'. split; [exact Happ|]. apply (Hnew (Entry.mk 7 4 [])).
    set_solver.
Defined.

(** Truncating a well-formed log. *)
Lemma truncate_wf (l : RaftLog.t) (index : Z) :
  (wf_log l ->
   RaftLog.start l < index <=
     RaftLog.start l + Z.of_nat (length (RaftLog.entries l)) ->
   exists l',
     RaftLog.truncate l index = Some l' /\
     wf_log l' /\
     RaftLog.entries l' =
       take (Z.to_nat (index - RaftLog.start l)) (RaftLog.entries l) /\
     RaftLog.LastIndex l' = Some (index - 1) /\
     RaftLog.stabled l' = Z.min (RaftLog.stabled l) (index - 1) /\
     RaftLog.committed l' = RaftLog.committed l /\
     RaftLog.applied l' = RaftLog.applied l /\
     RaftLog.start l' = RaftLog.start l /\
     (forall i e, i < index -> RaftLog.entryAt l i = Some (Ok e) ->
        RaftLog.entryAt l' i = Some (Ok e)) /\
     (forall i, index <= i < 2 ^ 64 ->
        RaftLog.entryAt l' i = Some (Err ErrUnavailable))) /\
  RaftLog.truncate l (RaftLog.start l) = None.
Proof.
  split.
  - intros Hwf Hi. pose proof Hwf as (Hs & Hne & Hix & Hb).
    set (n := Z.to_nat (index - RaftLog.start l)).
    set (l0 := RaftLog.with_entries (take n (RaftLog.entries l)) l).
    assert (Hlen0 : length (RaftLog.entries l0) = n).
    { unfold l0; simpl. rewrite length_take. lia. }
    assert (Hwf0 : wf_log l0).
    { apply wf_log_intro; try (rewrite Hlen0); unfold l0; simpl;
        try assumption; try lia.
      intros i e Hk. apply lookup_take_Some in Hk as [Hk _]. now apply Hix. }
    assert (Hli0 : RaftLog.LastIndex l0 = Some (index - 1)).
    { rewrite (wf_LastIndex _ Hwf0), Hlen0. unfold l0; simpl.
      f_equal. lia. }
    set (l' := RaftLog.with_stabled (Z.min (RaftLog.stabled l) (index - 1)) l0).
    assert (Hwf' : wf_log l') by exact Hwf0.
    exists l'. split.
    { unfold RaftLog.truncate. rewrite (wf_sub64 _ _ Hwf) by lia.
      replace (index - RaftLog.start l <=?
               Z.of_nat (length (RaftLog.entries l))) with true
        by (symmetry; apply Z.leb_le; lia).
      fold n. fold l0. rewrite Hli0. reflexivity. }
    split; [exact Hwf'|]. split; [reflexivity|]. split; [exact Hli0|].
    do 4 (split; [reflexivity|]). split.
    + intros i e Hlt Hat.
      pose proof (entryAt_Ok_range _ _ _ Hwf Hat) as Hr.
      rewrite (entryAt_in _ _ Hwf) in Hat by lia.
      rewrite (entryAt_in _ _ Hwf').
      * unfold l', l0; simpl. rewrite lookup_take_lt by lia. exact Hat.
      * change (RaftLog.entries l') with (RaftLog.entries l0).
        rewrite Hlen0. unfold l', l0; simpl. lia.
    + intros i Hge. apply (entryAt_above _ _ Hwf').
      change (RaftLog.entries l') with (RaftLog.entries l0).
      rewrite Hlen0. unfold l', l0; simpl. lia.
  - unfold RaftLog.truncate, sub64, u64. rewrite Z.sub_diag. simpl.
    unfold RaftLog.LastIndex, RaftLog.LastLog. simpl.
    destruct (_ <=? _); reflexivity.
Qed.

(** X3: on a well-formed log, truncating at an index above the sentinel
    and at most one past the last index does not panic: the entries below
    the index remain (and are still found), the last index becomes
    [index - 1], indices from [index] on are unavailable, and [stabled] is
    lowered to the new last index if it was above.  The commit index and
    the applied index are never changed, also when they lie at or above
    [index].  Truncating at the sentinel itself panics on every log. *)
Theorem X3_truncate_wf (l : RaftLog.t) (index : Z) :
  (wf_log l ->
   RaftLog.start l < index <=
     RaftLog.start l + Z.of_nat (length (RaftLog.entries l)) ->
   exists l',
     RaftLog.truncate l index = Some l' /\
     wf_log l' /\
     RaftLog.entries l' =
       take (Z.to_nat (index - RaftLog.start l)) (RaftLog.entries l) /\
     RaftLog.LastIndex l' = Some (index - 1) /\
     RaftLog.stabled l' = Z.min (RaftLog.stabled l) (index - 1) /\
     RaftLog.committed l' = RaftLog.committed l /\
     RaftLog.applied l' = RaftLog.applied l /\
     RaftLog.start l' = RaftLog.start l /\
     (forall i e, i < index -> RaftLog.entryAt l i = Some (Ok e) ->
        RaftLog.entryAt l' i = Some (Ok e)) /\
     (forall i, index <= i < 2 ^ 64 ->
        RaftLog.entryAt l' i = Some (Err ErrUnavailable))) /\
  RaftLog.truncate l (RaftLog.start l) = None.
Proof. exact (truncate_wf l index). Qed.

(** X3, an instance: the log of the restarted node (entries 1 to 3, all
    persisted) is truncated at index 2. *)
Lemma X3_truncate_wf_witness :
  wf_log (Raft.raftLog (must restarted)) /\
  exists l',
    RaftLog.truncate (Raft.raftLog (must restarted)) 2 = Some l' /\
    RaftLog.LastIndex l' = Some 1 /\
    RaftLog.stabled l' = 1 /\
    RaftLog.committed l' = 3.
Proof.
  assert (Hwf : wf_log (Raft.raftLog (must restarted)))
    by (apply wf_logb_sound; vm_compute; reflexivity).
  split; [exact Hwf|].
  destruct (proj1 (X3_truncate_wf (Raft.raftLog (must restarted)) 2) Hwf)
    as (l' & Htr & _ & _ & Hli & Hst & Hc & _).
  - vm_compute. split; [reflexivity|discriminate].
  - exists l'. split; [exact Htr|]. split; [exact Hli|].
    split; [rewrite Hst|rewrite Hc]; vm_compute; reflexivity.
Defined.

(** What [IsConflict] answers on a well-formed log. *)
Lemma IsConflict_wf (l : RaftLog.t) (i t : Z) :
  wf_log l -> 0 <= i < 2 ^ 64 ->
  exists b,
    RaftLog.IsConflict l i t = Some b /\
    (b = false <->
     exists e,
       RaftLog.start l < i /\
       RaftLog.entryAt l i = Some (Ok e) /\ Entry.Term e = t).
Proof.
  intros Hwf Hi. pose proof Hwf as (Hs & _ & _ & Hb).
  pose proof (wf_length _ Hwf) as Hn.
  unfold RaftLog.IsConflict, RaftLog.Contain.
  rewrite (wf_First _ Hwf), (wf_LastIndex _ Hwf).
  destruct (Z.leb_spec (RaftLog.start l + 1) i) as [Hlo|Hlo]; simpl.
  - destruct (Z.leb_spec i
       (RaftLog.start l + Z.of_nat (length (RaftLog.entries l)) - 1))
      as [Hhi|Hhi]; simpl.
    + rewrite (wf_sub64 _ _ Hwf) by lia.
      destruct (wf_lookup l i Hwf) as (e & He & Hie); [lia|].
      rewrite He. simpl. eexists. split; [reflexivity|].
      rewrite negb_false_iff, Z.eqb_eq. split.
      * intros Ht. exists e. rewrite (entryAt_in _ _ Hwf), He by lia. auto with lia.
      * intros (e' & _ & Hat & Ht).
        rewrite (entryAt_in _ _ Hwf), He in Hat by lia.
        simpl in Hat. congruence.
    + exists true. split; [reflexivity|]. split; [discriminate|].
      intros (e & _ & Hat & _).
      rewrite (entryAt_above _ _ Hwf) in Hat by lia. discriminate.
  - exists true. split; [reflexivity|]. split; [discriminate|].
    intros (e & Hlt & _). lia.
Qed.

(** X5: on a well-formed log [IsConflict] never panics, and it answers
    false exactly when the index lies above the sentinel and at most at the
    last index and the entry there has the given term; the sentinel's own
    index always conflicts. *)
Theorem X5_IsConflict_wf (l : RaftLog.t) (i t : Z) :
  wf_log l -> 0 <= i < 2 ^ 64 ->
  exists b,
    RaftLog.IsConflict l i t = Some b /\
    (b = false <->
     exists e,
       RaftLog.start l < i /\
       RaftLog.entryAt l i = Some (Ok e) /\ Entry.Term e = t).
Proof. exact (IsConflict_wf l i t). Qed.

(** X5, an instance: entry 2 of the restarted node has term 1, so term 1
    does not conflict there. *)
Lemma X5_IsConflict_wf_witness :
  wf_log (Raft.raftLog (must restarted)) /\
  0 <= 2 < 2 ^ 64 /\
  RaftLog.IsConflict (Raft.raftLog (must restarted)) 2 1 = Some false.
Proof.
  assert (Hwf : wf_log (Raft.raftLog (must restarted)))
    by (apply wf_logb_sound; vm_compute; reflexivity).
  assert (Hi : 0 <= 2 < 2 ^ 64) by lia.
  split; [exact Hwf|]. split; [exact Hi|].
  destruct (X5_IsConflict_wf _ 2 1 Hwf Hi) as (b & Hb & _).
  rewrite Hb. vm_compute in Hb. congruence.
Defined.

Lemma slice_wf_eq (l : RaftLog.t) (lo hi : Z) :
  wf_log l -> 0 <= lo <= hi -> hi < 2 ^ 64 -> RaftLog.start l < hi ->
  RaftLog.slice l lo hi =
    let last := RaftLog.start l + Z.of_nat (length (RaftLog.entries l)) - 1 in
    let lo1 := Z.max lo (RaftLog.start l + 1) in
    let hi2 := Z.min hi last in
    if lo1 <=? hi2 + 1 then
      Some (drop (Z.to_nat (lo1 - RaftLog.start l))
                 (take (Z.to_nat (hi2 - RaftLog.start l + 1))
                       (RaftLog.entries l)))
    else None.
Proof.
  intros Hwf Hlo Hhi Hs. pose proof Hwf as (Hs0 & _ & _ & Hb).
  pose proof (wf_length _ Hwf) as Hn.
  unfold RaftLog.slice. rewrite (wf_First _ Hwf), (wf_LastIndex _ Hwf).
  replace (hi <? lo) with false by (symmetry; apply Z.ltb_ge; lia).
  replace (hi <? RaftLog.start l + 1) with false
    by (symmetry; apply Z.ltb_ge; lia).
  simpl.
  replace (Z.max hi (RaftLog.start l + 1)) with hi by lia.
  set (last := RaftLog.start l + Z.of_nat (length (RaftLog.entries l)) - 1).
  set (lo1 := Z.max lo (RaftLog.start l + 1)).
  set (hi2 := Z.min hi last).
  rewrite (wf_sub64 l lo1 Hwf) by (unfold lo1; lia).
  rewrite (wf_sub64 l hi2 Hwf) by (unfold hi2, last; lia).
  assert (Hadd : add64 (hi2 - RaftLog.start l) 1 = hi2 - RaftLog.start l + 1).
  { unfold add64. apply u64_small. unfold hi2, last. lia. }
  rewrite Hadd.
  replace (hi2 - RaftLog.start l + 1 <=?
           Z.of_nat (length (RaftLog.entries l))) with true
    by (symmetry; apply Z.leb_le; unfold hi2, last; lia).
  rewrite andb_true_r.
  destruct (Z.leb_spec (lo1 - RaftLog.start l) (hi2 - RaftLog.start l + 1));
    destruct (Z.leb_spec lo1 (hi2 + 1)); try lia; reflexivity.
Qed.

(** X4: [slice lo hi] on a well-formed log.  It is empty when [hi < lo] or
    when [hi] is not above the sentinel.  Otherwise both ends are clamped,
    [lo] up to the first index and [hi] down to the last index, and the
    result is the run of entries from the clamped [lo] to the clamped
    [hi], each found by [entryAt] at its index; but when [lo] lies more
    than one past the last index the clamped bounds cross and [slice]
    panics. *)
Theorem X4_slice_wf (l : RaftLog.t) (lo hi : Z) :
  wf_log l -> 0 <= lo -> hi < 2 ^ 64 ->
  let last := RaftLog.start l + Z.of_nat (length (RaftLog.entries l)) - 1 in
  let lo1 := Z.max lo (RaftLog.start l + 1) in
  (hi < lo \/ hi <= RaftLog.start l -> RaftLog.slice l lo hi = Some []) /\
  (lo <= hi -> RaftLog.start l < hi -> lo1 <= last + 1 ->
   exists es,
     RaftLog.slice l lo hi = Some es /\
     Z.of_nat (length es) = Z.min hi last - lo1 + 1 /\
     forall k e, es !! k = Some e ->
       Entry.Index e = lo1 + Z.of_nat k /\
       RaftLog.entryAt l (Entry.Index e) = Some (Ok e)) /\
  (lo <= hi -> last + 1 < lo -> RaftLog.slice l lo hi = None).
Proof.
  intros Hwf Hlo Hhi last lo1. pose proof Hwf as (Hs0 & _ & Hix & Hb).
  pose proof (wf_length _ Hwf) as Hn.
  split; [|split].
  - intros Hempty. unfold RaftLog.slice. rewrite (wf_First _ Hwf).
    destruct (Z.ltb_spec hi lo); [reflexivity|].
    destruct (Z.ltb_spec hi (RaftLog.start l + 1)); [reflexivity|lia].
  - intros Hle Hs Hin.
    rewrite (slice_wf_eq l lo hi Hwf) by lia. simpl.
    fold last. fold lo1.
    replace (lo1 <=? Z.min hi last + 1) with true
      by (symmetry; apply Z.leb_le; unfold lo1 in *; lia).
    eexists. split; [reflexivity|]. split.
    + rewrite length_drop, length_take. unfold lo1, last in *. lia.
    + intros k e Hk. rewrite lookup_drop in Hk.
      apply lookup_take_Some in Hk as [Hk Hklt].
      pose proof (Hix _ _ Hk) as Hie.
      assert (Hidx : Entry.Index e = lo1 + Z.of_nat k)
        by (rewrite Hie; unfold lo1; lia).
      split; [exact Hidx|].
      pose proof (lookup_lt_Some _ _ _ Hk) as Hlt.
      rewrite (entryAt_in _ _ Hwf) by lia.
      replace (Z.to_nat (Entry.Index e - RaftLog.start l))
        with (Z.to_nat (lo1 - RaftLog.start l) + k)%nat
        by (rewrite Hidx; unfold lo1; lia).
      now rewrite Hk.
  - intros Hle Hout.
    rewrite (slice_wf_eq l lo hi Hwf) by (unfold last in *; lia). simpl.
    fold last. fold lo1.
    replace (lo1 <=? Z.min hi last + 1) with false
      by (symmetry; apply Z.leb_gt; unfold lo1 in *; lia).
    reflexivity.
Qed.

(** X4, an instance: on entries 1 to 3, [slice 2 9] is entries 2 and 3
    and [slice 5 9] panics. *)
Lemma X4_slice_wf_witness :
  wf_log (Raft.raftLog (must restarted)) /\
  RaftLog.slice (Raft.raftLog (must restarted)) 2 9 =
    Some [Entry.mk 1 2 []; Entry.mk 1 3 []] /\
  RaftLog.slice (Raft.raftLog (must restarted)) 5 9 = None.
Proof.
  assert (Hwf : wf_log (Raft.raftLog (must restarted)))
    by (apply wf_logb_sound; vm_compute; reflexivity).
  split; [exact Hwf|].
  split; [vm_compute; reflexivity|].
  assert (H0 : 0 <= 5) by lia.
  assert (H9 : 9 < 2 ^ 64) by lia.
  apply (proj2 (proj2 (X4_slice_wf _ 5 9 Hwf H0 H9))).
  - lia.
  - vm_compute. reflexivity.
Defined.

(** X6: [newLog] on a storage that answers without error, whose first
    index is at least 1 and whose entries are numbered from it.  The log is
    well formed; its window is a sentinel with the index before the first
    one and the term the storage gives for it, followed by the storage's
    entries, which [allEntries] returns as they are; the commit index is
    the persisted one, [stabled] is the storage's last index and [applied]
    is the sentinel's index. *)
Theorem X6_newLog_wf (st : Storage.t) (hs : HardState.t) (cs : ConfState.t)
  (f la t0 : Z) (ents : list Entry.t) :
  Storage.InitialState st = (hs, cs, None) ->
  Storage.FirstIndex st = (f, None) ->
  Storage.LastIndex st = (la, None) ->
  Storage.Entries st f (add64 la 1) = (ents, None) ->
  Storage.Term st (sub64 f 1) = (t0, None) ->
  1 <= f ->
  (forall k e, ents !! k = Some e -> Entry.Index e = f + Z.of_nat k) ->
  f + Z.of_nat (length ents) < 2 ^ 64 ->
  exists l,
    RaftLog.newLog st = Some l /\
    wf_log l /\
    RaftLog.entries l = Entry.mk t0 (f - 1) [] :: ents /\
    RaftLog.allEntries l = Some ents /\
    RaftLog.start l = f - 1 /\
    RaftLog.applied l = f - 1 /\
    RaftLog.committed l = HardState.Commit hs /\
    RaftLog.stabled l = la /\
    RaftLog.entryAt l (f - 1) = Some (Ok (Entry.mk t0 (f - 1) [])).
Proof.
  intros Hinit Hfirst Hlast Hents Hterm Hf Hix Hb.
  assert (Hsub : sub64 f 1 = f - 1).
  { unfold sub64. apply u64_small. lia. }
  unfold RaftLog.newLog.
  rewrite Hinit; simpl. rewrite Hfirst; simpl. rewrite Hlast; simpl.
  rewrite Hents; simpl. rewrite Hterm; simpl. rewrite Hsub.
  eexists. split; [reflexivity|].
  assert (Hwf : wf_log
            (RaftLog.mk st (HardState.Commit hs) (f - 1) la
               (Entry.mk t0 (f - 1) [] :: ents) None (f - 1))).
  { apply wf_log_intro; simpl; try lia.
    intros [|i] e Hi; simpl in Hi.
    - injection Hi as <-. simpl. lia.
    - rewrite (Hix _ _ Hi). lia. }
  split; [exact Hwf|]. do 6 (split; [reflexivity|]).
  rewrite (entryAt_in _ _ Hwf) by (simpl; lia).
  simpl. now rewrite Z.sub_diag.
Qed.

(** X6, an instance: the storage of the restarted node. *)
Lemma X6_newLog_wf_witness :
  exists l,
    RaftLog.newLog
      (memoryStorage (HardState.mk 5 2 3) 1 0 (entriesOfTerm1 3) noSnapshot)
      = Some l /\
    RaftLog.allEntries l = Some (entriesOfTerm1 3) /\
    RaftLog.stabled l = 3.
Proof.
  destruct (X6_newLog_wf
              (memoryStorage (HardState.mk 5 2 3) 1 0 (entriesOfTerm1 3)
                 noSnapshot)
              (HardState.mk 5 2 3) (ConfState.mk []) 1 3 0 (entriesOfTerm1 3))
    as (l & Hnew & _ & _ & Hall & _ & _ & _ & Hst & _);
    try reflexivity; try lia.
  - intros k e Hk.
    apply (indexed_from_spec (entriesOfTerm1 3) 1); [reflexivity|exact Hk].
  - exists l. auto.
Defined.

(** X7: the entries not yet persisted.  On a well-formed log whose
    [stabled] lies in the window, [unstableEntries] returns the entries
    above [stabled], in order, none when [stabled] is the last index; and
    entries appended to the log come after them. *)
Theorem X7_unstableEntries_wf (l : RaftLog.t) :
  wf_log l ->
  RaftLog.start l <= RaftLog.stabled l <=
    RaftLog.start l + Z.of_nat (length (RaftLog.entries l)) - 1 ->
  exists es,
    RaftLog.unstableEntries l = Some es /\
    es = drop (Z.to_nat (RaftLog.stabled l - RaftLog.start l + 1))
              (RaftLog.entries l) /\
    (forall k e, es !! k = Some e ->
       Entry.Index e = RaftLog.stabled l + 1 + Z.of_nat k /\
       RaftLog.entryAt l (Entry.Index e) = Some (Ok e)) /\
    (forall new l' li,
       RaftLog.append l new = Some (l', li) ->
       (forall k e, new !! k = Some e ->
          Entry.Index e =
            RaftLog.start l + Z.of_nat (length (RaftLog.entries l)) +
            Z.of_nat k) ->
       RaftLog.start l + Z.of_nat (length (RaftLog.entries l)) +
         Z.of_nat (length new) < 2 ^ 64 ->
       RaftLog.unstableEntries l' = Some (es ++ new)).
Proof.
  intros Hwf Hst. pose proof Hwf as (Hs0 & _ & Hix & Hb).
  pose proof (wf_length _ Hwf) as Hn.
  assert (Hun : forall l0, wf_log l0 ->
            RaftLog.start l0 <= RaftLog.stabled l0 <=
              RaftLog.start l0 + Z.of_nat (length (RaftLog.entries l0)) - 1 ->
            RaftLog.unstableEntries l0 =
              Some (drop (Z.to_nat (RaftLog.stabled l0 - RaftLog.start l0 + 1))
                         (RaftLog.entries l0))).
  { intros l0 Hwf0 Hst0. pose proof Hwf0 as (? & _ & _ & ?).
    unfold RaftLog.unstableEntries. rewrite (wf_LastIndex _ Hwf0). simpl.
    destruct (Z.eqb_spec (RaftLog.stabled l0)
                (RaftLog.start l0 +
                 Z.of_nat (length (RaftLog.entries l0)) - 1)) as [E|E].
    - rewrite drop_ge by lia. reflexivity.
    - rewrite (wf_sub64 _ _ Hwf0) by lia.
      assert (Hadd : add64 (RaftLog.stabled l0 - RaftLog.start l0) 1 =
                     RaftLog.stabled l0 - RaftLog.start l0 + 1).
      { unfold add64. apply u64_small. lia. }
      rewrite Hadd.
      replace (_ <=? _) with true by (symmetry; apply Z.leb_le; lia).
      reflexivity. }
  eexists. split; [apply (Hun l Hwf Hst)|]. split; [reflexivity|]. split.
  - intros k e Hk. rewrite lookup_drop in Hk.
    pose proof (Hix _ _ Hk) as Hie.
    pose proof (lookup_lt_Some _ _ _ Hk) as Hlt.
    split; [lia|].
    rewrite (entryAt_in _ _ Hwf) by lia.
    replace (Z.to_nat (Entry.Index e - RaftLog.start l))
      with (Z.to_nat (RaftLog.stabled l - RaftLog.start l + 1) + k)%nat
      by lia.
    now rewrite Hk.
  - intros new l' li Happ Hnew Hbn.
    unfold RaftLog.append in Happ.
    destruct (RaftLog.LastIndex _) in Happ; simpl in Happ; [|discriminate].
    injection Happ as <- _.
    assert (Hwf' : wf_log (RaftLog.with_entries (RaftLog.entries l ++ new) l)).
    { apply wf_log_intro; simpl; try assumption.
      - rewrite length_app. lia.
      - intros i e Hi. apply lookup_app_Some in Hi as [Hi|[Hlen Hi]].
        + now apply Hix.
        + rewrite (Hnew _ _ Hi). lia.
      - rewrite length_app. lia. }
    rewrite (Hun _ Hwf') by (simpl; rewrite length_app; lia).
    simpl. rewrite drop_app_le by lia. reflexivity.
Qed.

(** X7, an instance: the leader of scenario S5 persisted entries 1 to 4;
    its no-op at index 5 is unstable. *)
Lemma X7_unstableEntries_wf_witness :
  wf_log (Raft.raftLog (must leaderS5)) /\
  RaftLog.stabled (Raft.raftLog (must leaderS5)) = 4 /\
  RaftLog.unstableEntries (Raft.raftLog (must leaderS5)) =
    Some [Entry.mk 2 5 []].
Proof.
  assert (Hwf : wf_log (Raft.raftLog (must leaderS5)))
    by (apply wf_logb_sound; vm_compute; reflexivity).
  split; [exact Hwf|]. split; [vm_compute; reflexivity|].
  destruct (X7_unstableEntries_wf _ Hwf) as (es & Hun & -> & _).
  - vm_compute. split; discriminate.
  - rewrite Hun. vm_compute. reflexivity.
Defined.

(** X8: the entries to apply.  [nextEnts] panics when [applied] is above
    the commit index.  On a well-formed log with
    [start <= applied <= committed <= last index] it returns the entries
    above [applied] up to the commit index, in order. *)
Theorem X8_nextEnts_wf (l : RaftLog.t) :
  (RaftLog.committed l < RaftLog.applied l -> RaftLog.nextEnts l = None) /\
  (wf_log l ->
   RaftLog.start l <= RaftLog.applied l ->
   RaftLog.applied l <= RaftLog.committed l ->
   RaftLog.committed l <=
     RaftLog.start l + Z.of_nat (length (RaftLog.entries l)) - 1 ->
   exists es,
     RaftLog.nextEnts l = Some es /\
     Z.of_nat (length es) = RaftLog.committed l - RaftLog.applied l /\
     forall k e, es !! k = Some e ->
       Entry.Index e = RaftLog.applied l + 1 + Z.of_nat k /\
       RaftLog.entryAt l (Entry.Index e) = Some (Ok e)).
Proof.
  split.
  - intros Hlt. unfold RaftLog.nextEnts.
    replace (RaftLog.applied l =? RaftLog.committed l) with false
      by (symmetry; apply Z.eqb_neq; lia).
    replace (RaftLog.committed l <? RaftLog.applied l) with true
      by (symmetry; apply Z.ltb_lt; lia).
    reflexivity.
  - intros Hwf Ha Hac Hc. pose proof Hwf as (Hs0 & _ & Hix & Hb).
    unfold RaftLog.nextEnts.
    destruct (Z.eqb_spec (RaftLog.applied l) (RaftLog.committed l)) as [E|E].
    { exists []. split; [reflexivity|]. split; [simpl; lia|].
      intros k e Hk. discriminate. }
    replace (RaftLog.committed l <? RaftLog.applied l) with false
      by (symmetry; apply Z.ltb_ge; lia).
    rewrite !(wf_sub64 _ _ Hwf) by lia.
    assert (Ha1 : add64 (RaftLog.applied l - RaftLog.start l) 1 =
                  RaftLog.applied l - RaftLog.start l + 1)
      by (unfold add64; apply u64_small; lia).
    assert (Hc1 : add64 (RaftLog.committed l - RaftLog.start l) 1 =
                  RaftLog.committed l - RaftLog.start l + 1)
      by (unfold add64; apply u64_small; lia).
    rewrite Ha1, Hc1.
    replace (_ && _) with true
      by (symmetry; apply andb_true_iff; split; apply Z.leb_le; lia).
    eexists. split; [reflexivity|]. split.
    + rewrite length_drop, length_take. lia.
    + intros k e Hk. rewrite lookup_drop in Hk.
      apply lookup_take_Some in Hk as [Hk Hklt].
      pose proof (Hix _ _ Hk) as Hie.
      split; [lia|].
      rewrite (entryAt_in _ _ Hwf) by lia.
      replace (Z.to_nat (Entry.Index e - RaftLog.start l))
        with (Z.to_nat (RaftLog.applied l - RaftLog.start l + 1) + k)%nat
        by lia.
      now rewrite Hk.
Qed.

(** X8, an instance: the restarted node has applied nothing and committed
    index 3; entries 1 to 3 are next. *)
Lemma X8_nextEnts_wf_witness :
  wf_log (Raft.raftLog (must restarted)) /\
  RaftLog.nextEnts (Raft.raftLog (must restarted)) =
    Some (entriesOfTerm1 3).
Proof.
  assert (Hwf : wf_log (Raft.raftLog (must restarted)))
    by (apply wf_logb_sound; vm_compute; reflexivity).
  split; [exact Hwf|].
  destruct (proj2 (X8_nextEnts_wf (Raft.raftLog (must restarted))) Hwf)
    as (es & Hnext & _); try (vm_compute; discriminate).
  rewrite Hnext. vm_compute in Hnext. injection Hnext as <-. reflexivity.
Defined.

(** * Further properties of the follower's append *)

(** One turn of the loop of [appendEntries] on a well-formed log, for an
    entry whose index is above the sentinel and at most one past the last
    index. *)
Lemma appendEntries_loop_cons (l : RaftLog.t) (e : Entry.t) (j : Z) :
  wf_log l ->
  Entry.Index e = j ->
  RaftLog.start l + 1 <= j <=
    RaftLog.start l + Z.of_nat (length (RaftLog.entries l)) ->
  RaftLog.start l + Z.of_nat (length (RaftLog.entries l)) + 1 < 2 ^ 64 ->
  exists l1,
    (forall es, Raft.appendEntries_loop l (e :: es) =
                Raft.appendEntries_loop l1 es) /\
    wf_log l1 /\
    RaftLog.start l1 = RaftLog.start l /\
    RaftLog.committed l1 = RaftLog.committed l /\
    RaftLog.applied l1 = RaftLog.applied l /\
    RaftLog.stabled l1 <= RaftLog.stabled l /\
    j - RaftLog.start l + 1 <= Z.of_nat (length (RaftLog.entries l1)) /\
    Z.of_nat (length (RaftLog.entries l1)) <=
      Z.max (Z.of_nat (length (RaftLog.entries l))) (j - RaftLog.start l + 1) /\
    (forall p, (p < Z.to_nat (j - RaftLog.start l))%nat ->
       RaftLog.entries l1 !! p = RaftLog.entries l !! p) /\
    (exists e', RaftLog.entries l1 !! Z.to_nat (j - RaftLog.start l) = Some e' /\
                Entry.Term e' = Entry.Term e).
Proof.
  intros Hwf Hej Hj Hb. pose proof Hwf as (Hs & Hne & Hix & Hb0).
  pose proof (wf_length _ Hwf) as Hn.
  set (n := length (RaftLog.entries l)) in *.
  assert (Hrepair :
    exists l1,
      RaftLog.truncate l j ≫= (fun l0 => RaftLog.append l0 [e]) =
        Some (l1, j) /\
      wf_log l1 /\ RaftLog.start l1 = RaftLog.start l /\
      RaftLog.committed l1 = RaftLog.committed l /\
      RaftLog.applied l1 = RaftLog.applied l /\
      RaftLog.stabled l1 <= RaftLog.stabled l /\
      RaftLog.entries l1 =
        take (Z.to_nat (j - RaftLog.start l)) (RaftLog.entries l) ++ [e]).
  { destruct (proj1 (truncate_wf l j) Hwf)
      as (l0 & Htr & Hwf0 & Hents0 & _ & Hst0 & Hc0 & Ha0 & Hs00 & _);
      [fold n; lia|].
    assert (Hlen0 : length (RaftLog.entries l0) =
                    Z.to_nat (j - RaftLog.start l)).
    { rewrite Hents0, length_take. fold n. lia. }
    destruct (append_wf l0 [e] Hwf0)
      as (l1 & Happ & Hwf1 & Hents1 & Hs1 & Hc1 & Ha1 & Hst1 & _).
    - intros [|k] e0 Hk; [|discriminate]. injection Hk as <-.
      rewrite Hs00, Hlen0, Hej. lia.
    - rewrite Hs00, Hlen0. simpl. lia.
    - exists l1. rewrite Htr. simpl. rewrite Happ.
      rewrite Hs00, Hlen0. simpl.
      split; [do 2 f_equal; lia|]. split; [exact Hwf1|].
      split; [congruence|]. split; [congruence|]. split; [congruence|].
      split; [rewrite Hst1, Hst0; lia|]. rewrite Hents1, Hents0. reflexivity. }
  assert (Hconflict_shape :
    forall es l1,
      RaftLog.IsConflict l j (Entry.Term e) = Some true ->
      RaftLog.truncate l j ≫= (fun l0 => RaftLog.append l0 [e]) =
        Some (l1, j) ->
      Raft.appendEntries_loop l (e :: es) = Raft.appendEntries_loop l1 es).
  { intros es l1 Hc Hrun. simpl. rewrite Hej, Hc. simpl.
    destruct (RaftLog.truncate l j) as [l0|]; simpl in *; [|discriminate].
    now rewrite Hrun. }
  destruct (IsConflict_wf l j (Entry.Term e) Hwf) as [b Hb5]; [lia|].
  destruct Hb5 as (Hisc & Hfalse).
  destruct b.
  - (* conflict, or one past the end: truncated and appended *)
    destruct Hrepair as (l1 & Hrun & Hwf1 & Hs1 & Hc1 & Ha1 & Hst1 & Hents1).
    exists l1. split; [intros es; now apply Hconflict_shape|].
    split; [exact Hwf1|]. do 3 (split; [assumption|]). split; [exact Hst1|].
    rewrite Hents1, length_app, length_take. fold n. simpl.
    split; [lia|]. split; [lia|]. split.
    + intros p Hp. rewrite lookup_app_l by (rewrite length_take; fold n; lia).
      now rewrite lookup_take_lt by lia.
    + exists e. split; [|reflexivity].
      rewrite lookup_app_r by (rewrite length_take; fold n; lia).
      rewrite length_take. fold n.
      replace (_ - _)%nat with 0%nat by lia. reflexivity.
  - (* present with the same term: skipped *)
    destruct (proj1 Hfalse eq_refl) as (e0 & Hlt & Hat & Ht).
    pose proof (entryAt_Ok_range _ _ _ Hwf Hat) as Hr. fold n in Hr.
    rewrite (entryAt_in _ _ Hwf) in Hat by (fold n; lia).
    destruct (RaftLog.entries l !! Z.to_nat (j - RaftLog.start l))
      as [e1|] eqn:He1; [|discriminate].
    injection Hat as ->.
    exists l. split.
    + intros es. simpl. rewrite Hej, Hisc. simpl.
      unfold RaftLog.Contain.
      rewrite (wf_First _ Hwf), (wf_LastIndex _ Hwf). fold n.
      replace (RaftLog.start l + 1 <=? j) with true
        by (symmetry; apply Z.leb_le; lia).
      simpl.
      replace (j <=? RaftLog.start l + Z.of_nat n - 1) with true
        by (symmetry; apply Z.leb_le; lia).
      reflexivity.
    + split; [exact Hwf|]. do 3 (split; [reflexivity|]).
      split; [lia|]. fold n. split; [lia|]. split; [lia|].
      split; [reflexivity|]. exists e0. auto.
Qed.

Lemma appendEntries_loop_agree (es : list Entry.t) :
  forall (l : RaftLog.t) (j : Z),
    wf_log l ->
    (forall k e, es !! k = Some e -> Entry.Index e = j + Z.of_nat k) ->
    RaftLog.start l + 1 <= j <=
      RaftLog.start l + Z.of_nat (length (RaftLog.entries l)) ->
    RaftLog.start l + Z.of_nat (length (RaftLog.entries l)) +
      Z.of_nat (length es) < 2 ^ 64 ->
    exists l',
      Raft.appendEntries_loop l es = Some l' /\
      wf_log l' /\
      RaftLog.start l' = RaftLog.start l /\
      RaftLog.committed l' = RaftLog.committed l /\
      RaftLog.applied l' = RaftLog.applied l /\
      RaftLog.stabled l' <= RaftLog.stabled l /\
      j - RaftLog.start l + Z.of_nat (length es) <=
        Z.of_nat (length (RaftLog.entries l')) /\
      Z.of_nat (length (RaftLog.entries l')) <=
        Z.max (Z.of_nat (length (RaftLog.entries l)))
              (j - RaftLog.start l + Z.of_nat (length es)) /\
      (forall p, (p < Z.to_nat (j - RaftLog.start l))%nat ->
         RaftLog.entries l' !! p = RaftLog.entries l !! p) /\
      (forall k e, es !! k = Some e ->
         exists e',
           RaftLog.entries l' !! (Z.to_nat (j - RaftLog.start l) + k)%nat =
             Some e' /\
           Entry.Term e' = Entry.Term e).
Proof.
  induction es as [|e es IH]; intros l j Hwf Hes Hj Hb.
  - exists l. split; [reflexivity|]. split; [exact Hwf|].
    do 3 (split; [reflexivity|]). simpl. split; [lia|]. split; [lia|].
    split; [lia|]. split; [reflexivity|]. intros k e Hk. discriminate.
  - assert (Hej : Entry.Index e = j).
    { rewrite (Hes 0%nat e eq_refl). lia. }
    simpl length in Hb.
    destruct (appendEntries_loop_cons l e j Hwf Hej Hj)
      as (l1 & Hstep & Hwf1 & Hs1 & Hc1 & Ha1 & Hst1 & Hlo1 & Hhi1 & Hpre1 &
          e1 & He1 & Ht1); [lia|].
    destruct (IH l1 (j + 1) Hwf1)
      as (l' & Hrun & Hwf' & Hs' & Hc' & Ha' & Hst' & Hlo' & Hhi' & Hpre' &
          Hag'); [| rewrite Hs1; lia | rewrite Hs1; lia |].
    { intros k e0 Hk. rewrite (Hes (S k) e0 Hk). lia. }
    exists l'. rewrite Hstep. split; [exact Hrun|]. split; [exact Hwf'|].
    split; [congruence|]. split; [congruence|]. split; [congruence|].
    split; [lia|]. rewrite Hs1 in *. simpl length.
    split; [lia|]. split; [lia|]. split.
    + intros p Hp. rewrite Hpre' by lia. apply Hpre1. lia.
    + intros [|k] e0 Hk; simpl in Hk.
      * injection Hk as <-. exists e1. rewrite Nat.add_0_r.
        rewrite Hpre' by lia. auto.
      * destruct (Hag' k e0 Hk) as (e' & He' & Ht').
        exists e'. split; [|exact Ht'].
        replace (Z.to_nat (j - RaftLog.start l) + S k)%nat
          with (Z.to_nat (j + 1 - RaftLog.start l) + k)%nat by lia.
        exact He'.
Qed.

(** X9: the follower's append loop on a well-formed log, for entries
    numbered one after the other from an index above the sentinel and at
    most one past the last index.  The loop does not panic and leaves a
    well-formed log that holds, at the index of every entry of the
    message, an entry of the same term; every entry below the first index
    of the message is kept; the log reaches at least the last index of the
    message and is no longer than the longer of the old log and the
    message; [stabled] does not grow and the commit and applied indices
    are unchanged. *)
Theorem X9_appendEntries_agree (l : RaftLog.t) (es : list Entry.t) (j : Z) :
  wf_log l ->
  (forall k e, es !! k = Some e -> Entry.Index e = j + Z.of_nat k) ->
  RaftLog.start l + 1 <= j <=
    RaftLog.start l + Z.of_nat (length (RaftLog.entries l)) ->
  RaftLog.start l + Z.of_nat (length (RaftLog.entries l)) +
    Z.of_nat (length es) < 2 ^ 64 ->
  exists l',
    Raft.appendEntries_loop l es = Some l' /\
    wf_log l' /\
    RaftLog.start l' = RaftLog.start l /\
    RaftLog.committed l' = RaftLog.committed l /\
    RaftLog.applied l' = RaftLog.applied l /\
    RaftLog.stabled l' <= RaftLog.stabled l /\
    (forall e, e ∈ es ->
       exists e', RaftLog.entryAt l' (Entry.Index e) = Some (Ok e') /\
                  Entry.Term e' = Entry.Term e) /\
    (forall i e, i < j -> RaftLog.entryAt l i = Some (Ok e) ->
       RaftLog.entryAt l' i = Some (Ok e)) /\
    (exists i0 i,
       RaftLog.LastIndex l = Some i0 /\ RaftLog.LastIndex l' = Some i /\
       j + Z.of_nat (length es) - 1 <= i <=
         Z.max i0 (j + Z.of_nat (length es) - 1)).
Proof.
  intros Hwf Hes Hj Hb. pose proof Hwf as (Hs0 & _ & _ & Hb0).
  destruct (appendEntries_loop_agree es l j Hwf Hes Hj Hb)
    as (l' & Hrun & Hwf' & Hs' & Hc' & Ha' & Hst' & Hlo' & Hhi' & Hpre' &
        Hag').
  exists l'. split; [exact Hrun|]. split; [exact Hwf'|].
  do 3 (split; [assumption|]). split; [exact Hst'|]. split; [|split].
  - intros e He. apply list_elem_of_lookup in He as [k Hk].
    pose proof (lookup_lt_Some _ _ _ Hk) as Hklt.
    destruct (Hag' k e Hk) as (e' & He' & Ht').
    exists e'. split; [|exact Ht'].
    rewrite (entryAt_in _ _ Hwf') by (rewrite Hs', (Hes _ _ Hk); lia).
    rewrite Hs', (Hes _ _ Hk).
    replace (Z.to_nat (j + Z.of_nat k - RaftLog.start l))
      with (Z.to_nat (j - RaftLog.start l) + k)%nat by lia.
    now rewrite He'.
  - intros i e Hi Hat.
    pose proof (entryAt_Ok_range _ _ _ Hwf Hat) as Hr.
    rewrite (entryAt_in _ _ Hwf) in Hat by lia.
    rewrite (entryAt_in _ _ Hwf') by (rewrite Hs'; lia).
    rewrite Hs', Hpre' by lia. exact Hat.
  - rewrite (wf_LastIndex _ Hwf'), (wf_LastIndex _ Hwf), Hs'.
    eexists. eexists. split; [reflexivity|]. split; [reflexivity|]. lia.
Qed.

(** X9, an instance: scenario S4.  The follower holds entries 1 to 3 of
    term 1 and takes entries 3 and 4 of term 2: entry 3 is replaced,
    entry 4 added, entries 1 and 2 kept. *)
Lemma X9_appendEntries_agree_witness :
  wf_log (Raft.raftLog (must followerLong)) /\
  exists l',
    Raft.appendEntries_loop (Raft.raftLog (must followerLong))
      [Entry.mk 2 3 []; Entry.mk 2 4 []] = Some l' /\
    RaftLog.entries l' =
      [Entry.mk 0 0 []; Entry.mk 1 1 []; Entry.mk 1 2 [];
       Entry.mk 2 3 []; Entry.mk 2 4 []] /\
    RaftLog.stabled l' = 2.
Proof.
  assert (Hwf : wf_log (Raft.raftLog (must followerLong)))
    by (apply wf_logb_sound; vm_compute; reflexivity).
  split; [exact Hwf|].
  destruct (X9_appendEntries_agree (Raft.raftLog (must followerLong))
              [Entry.mk 2 3 []; Entry.mk 2 4 []] 3 Hwf)
    as (l' & Hrun & _).
  - intros k e Hk.
    apply (indexed_from_spec [Entry.mk 2 3 []; Entry.mk 2 4 []] 3);
      [reflexivity|exact Hk].
  - vm_compute. split; discriminate.
  - vm_compute. reflexivity.
  - exists l'. split; [exact Hrun|].
    vm_compute in Hrun. injection Hrun as <-.
    split; reflexivity.
Defined.

(** Entries that are in the log with their terms pass the loop without a
    change. *)
Lemma appendEntries_loop_same (l : RaftLog.t) (es : list Entry.t) :
  (forall e, e ∈ es ->
     RaftLog.IsConflict l (Entry.Index e) (Entry.Term e) = Some false) ->
  Raft.appendEntries_loop l es = Some l.
Proof.
  induction es as [|e es IH]; intros Hes; [reflexivity|].
  simpl. pose proof (Hes e ltac:(set_solver)) as He.
  rewrite He. simpl.
  unfold RaftLog.IsConflict in He.
  destruct (RaftLog.Contain l (Entry.Index e)) as [[|]|]; simpl in *;
    try discriminate.
  apply IH. intros e0 He0. apply Hes. set_solver.
Qed.

Section AppendEdges.
Context {absent : Raft.Absent}.

(** The log of the node after an accepted Append. *)
Lemma handleAppendEntries_accept_log (r : Raft.t) (m : Message.t)
  (prevLog : Entry.t) (l' : RaftLog.t) :
  RaftLog.entryAt (Raft.raftLog r) (Message.Index m) = Some (Ok prevLog) ->
  Entry.Term prevLog = Message.LogTerm m ->
  Raft.appendEntries_loop (Raft.raftLog r) (Message.Entries m) = Some l' ->
  exists r' c,
    Raft.handleAppendEntries r m = Some r' /\
    Raft.raftLog r' = RaftLog.with_committed c l' /\
    Raft.msgs r' =
      Raft.msgs r ++
        [appendReply r m
           (add64 (Message.Index m)
                  (Z.of_nat (length (Message.Entries m)))) false] /\
    Raft.Term r' = Raft.Term r /\ Raft.Vote r' = Raft.Vote r /\
    Raft.State r' = Raft.State r /\ Raft.Lead r' = Raft.Lead r /\
    Raft.Prs r' = Raft.Prs r.
Proof.
  intros Hat Hterm Hloop.
  destruct (appendEntries_loop_frame _ _ _ Hloop) as [Hc Hne].
  specialize (Hne (entryAt_Ok_nonempty _ _ _ Hat)).
  destruct (LastIndex_nonempty _ Hne) as [newIndex Hli].
  unfold Raft.handleAppendEntries, Raft.appendEntries.
  rewrite Hat; simpl. rewrite Hterm, Z.eqb_refl; simpl.
  rewrite Hloop; simpl. rewrite Hli; simpl.
  destruct (RaftLog.committed l' <? Message.Commit m); simpl.
  - unfold RaftLog.updateCommitIndex.
    destruct (_ <? RaftLog.committed l'); simpl.
    + eexists. exists (RaftLog.committed l'). split; [reflexivity|].
      split; [now destruct l'|]. repeat split.
    + eexists. eexists. split; [reflexivity|]. repeat split.
  - eexists. exists (RaftLog.committed l'). split; [reflexivity|].
    split; [now destruct l'|]. repeat split.
Qed.

(** X10: an Append that is delivered again.  When the previous entry is
    present with the term of the message and every entry of the message is
    in the log with its term, the handler does not panic and the log
    window, [stabled] and [applied] are exactly as before; the reply is
    [reject = false, index = prev_index + len(entries)]. *)
Theorem X10_handleAppendEntries_duplicate (r : Raft.t) (m : Message.t)
  (prevLog : Entry.t) :
  RaftLog.entryAt (Raft.raftLog r) (Message.Index m) = Some (Ok prevLog) ->
  Entry.Term prevLog = Message.LogTerm m ->
  (forall e, e ∈ Message.Entries m ->
     RaftLog.IsConflict (Raft.raftLog r) (Entry.Index e) (Entry.Term e) =
       Some false) ->
  exists r',
    Raft.handleAppendEntries r m = Some r' /\
    RaftLog.entries (Raft.raftLog r') = RaftLog.entries (Raft.raftLog r) /\
    RaftLog.start (Raft.raftLog r') = RaftLog.start (Raft.raftLog r) /\
    RaftLog.stabled (Raft.raftLog r') = RaftLog.stabled (Raft.raftLog r) /\
    RaftLog.applied (Raft.raftLog r') = RaftLog.applied (Raft.raftLog r) /\
    Raft.msgs r' =
      Raft.msgs r ++
        [appendReply r m
           (add64 (Message.Index m)
                  (Z.of_nat (length (Message.Entries m)))) false].
Proof.
  intros Hat Hterm Hes.
  destruct (handleAppendEntries_accept_log r m prevLog (Raft.raftLog r)
              Hat Hterm (appendEntries_loop_same _ _ Hes))
    as (r' & c & Hrun & Hlog & Hmsgs & _).
  exists r'. split; [exact Hrun|]. rewrite Hlog. simpl.
  repeat split. exact Hmsgs.
Qed.

(** X11: what a follower answers to an Append it does not accept.  When
    the previous entry is present with another term, or (on a well-formed
    log) the previous index is beyond the last index and that error is not
    [LogIsCompacted], the reply is [reject = true, index = 0]; when the
    lookup fails with the error [LogIsCompacted], the reply is
    [reject = false] with the follower's commit index.  In all three cases
    the log is untouched, the election timer is not reset and the role,
    term, vote and leader are as before. *)
Theorem X11_handleAppendEntries_refused (r : Raft.t) (m : Message.t) :
  let refused index reject r' :=
    Raft.handleAppendEntries r m = Some r' /\
    Raft.msgs r' = Raft.msgs r ++ [appendReply r m index reject] /\
    Raft.raftLog r' = Raft.raftLog r /\
    Raft.electionElapsed r' = Raft.electionElapsed r /\
    Raft.State r' = Raft.State r /\ Raft.Term r' = Raft.Term r /\
    Raft.Vote r' = Raft.Vote r /\ Raft.Lead r' = Raft.Lead r in
  (forall prevLog,
     RaftLog.entryAt (Raft.raftLog r) (Message.Index m) = Some (Ok prevLog) ->
     Entry.Term prevLog <> Message.LogTerm m ->
     exists r', refused 0 true r') /\
  (wf_log (Raft.raftLog r) ->
   RaftLog.start (Raft.raftLog r) +
     Z.of_nat (length (RaftLog.entries (Raft.raftLog r))) - 1 <
     Message.Index m < 2 ^ 64 ->
   Raft.LogIsCompacted <> ErrUnavailable ->
   exists r', refused 0 true r') /\
  (forall err,
     RaftLog.entryAt (Raft.raftLog r) (Message.Index m) = Some (Err err) ->
     err = Raft.LogIsCompacted ->
     exists r', refused (RaftLog.committed (Raft.raftLog r)) false r').
Proof.
  intros refused. unfold refused. split; [|split].
  - intros prevLog Hat Hterm. unfold Raft.handleAppendEntries.
    rewrite Hat. simpl.
    apply Z.eqb_neq in Hterm. rewrite Hterm. simpl.
    eexists. split; [reflexivity|]. repeat split.
  - intros Hwf Hi Hne. unfold Raft.handleAppendEntries.
    rewrite (entryAt_above _ _ Hwf Hi). simpl.
    destruct (decide (ErrUnavailable = Raft.LogIsCompacted)) as [E|_];
      [congruence|].
    eexists. split; [reflexivity|]. repeat split.
  - intros err Hat ->. unfold Raft.handleAppendEntries.
    rewrite Hat. simpl.
    destruct (decide (Raft.LogIsCompacted = Raft.LogIsCompacted))
      as [_|E]; [|congruence].
    eexists. split; [reflexivity|]. repeat split.
Qed.

End AppendEdges.

(** X10, an instance: the follower holding entries 1 to 3 is sent entries
    1 and 2 again. *)
Lemma X10_handleAppendEntries_duplicate_witness :
  exists r',
    Raft.handleAppendEntries (absent := spec_absent) (must followerLong)
      (Message.mk MsgAppend 1 2 1 0 0 [Entry.mk 1 1 []; Entry.mk 1 2 []]
                  0 None false) = Some r' /\
    RaftLog.entries (Raft.raftLog r') =
      RaftLog.entries (Raft.raftLog (must followerLong)).
Proof.
  destruct (X10_handleAppendEntries_duplicate (absent := spec_absent)
              (must followerLong)
              (Message.mk MsgAppend 1 2 1 0 0
                 [Entry.mk 1 1 []; Entry.mk 1 2 []] 0 None false)
              (Entry.mk 0 0 []))
    as (r' & Hrun & Hents & _).
  - vm_compute. reflexivity.
  - reflexivity.
  - intros e He. simpl in He.
    apply elem_of_cons in He as [->|He];
      [vm_compute; reflexivity|].
    apply elem_of_cons in He as [->|He];
      [vm_compute; reflexivity|]. set_solver.
  - exists r'. auto.
Defined.

(** X11, an instance: the follower holding entries 1 to 3 of term 1 is
    sent an Append whose previous entry is index 3 of term 2. *)
Lemma X11_handleAppendEntries_refused_witness :
  exists r',
    Raft.handleAppendEntries (absent := spec_absent) (must followerLong)
      (Message.mk MsgAppend 1 2 2 2 3 [] 0 None false) = Some r' /\
    Raft.msgs r' =
      [Message.mk MsgAppendResponse 2 1 0 0 0 [] 0 None true].
Proof.
  destruct (proj1 (X11_handleAppendEntries_refused (absent := spec_absent)
                     (must followerLong)
                     (Message.mk MsgAppend 1 2 2 2 3 [] 0 None false))
              (Entry.mk 1 3 []))
    as (r' & Hrun & Hmsgs & _).
  - vm_compute. reflexivity.
  - simpl. discriminate.
  - exists r'. split; [exact Hrun|]. rewrite Hmsgs.
    vm_compute. reflexivity.
Defined.

(** * Further properties of the node *)

Lemma same_role_refl (r : Raft.t) : same_role r r.
Proof. repeat split. Qed.

Lemma same_role_trans (r1 r2 r3 : Raft.t) :
  same_role r1 r2 -> same_role r2 r3 -> same_role r1 r3.
Proof.
  unfold same_role.
  intros (?&?&?&?&?&?) (?&?&?&?&?&?). repeat split; congruence.
Qed.

Lemma same_role_send (r : Raft.t) (m : Message.t) :
  same_role r (Raft.send r m).
Proof. repeat split. Qed.

Lemma sendAppend_same_role (r r' : Raft.t) (to : Z) (b : bool) :
  Raft.sendAppend r to = Some (r', b) -> same_role r r'.
Proof.
  intros Hrun. destruct (sendAppend_inv _ _ _ _ Hrun) as [->|[m ->]].
  - apply same_role_refl.
  - apply same_role_send.
Qed.

Lemma sendHeartbeat_same_role (r r' : Raft.t) (to : Z) :
  Raft.sendHeartbeat r to = Some r' -> same_role r r'.
Proof.
  intros Hrun.
  destruct (sendHeartbeat_inv _ _ _ Hrun) as (_ & _ & pr & _ & ->).
  repeat split.
Qed.

Lemma leaderAppendEntries_same_role (r r' : Raft.t) (es : list Entry.t)
  (li : Z) :
  Raft.leaderAppendEntries r es = Some (r', li) -> same_role r r'.
Proof.
  unfold Raft.leaderAppendEntries, RaftLog.append.
  destruct (Raft.State r) eqn:Hs; try discriminate.
  destruct (RaftLog.LastIndex (Raft.raftLog r)); simpl; [|discriminate].
  destruct (RaftLog.LastIndex _); simpl; [|discriminate].
  destruct (Raft.Prs r !! Raft.id r); simpl; [|discriminate].
  intros [= <- _]. repeat split; simpl; auto.
Qed.

Section NodeFrames.
Context {absent : Raft.Absent}.

Lemma Visit_loop_same_role (f : Raft.t -> nat -> Z -> option Raft.t)
  (sendMe : bool) :
  (forall r idx to r', f r idx to = Some r' -> same_role r r') ->
  forall ids idx r r',
    Raft.Visit_loop f sendMe idx ids r = Some r' -> same_role r r'.
Proof.
  intros Hf. induction ids as [|to ids IH]; intros idx r r'; simpl.
  - intros [= <-]. apply same_role_refl.
  - destruct (_ && _); [apply IH|].
    destruct (f r idx to) as [r1|] eqn:Hr1; simpl; [|discriminate].
    intros Hrest. eapply same_role_trans; [eapply Hf; eassumption|].
    eapply IH; eassumption.
Qed.

Lemma bcastAppend_same_role (r r' : Raft.t) :
  Raft.bcastAppend r = Some r' -> same_role r r'.
Proof.
  unfold Raft.bcastAppend, Raft.Visit.
  apply Visit_loop_same_role. intros r0 idx to r1 Hrun.
  destruct (Raft.sendAppend r0 to) as [[r2 b]|] eqn:Hs; [|discriminate].
  injection Hrun as <-. eapply sendAppend_same_role; eassumption.
Qed.

Lemma handleProse_same_role (r r' : Raft.t) (m : Message.t) :
  Raft.handleProse r m = Some r' -> same_role r r'.
Proof.
  unfold Raft.handleProse.
  destruct (Raft.leaderAppendEntries r _) as [[r1 li]|] eqn:Hrun; simpl;
    [|discriminate].
  intros Hb. eapply same_role_trans.
  - eapply leaderAppendEntries_same_role; eassumption.
  - now apply bcastAppend_same_role.
Qed.

Lemma handleAppendEntries_same_role (r r' : Raft.t) (m : Message.t) :
  Raft.handleAppendEntries r m = Some r' -> same_role r r'.
Proof.
  unfold Raft.handleAppendEntries, Raft.appendEntries.
  destruct (RaftLog.entryAt _ _) as [[prevLog|err]|]; simpl; [| |discriminate].
  - destruct (negb _).
    + intros [= <-]. repeat split.
    + destruct (Raft.appendEntries_loop _ _) as [l'|]; simpl;
        [|discriminate].
      destruct (RaftLog.LastIndex l'); simpl; [|discriminate].
      destruct (_ <? _); intros [= <-]; repeat split.
  - destruct (decide _); intros [= <-]; repeat split.
Qed.

(** The messages whose handling is all under src/ leave the role, the
    term, the vote and the leader to the preamble of [Step]. *)
Lemma call_step_same_role (r r' : Raft.t) (m : Message.t) :
  replication_message (Message.MsgType m) = true ->
  Raft.call_step r m = Some r' -> same_role r r'.
Proof.
  intros Hty. unfold Raft.call_step.
  destruct (Raft.step r); try discriminate.
  - unfold Raft.stepFollower. destruct (Raft.State r); try discriminate.
    destruct (Message.MsgType m); try discriminate;
      try (intros [= <-]; apply same_role_refl).
    apply handleAppendEntries_same_role.
  - unfold Raft.stepCandidate. destruct (Raft.State r); try discriminate.
    destruct (Message.MsgType m); try discriminate;
      intros [= <-]; apply same_role_refl.
  - unfold Raft.stepLeader. destruct (Raft.State r); try discriminate.
    destruct (Message.MsgType m); try discriminate;
      try (intros [= <-]; apply same_role_refl).
    + apply handleProse_same_role.
    + destruct (negb _); [|intros [= <-]; apply same_role_refl].
      destruct (Raft.Prs r !! _); simpl; [|discriminate].
      intros [= <-]. repeat split.
    + unfold Raft.Visit. apply Visit_loop_same_role.
      intros r0 idx to r1. apply sendHeartbeat_same_role.
Qed.

Lemma Step_replication (r : Raft.t) (m : Message.t) :
  replication_message (Message.MsgType m) = true ->
  Raft.Step r m =
    if Message.Term m =? 0 then Raft.call_step r m
    else if Message.Term m <? Raft.Term r then Some r
    else if Raft.Term r <? Message.Term m then
      Raft.call_step
        (Raft.becomeFollower r (Message.Term m)
           match Message.MsgType m with
           | MsgAppend | MsgHeartbeat | MsgSnapshot => Message.From m
           | _ => None_id
           end) m
    else Raft.call_step r m.
Proof.
  unfold Raft.Step. destruct (Message.MsgType m); try discriminate;
    reflexivity.
Qed.

(** X12: the term rule of [Step].  A message with a term that is not 0 and
    below the node's is dropped: the node is exactly as before.  For every
    message type but Hup, Beat and the two vote messages, a message that
    is taken leaves the term at the larger of the node's and the
    message's; with a higher term the node ends as a follower without
    vote, led by the sender when the message is an Append, a Heartbeat or a
    Snapshot and by nobody otherwise; with a term that is 0 or the node's
    own, role, vote and leader are as before. *)
Theorem X12_Step_term (r : Raft.t) (m : Message.t) :
  (Message.Term m <> 0 -> Message.Term m < Raft.Term r ->
   Raft.Step r m = Some r) /\
  (forall r',
     replication_message (Message.MsgType m) = true ->
     Raft.Step r m = Some r' ->
     if (Message.Term m =? 0) || (Message.Term m <=? Raft.Term r) then
       Raft.Term r' = Raft.Term r /\ Raft.State r' = Raft.State r /\
       Raft.Vote r' = Raft.Vote r /\ Raft.Lead r' = Raft.Lead r
     else
       Raft.Term r' = Message.Term m /\ Raft.State r' = StateFollower /\
       Raft.Vote r' = None_id /\
       Raft.Lead r' =
         match Message.MsgType m with
         | MsgAppend | MsgHeartbeat | MsgSnapshot => Message.From m
         | _ => None_id
         end).
Proof.
  split.
  - intros Hne Hlt. unfold Raft.Step.
    apply Z.eqb_neq in Hne. rewrite Hne.
    apply Z.ltb_lt in Hlt. now rewrite Hlt.
  - intros r' Hty. rewrite (Step_replication r m Hty).
    destruct (Z.eqb_spec (Message.Term m) 0) as [E0|E0]; simpl.
    { intros Hrun.
      destruct (call_step_same_role _ _ _ Hty Hrun)
        as (_ & _ & ? & ? & ? & ?); auto. }
    destruct (Z.ltb_spec (Message.Term m) (Raft.Term r)) as [Hlt|Hge].
    { intros [= <-].
      replace (Message.Term m <=? Raft.Term r) with true
        by (symmetry; apply Z.leb_le; lia). auto. }
    destruct (Z.ltb_spec (Raft.Term r) (Message.Term m)) as [Hgt|Heq].
    + replace (Message.Term m <=? Raft.Term r) with false
        by (symmetry; apply Z.leb_gt; lia).
      intros Hrun.
      destruct (call_step_same_role _ _ _ Hty Hrun)
        as (_ & _ & ? & ? & ? & ?); simpl in *; auto.
    + replace (Message.Term m <=? Raft.Term r) with true
        by (symmetry; apply Z.leb_le; lia).
      intros Hrun.
      destruct (call_step_same_role _ _ _ Hty Hrun)
        as (_ & _ & ? & ? & ? & ?); auto.
Qed.

End NodeFrames.

(** X12, an instance: the follower of term 0 takes the Append of term 1
    from peer 2 and follows peer 2 in term 1. *)
Lemma X12_Step_term_witness :
  exists r',
    Raft.Step (absent := spec_absent) (must followerLong) appendFirst =
      Some r' /\
    Raft.Term r' = 1 /\ Raft.State r' = StateFollower /\ Raft.Lead r' = 2.
Proof.
  destruct (Raft.Step (absent := spec_absent) (must followerLong)
              appendFirst) as [r'|] eqn:Hrun;
    [|vm_compute in Hrun; discriminate].
  exists r'. split; [reflexivity|].
  pose proof (proj2 (X12_Step_term (absent := spec_absent)
                       (must followerLong) appendFirst) r' eq_refl Hrun)
    as Hrule.
  change ((Message.Term appendFirst =? 0) ||
          (Message.Term appendFirst <=? Raft.Term (must followerLong)))
    with false in Hrule.
  destruct Hrule as (Ht & Hs & _ & Hl). auto.
Defined.

Section Clock.
Context {absent : Raft.Absent}.

Lemma tick_coherent (r : Raft.t) :
  coherent r ->
  exists r',
    Raft.tick r = Some r' /\
    coherent r' /\
    Raft.id r' = Raft.id r /\
    Raft.raftLog r' = Raft.raftLog r /\
    Raft.msgs r' = Raft.msgs r /\
    Raft.Prs r' = Raft.Prs r /\
    Raft.Lead r' = Raft.Lead r /\
    Raft.electionTimeout r' = Raft.electionTimeout r /\
    Raft.heartbeatElapsed r' = int64 (Raft.heartbeatElapsed r + 1) /\
    Raft.electionElapsed r' = int64 (Raft.electionElapsed r + 1) /\
    if negb (bool_decide (Raft.State r = StateLeader)) &&
       (Raft.electionTimeout r <=? int64 (Raft.electionElapsed r + 1))
    then
      Raft.State r' = StateCandidate /\
      Raft.Term r' = add64 (Raft.Term r) 1 /\
      Raft.Vote r' = Raft.id r /\ Raft.votes r' = ∅
    else
      Raft.State r' = Raft.State r /\ Raft.Term r' = Raft.Term r /\
      Raft.Vote r' = Raft.Vote r /\ Raft.votes r' = Raft.votes r.
Proof.
  unfold coherent, Raft.tick, Raft.call_step, Raft.stepLeader. simpl.
  destruct (Raft.step r) eqn:Hstep; destruct (Raft.State r) eqn:Hs;
    try contradiction; intros _; simpl.
  - destruct (_ <=? _); eexists; (split; [reflexivity|]); simpl;
      rewrite ?Hstep, ?Hs; repeat split.
  - destruct (_ <=? _); eexists; (split; [reflexivity|]); simpl;
      rewrite ?Hstep, ?Hs; repeat split.
  - rewrite ?Hstep; simpl; rewrite ?Hs.
    destruct (_ <=? _); eexists; (split; [reflexivity|]); simpl;
      rewrite ?Hstep, ?Hs; repeat split.
Qed.

(** X13: one tick of a node whose [step] field is the handler of its
    role.  The tick does not panic; it adds one to both counters and
    resets neither; it never touches the log, the progresses, the leader
    or the send buffer, so a leader sends no heartbeat on its heartbeat
    timeout.  A node that is not leader and whose election counter has
    reached the timeout becomes candidate of the next term with a vote for
    itself and no recorded votes; in every other case role, term, vote and
    recorded votes are as before. *)
Theorem X13_tick (r : Raft.t) :
  coherent r ->
  exists r',
    Raft.tick r = Some r' /\
    coherent r' /\
    Raft.raftLog r' = Raft.raftLog r /\
    Raft.msgs r' = Raft.msgs r /\
    Raft.Prs r' = Raft.Prs r /\
    Raft.Lead r' = Raft.Lead r /\
    Raft.heartbeatElapsed r' = int64 (Raft.heartbeatElapsed r + 1) /\
    Raft.electionElapsed r' = int64 (Raft.electionElapsed r + 1) /\
    if negb (bool_decide (Raft.State r = StateLeader)) &&
       (Raft.electionTimeout r <=? int64 (Raft.electionElapsed r + 1))
    then
      Raft.State r' = StateCandidate /\
      Raft.Term r' = add64 (Raft.Term r) 1 /\
      Raft.Vote r' = Raft.id r /\ Raft.votes r' = ∅
    else
      Raft.State r' = Raft.State r /\ Raft.Term r' = Raft.Term r /\
      Raft.Vote r' = Raft.Vote r /\ Raft.votes r' = Raft.votes r.
Proof.
  intros Hco.
  destruct (tick_coherent r Hco)
    as (r' & Hrun & Hco' & _ & Hlog & Hmsgs & Hprs & Hlead & _ & Hhb & Hel &
        Hrole).
  exists r'. repeat (split; [assumption|]). exact Hrole.
Qed.

Lemma int64_small (z : Z) : - 2 ^ 63 <= z < 2 ^ 63 -> int64 z = z.
Proof.
  intros Hz. unfold int64. rewrite Z.mod_small by lia. lia.
Qed.

Lemma u64_range (z : Z) : 0 <= u64 z < 2 ^ 64.
Proof. unfold u64. apply Z.mod_pos_bound. lia. Qed.

Lemma ticks_inflate (n : nat) :
  forall r : Raft.t,
    coherent r ->
    Raft.State r <> StateLeader ->
    Raft.electionTimeout r <= Raft.electionElapsed r + 1 ->
    - 2 ^ 63 <= Raft.electionElapsed r ->
    Raft.electionElapsed r + Z.of_nat n < 2 ^ 63 ->
    0 <= Raft.Term r < 2 ^ 64 ->
    exists r',
      ticks n r = Some r' /\
      Raft.Term r' = u64 (Raft.Term r + Z.of_nat n) /\
      Raft.id r' = Raft.id r /\
      Raft.msgs r' = Raft.msgs r /\
      Raft.raftLog r' = Raft.raftLog r /\
      ((1 <= n)%nat ->
       Raft.State r' = StateCandidate /\ Raft.Vote r' = Raft.id r /\
       Raft.votes r' = ∅).
Proof.
  induction n as [|n IH]; intros r Hco Hs Hto Hlo Hhi Hterm.
  - exists r. simpl. split; [reflexivity|].
    rewrite Z.add_0_r, u64_small by lia.
    repeat split; lia.
  - destruct (tick_coherent r Hco)
      as (r1 & Hrun & Hco1 & Hid1 & Hlog1 & Hmsgs1 & _ & _ & Hto1 & _ & Hel1 &
          Hrole).
    rewrite int64_small in Hel1, Hrole by lia.
    replace (negb (bool_decide (Raft.State r = StateLeader))) with true
      in Hrole by (symmetry; apply negb_true_iff, bool_decide_eq_false;
                   exact Hs).
    replace (Raft.electionTimeout r <=? Raft.electionElapsed r + 1)
      with true in Hrole by (symmetry; apply Z.leb_le; lia).
    simpl in Hrole. destruct Hrole as (Hs1 & Ht1 & Hv1 & Hvs1).
    destruct (IH r1 Hco1) as (r' & Hrest & Ht' & Hid' & Hmsgs' & Hlog' & Hn');
      try (rewrite ?Hs1, ?Hto1, ?Hel1; first [discriminate | lia]).
    { rewrite Ht1. apply u64_range. }
    exists r'. simpl. rewrite Hrun. simpl.
    split; [exact Hrest|]. split.
    { rewrite Ht', Ht1. unfold add64, u64.
      rewrite Zplus_mod_idemp_l. f_equal. lia. }
    split; [congruence|]. split; [congruence|]. split; [congruence|].
    intros _. destruct n as [|n].
    + simpl in Hrest. injection Hrest as <-. auto.
    + destruct Hn' as (? & ? & ?); [lia|]. repeat split; congruence.
Qed.

(** X14: once the election timeout is reached, every tick of a node that
    is not leader starts a term.  The election counter is not reset by the
    move to candidate, so [n] further ticks raise the term by [n] (64-bit)
    and leave the node candidate with a vote for itself, while nothing is
    sent and the log is untouched. *)
Theorem X14_ticks_raise_term (n : nat) (r : Raft.t) :
  coherent r ->
  Raft.State r <> StateLeader ->
  Raft.electionTimeout r <= Raft.electionElapsed r + 1 ->
  - 2 ^ 63 <= Raft.electionElapsed r ->
  Raft.electionElapsed r + Z.of_nat n < 2 ^ 63 ->
  0 <= Raft.Term r < 2 ^ 64 ->
  exists r',
    ticks n r = Some r' /\
    Raft.Term r' = u64 (Raft.Term r + Z.of_nat n) /\
    Raft.msgs r' = Raft.msgs r /\
    Raft.raftLog r' = Raft.raftLog r /\
    ((1 <= n)%nat ->
     Raft.State r' = StateCandidate /\ Raft.Vote r' = Raft.id r /\
     Raft.votes r' = ∅).
Proof.
  intros Hco Hs Hto Hlo Hhi Hterm.
  destruct (ticks_inflate n r Hco Hs Hto Hlo Hhi Hterm)
    as (r' & Hrun & Ht & _ & Hmsgs & Hlog & Hn).
  exists r'. auto.
Qed.

(** X20: the messages a role has no case for are dropped.  On a node
    whose [step] field is the handler of its role, a message other than
    Hup whose term is 0 or the node's own and whose type the role does not
    handle leaves the node exactly as it was: a follower ignores a
    Heartbeat, a Propose and a Snapshot, a candidate ignores an Append, a
    Heartbeat and a RequestVote, and a leader ignores a Beat, a RequestVote
    and every response but an AppendResponse. *)
Theorem X20_unhandled_dropped (r : Raft.t) (m : Message.t) :
  coherent r ->
  Message.Term m = 0 \/ Message.Term m = Raft.Term r ->
  Message.MsgType m <> MsgHup ->
  handled (Raft.State r) (Message.MsgType m) = false ->
  Raft.Step r m = Some r.
Proof.
  unfold coherent. intros Hco Hterm Hhup Hun.
  assert (Hcall : Raft.call_step r m = Some r).
  { unfold Raft.call_step, Raft.stepFollower, Raft.stepCandidate,
      Raft.stepLeader.
    destruct (Raft.step r); destruct (Raft.State r); try contradiction;
      destruct (Message.MsgType m); try discriminate; reflexivity. }
  unfold Raft.Step.
  assert (Hdisp : match Message.MsgType m with
                  | MsgHup => Raft.hup r
                  | _ => Raft.call_step r m
                  end = Some r).
  { destruct (Message.MsgType m); try exact Hcall. contradiction. }
  destruct Hterm as [E|E].
  - rewrite E. simpl. exact Hdisp.
  - rewrite E, !Z.ltb_irrefl. destruct (Raft.Term r =? 0); exact Hdisp.
Qed.

End Clock.

(** X13, an instance: the leader of scenario S5, whose heartbeat timeout
    is 1, ticks; its send buffer is as before. *)
Lemma X13_tick_witness :
  coherent (must leaderS5) /\
  exists r',
    Raft.tick (absent := spec_absent) (must leaderS5) = Some r' /\
    Raft.heartbeatElapsed r' = 1 /\
    Raft.msgs r' = Raft.msgs (must leaderS5).
Proof.
  assert (Hco : coherent (must leaderS5)) by (vm_compute; exact I).
  split; [exact Hco|].
  destruct (X13_tick (absent := spec_absent) (must leaderS5) Hco)
    as (r' & Hrun & _ & _ & Hmsgs & _ & _ & Hhb & _).
  exists r'. split; [exact Hrun|]. split; [|exact Hmsgs].
  rewrite Hhb. vm_compute. reflexivity.
Defined.

(** X14, an instance: the node one tick before its timeout is at term 3
    after three ticks. *)
Lemma X14_ticks_raise_term_witness :
  coherent waiting /\
  exists r',
    ticks (absent := spec_absent) 3 waiting = Some r' /\ Raft.Term r' = 3.
Proof.
  assert (Hco : coherent waiting) by (vm_compute; exact I).
  split; [exact Hco|].
  destruct (X14_ticks_raise_term (absent := spec_absent) 3 waiting Hco)
    as (r' & Hrun & Ht & _); try (vm_compute; congruence).
  - vm_compute. split; congruence.
  - exists r'. split; [exact Hrun|]. rewrite Ht. vm_compute. reflexivity.
Defined.

(** X20, an instance: the follower of term 1 drops the heartbeat of its
    own term. *)
Lemma X20_unhandled_dropped_witness :
  coherent follower1 /\
  Raft.Step (absent := spec_absent) follower1 heartbeat1 = Some follower1.
Proof.
  assert (Hco : coherent follower1) by (vm_compute; exact I).
  split; [exact Hco|].
  apply (X20_unhandled_dropped (absent := spec_absent) follower1 heartbeat1
           Hco).
  - right. vm_compute. reflexivity.
  - discriminate.
  - vm_compute. reflexivity.
Defined.

(** * Further properties of the leader *)

Lemma stamped_length (term li : Z) (es : list Entry.t) :
  length (stamped term li es) = length es.
Proof. unfold stamped. apply length_imap. Qed.

Lemma stamped_lookup (term li : Z) (es : list Entry.t) (k : nat)
  (e : Entry.t) :
  0 <= li -> li + 1 + Z.of_nat (length es) < 2 ^ 64 ->
  stamped term li es !! k = Some e ->
  exists e0,
    es !! k = Some e0 /\
    e = Entry.mk term (li + 1 + Z.of_nat k) (Entry.Data e0).
Proof.
  intros Hli Hb. unfold stamped. rewrite list_lookup_imap.
  destruct (es !! k) as [e0|] eqn:Hk; simpl; [|discriminate].
  intros [= <-]. exists e0. split; [reflexivity|].
  pose proof (lookup_lt_Some _ _ _ Hk).
  rewrite (u64_small (li + 1)) by lia. rewrite u64_small by lia.
  reflexivity.
Qed.

(** [leaderAppendEntries] on a leader with a well-formed log. *)
Lemma leaderAppendEntries_wf (r : Raft.t) (es : list Entry.t)
  (pr : Progress.t) :
  wf_log (Raft.raftLog r) ->
  Raft.State r = StateLeader ->
  Raft.Prs r !! Raft.id r = Some pr ->
  RaftLog.start (Raft.raftLog r) +
    Z.of_nat (length (RaftLog.entries (Raft.raftLog r))) +
    Z.of_nat (length es) < 2 ^ 64 ->
  let last := RaftLog.start (Raft.raftLog r) +
              Z.of_nat (length (RaftLog.entries (Raft.raftLog r))) - 1 in
  exists r',
    Raft.leaderAppendEntries r es =
      Some (r', last + Z.of_nat (length es)) /\
    wf_log (Raft.raftLog r') /\
    RaftLog.entries (Raft.raftLog r') =
      RaftLog.entries (Raft.raftLog r) ++ stamped (Raft.Term r) last es /\
    (forall k e, es !! k = Some e ->
       RaftLog.entryAt (Raft.raftLog r') (last + 1 + Z.of_nat k) =
         Some (Ok (Entry.mk (Raft.Term r) (last + 1 + Z.of_nat k)
                            (Entry.Data e)))) /\
    RaftLog.committed (Raft.raftLog r') = RaftLog.committed (Raft.raftLog r) /\
    RaftLog.stabled (Raft.raftLog r') = RaftLog.stabled (Raft.raftLog r) /\
    RaftLog.applied (Raft.raftLog r') = RaftLog.applied (Raft.raftLog r) /\
    Raft.Prs r' =
      <[Raft.id r :=
          Progress.mayUpdateIndex pr (last + Z.of_nat (length es))]>
        (Raft.Prs r) /\
    Raft.msgs r' =
      Raft.msgs r ++ [selfAppendResponse r (last + Z.of_nat (length es))].
Proof.
  intros Hwf Hs Hpr Hb. cbv zeta. pose proof Hwf as (Hs0 & _ & _ & Hb0).
  pose proof (wf_length _ Hwf) as Hn.
  destruct (leaderAppendEntries_total r es Hs) as [[r' li'] Hrun].
  { now destruct Hwf as (_ & Hne & _). }
  { eauto. }
  destruct (leaderAppendEntries_inv _ _ _ _ Hrun)
    as (_ & li & pr1 & Hli & Hpr1 & Hli' & Hlog & Hmsgs & Hprs & _).
  rewrite (wf_LastIndex _ Hwf) in Hli. injection Hli as <-.
  set (last := RaftLog.start (Raft.raftLog r) +
               Z.of_nat (length (RaftLog.entries (Raft.raftLog r))) - 1) in *.
  rewrite Hpr in Hpr1. injection Hpr1 as <-.
  destruct (append_wf (Raft.raftLog r) (stamped (Raft.Term r) last es) Hwf)
    as (l' & Happ & Hwf' & Hents' & Hs' & Hc' & Ha' & Hst' & Hnew & _).
  { intros k e Hk.
    assert (H0 : 0 <= last) by (unfold last; lia).
    assert (H1 : last + 1 + Z.of_nat (length es) < 2 ^ 64)
      by (unfold last; lia).
    destruct (stamped_lookup _ _ _ _ _ H0 H1 Hk) as (e0 & _ & ->).
    simpl. unfold last. lia. }
  { rewrite stamped_length. exact Hb. }
  unfold RaftLog.append in Happ. rewrite Hli' in Happ. simpl in Happ.
  injection Happ as Hl' Hlieq. rewrite stamped_length in Hlieq.
  assert (Hli'eq : li' = last + Z.of_nat (length es))
    by (unfold last; lia).
  clear Hlieq. rewrite Hli'eq in Hrun, Hprs, Hmsgs. clear Hli'eq.
  rewrite <- Hlog in Hl'. subst l'.
  exists r'. split; [exact Hrun|]. split; [exact Hwf'|].
  split; [exact Hents'|]. split.
  - intros k e Hk.
    apply (Hnew (Entry.mk (Raft.Term r) (last + 1 + Z.of_nat k)
                          (Entry.Data e))).
    apply list_elem_of_lookup. exists k. unfold stamped.
    rewrite list_lookup_imap, Hk. simpl.
    pose proof (lookup_lt_Some _ _ _ Hk).
    rewrite (u64_small (last + 1)) by (unfold last; lia).
    rewrite u64_small by (unfold last; lia). reflexivity.
  - repeat (split; [assumption|]). exact Hmsgs.
Qed.

(** X16: a leader appending to a well-formed log.  [leaderAppendEntries]
    does not panic and returns the new last index,
    [last index + len(entries)]; the log stays well formed and holds, after
    the old entries, the caller's data stamped with the leader's term and
    the indices that follow the old last index, whatever terms and indices
    the caller gave; the cursors are untouched; the leader's own progress
    is advanced to the new last index and one AppendResponse to itself is
    sent, also when no entry is given. *)
Theorem X16_leaderAppendEntries_wf (r : Raft.t) (es : list Entry.t)
  (pr : Progress.t) :
  wf_log (Raft.raftLog r) ->
  Raft.State r = StateLeader ->
  Raft.Prs r !! Raft.id r = Some pr ->
  RaftLog.start (Raft.raftLog r) +
    Z.of_nat (length (RaftLog.entries (Raft.raftLog r))) +
    Z.of_nat (length es) < 2 ^ 64 ->
  let last := RaftLog.start (Raft.raftLog r) +
              Z.of_nat (length (RaftLog.entries (Raft.raftLog r))) - 1 in
  exists r',
    Raft.leaderAppendEntries r es =
      Some (r', last + Z.of_nat (length es)) /\
    wf_log (Raft.raftLog r') /\
    RaftLog.entries (Raft.raftLog r') =
      RaftLog.entries (Raft.raftLog r) ++ stamped (Raft.Term r) last es /\
    (forall k e, es !! k = Some e ->
       RaftLog.entryAt (Raft.raftLog r') (last + 1 + Z.of_nat k) =
         Some (Ok (Entry.mk (Raft.Term r) (last + 1 + Z.of_nat k)
                            (Entry.Data e)))) /\
    RaftLog.committed (Raft.raftLog r') = RaftLog.committed (Raft.raftLog r) /\
    RaftLog.stabled (Raft.raftLog r') = RaftLog.stabled (Raft.raftLog r) /\
    RaftLog.applied (Raft.raftLog r') = RaftLog.applied (Raft.raftLog r) /\
    Raft.Prs r' =
      <[Raft.id r :=
          Progress.mayUpdateIndex pr (last + Z.of_nat (length es))]>
        (Raft.Prs r) /\
    Raft.msgs r' =
      Raft.msgs r ++ [selfAppendResponse r (last + Z.of_nat (length es))].
Proof. exact (leaderAppendEntries_wf r es pr). Qed.

(** X16, an instance: the leader of scenario S5 (term 2, last index 5) is
    given two entries; they get term 2 and indices 6 and 7. *)
Lemma X16_leaderAppendEntries_wf_witness :
  wf_log (Raft.raftLog (must leaderS5)) /\
  exists r',
    Raft.leaderAppendEntries (must leaderS5)
      [Entry.mk 9 9 [1]; Entry.mk 0 0 [2]] = Some (r', 7) /\
    RaftLog.entryAt (Raft.raftLog r') 7 = Some (Ok (Entry.mk 2 7 [2])).
Proof.
  assert (Hwf : wf_log (Raft.raftLog (must leaderS5)))
    by (apply wf_logb_sound; vm_compute; reflexivity).
  split; [exact Hwf|].
  destruct (X16_leaderAppendEntries_wf (must leaderS5)
              [Entry.mk 9 9 [1]; Entry.mk 0 0 [2]] (Progress.mk 5 6) Hwf)
    as (r' & Hrun & _ & _ & Hnew & _).
  - vm_compute. reflexivity.
  - vm_compute. reflexivity.
  - vm_compute. reflexivity.
  - exists r'. split; [exact Hrun|].
    apply (Hnew 1%nat (Entry.mk 0 0 [2])). reflexivity.
Defined.

(** What [sendAppend] does on a well-formed log, by the peer's [next]. *)
Lemma sendAppend_wf (r : Raft.t) (to : Z) (pr : Progress.t) :
  wf_log (Raft.raftLog r) ->
  Raft.State r = StateLeader ->
  to <> Raft.id r ->
  Raft.Prs r !! to = Some pr ->
  Progress.Next pr < 2 ^ 64 ->
  let last := RaftLog.start (Raft.raftLog r) +
              Z.of_nat (length (RaftLog.entries (Raft.raftLog r))) - 1 in
  (Progress.Next pr = last + 1 -> Raft.sendAppend r to = Some (r, true)) /\
  (RaftLog.start (Raft.raftLog r) + 1 <= Progress.Next pr <= last ->
   exists prevLog,
     RaftLog.entryAt (Raft.raftLog r) (Progress.Next pr - 1) =
       Some (Ok prevLog) /\
     Entry.Index prevLog = Progress.Next pr - 1 /\
     Raft.sendAppend r to =
       Some (Raft.with_msgs
               (Raft.msgs r ++
                [appendTo r to prevLog
                   (drop (Z.to_nat (Progress.Next pr -
                                    RaftLog.start (Raft.raftLog r)))
                         (RaftLog.entries (Raft.raftLog r)))]) r,
             false)) /\
  (last + 1 < Progress.Next pr -> Raft.sendAppend r to = None).
Proof.
  intros Hwf Hs Hto Hpr Hnext. cbv zeta.
  pose proof Hwf as (Hs0 & _ & _ & Hb0).
  pose proof (wf_length _ Hwf) as Hn.
  set (l := Raft.raftLog r) in *.
  set (last := RaftLog.start l + Z.of_nat (length (RaftLog.entries l)) - 1).
  assert (HNext : RaftLog.NextIndex l = Some (last + 1)).
  { pose proof (wf_LastIndex _ Hwf) as Hli.
    unfold RaftLog.LastIndex, RaftLog.NextIndex in *.
    destruct (RaftLog.LastLog l) as [e|]; simpl in *; [|discriminate].
    injection Hli as Hli. rewrite Hli. f_equal. unfold add64.
    apply u64_small. unfold last. lia. }
  assert (Hhead :
    Raft.sendAppend r to =
      if Progress.Next pr =? last + 1 then Some (r, true)
      else m ← Raft.NewAppendMsg r to; Some (Raft.send r m, false)).
  { unfold Raft.sendAppend.
    replace (to =? Raft.id r) with false by (symmetry; apply Z.eqb_neq; lia).
    rewrite Hpr. simpl. fold l. rewrite HNext. reflexivity. }
  rewrite Hhead.
  split; [|split].
  - intros E. apply Z.eqb_eq in E. now rewrite E.
  - intros Hin.
    replace (Progress.Next pr =? last + 1) with false
      by (symmetry; apply Z.eqb_neq; lia).
    assert (Hsub : sub64 (Progress.Next pr) 1 = Progress.Next pr - 1)
      by (unfold sub64; apply u64_small; lia).
    destruct (wf_lookup l (Progress.Next pr - 1) Hwf) as (prevLog & Hp & Hpi);
      [fold last; lia|].
    exists prevLog.
    assert (Hat : RaftLog.entryAt l (Progress.Next pr - 1) =
                  Some (Ok prevLog)).
    { rewrite (entryAt_in _ _ Hwf) by (fold last; lia). now rewrite Hp. }
    split; [exact Hat|]. split; [exact Hpi|].
    unfold Raft.NewAppendMsg. rewrite Hs, Hpr. simpl. fold l.
    rewrite Hsub, Hat. simpl. rewrite (wf_LastIndex _ Hwf). simpl.
    fold last.
    rewrite (slice_wf_eq l (Progress.Next pr) last Hwf)
      by (unfold last in *; lia).
    cbv zeta. fold last.
    replace (Z.max (Progress.Next pr) (RaftLog.start l + 1))
      with (Progress.Next pr) by lia.
    replace (Z.min last last) with last by lia.
    replace (Progress.Next pr <=? last + 1) with true
      by (symmetry; apply Z.leb_le; lia).
    simpl. rewrite take_ge by (unfold last; lia).
    unfold Raft.send, appendTo, RaftLog.covEntry2PtrC. simpl.
    fold l. reflexivity.
  - intros Hout.
    replace (Progress.Next pr =? last + 1) with false
      by (symmetry; apply Z.eqb_neq; lia).
    assert (Hsub : sub64 (Progress.Next pr) 1 = Progress.Next pr - 1)
      by (unfold sub64; apply u64_small; lia).
    unfold Raft.NewAppendMsg. rewrite Hs, Hpr. simpl. fold l.
    rewrite Hsub, (entryAt_above _ _ Hwf) by (fold last; lia).
    reflexivity.
Qed.

(** X15: [sendAppend] on a leader with a well-formed log, for a peer other
    than itself whose progress it tracks.  When the peer's [next] is one
    past the last index, it sends nothing and returns true.  When [next]
    lies in the log above the first index, it returns false and sends one
    Append whose previous index is [next - 1] with the term of that entry,
    whose entries are all entries from [next] to the last index and whose
    commit is the leader's commit index.  When [next] is more than one
    past the last index, it panics. *)
Theorem X15_sendAppend_wf (r : Raft.t) (to : Z) (pr : Progress.t) :
  wf_log (Raft.raftLog r) ->
  Raft.State r = StateLeader ->
  to <> Raft.id r ->
  Raft.Prs r !! to = Some pr ->
  Progress.Next pr < 2 ^ 64 ->
  let last := RaftLog.start (Raft.raftLog r) +
              Z.of_nat (length (RaftLog.entries (Raft.raftLog r))) - 1 in
  (Progress.Next pr = last + 1 -> Raft.sendAppend r to = Some (r, true)) /\
  (RaftLog.start (Raft.raftLog r) + 1 <= Progress.Next pr <= last ->
   exists prevLog,
     RaftLog.entryAt (Raft.raftLog r) (Progress.Next pr - 1) =
       Some (Ok prevLog) /\
     Entry.Index prevLog = Progress.Next pr - 1 /\
     Raft.sendAppend r to =
       Some (Raft.with_msgs
               (Raft.msgs r ++
                [appendTo r to prevLog
                   (drop (Z.to_nat (Progress.Next pr -
                                    RaftLog.start (Raft.raftLog r)))
                         (RaftLog.entries (Raft.raftLog r)))]) r,
             false)) /\
  (last + 1 < Progress.Next pr -> Raft.sendAppend r to = None).
Proof. exact (sendAppend_wf r to pr). Qed.

(** X15, an instance: the leader of scenario S5 with peer 2 acknowledged
    up to index 5 has nothing to send; with peer 2 probed at index 9 it
    panics. *)
Lemma X15_sendAppend_wf_witness :
  wf_log (Raft.raftLog ackedS5) /\
  Raft.sendAppend ackedS5 2 = Some (ackedS5, true) /\
  Raft.sendAppend probedS5 2 = None.
Proof.
  assert (Hwf : wf_log (Raft.raftLog ackedS5))
    by (apply wf_logb_sound; vm_compute; reflexivity).
  assert (Hs : Raft.State ackedS5 = StateLeader) by (vm_compute; reflexivity).
  assert (Hto : 2 <> Raft.id ackedS5) by (vm_compute; discriminate).
  assert (Hpr : Raft.Prs ackedS5 !! 2 = Some (Progress.mk 5 6))
    by (vm_compute; reflexivity).
  assert (Hwf' : wf_log (Raft.raftLog probedS5))
    by (apply wf_logb_sound; vm_compute; reflexivity).
  assert (Hs' : Raft.State probedS5 = StateLeader)
    by (vm_compute; reflexivity).
  assert (Hto' : 2 <> Raft.id probedS5) by (vm_compute; discriminate).
  assert (Hpr' : Raft.Prs probedS5 !! 2 = Some (Progress.mk 5 9))
    by (vm_compute; reflexivity).
  assert (Hn : Progress.Next (Progress.mk 5 6) < 2 ^ 64) by (simpl; lia).
  assert (Hn' : Progress.Next (Progress.mk 5 9) < 2 ^ 64) by (simpl; lia).
  split; [exact Hwf|]. split.
  - apply (proj1 (X15_sendAppend_wf ackedS5 2 (Progress.mk 5 6) Hwf
                    Hs Hto Hpr Hn)).
    vm_compute. reflexivity.
  - apply (proj2 (proj2 (X15_sendAppend_wf probedS5 2 (Progress.mk 5 9) Hwf'
                           Hs' Hto' Hpr' Hn'))).
    vm_compute. reflexivity.
Defined.

Section Replication.
Context {absent : Raft.Absent}.

(** One round of replication, with the Append the leader sends. *)
Lemma replication_round (r f : Raft.t) (to : Z) (pr : Progress.t)
  (prevL prevF : Entry.t) :
  let lastL := RaftLog.start (Raft.raftLog r) +
               Z.of_nat (length (RaftLog.entries (Raft.raftLog r))) - 1 in
  wf_log (Raft.raftLog r) ->
  Raft.State r = StateLeader ->
  to <> Raft.id r ->
  Raft.Prs r !! to = Some pr ->
  RaftLog.start (Raft.raftLog r) + 1 <= Progress.Next pr <= lastL ->
  RaftLog.entryAt (Raft.raftLog r) (Progress.Next pr - 1) =
    Some (Ok prevL) ->
  wf_log (Raft.raftLog f) ->
  RaftLog.entryAt (Raft.raftLog f) (Progress.Next pr - 1) =
    Some (Ok prevF) ->
  Entry.Term prevF = Entry.Term prevL ->
  RaftLog.start (Raft.raftLog f) +
    Z.of_nat (length (RaftLog.entries (Raft.raftLog f))) +
    (lastL - Progress.Next pr + 1) < 2 ^ 64 ->
  let m := appendTo r to prevL
             (drop (Z.to_nat (Progress.Next pr -
                              RaftLog.start (Raft.raftLog r)))
                   (RaftLog.entries (Raft.raftLog r))) in
  Raft.sendAppend r to = Some (Raft.with_msgs (Raft.msgs r ++ [m]) r, false) /\
  exists f',
    Raft.handleAppendEntries f m = Some f' /\
    wf_log (Raft.raftLog f') /\
    (forall i eL, Progress.Next pr <= i ->
       RaftLog.entryAt (Raft.raftLog r) i = Some (Ok eL) ->
       exists eF,
         RaftLog.entryAt (Raft.raftLog f') i = Some (Ok eF) /\
         Entry.Term eF = Entry.Term eL) /\
    (forall i e, i < Progress.Next pr ->
       RaftLog.entryAt (Raft.raftLog f) i = Some (Ok e) ->
       RaftLog.entryAt (Raft.raftLog f') i = Some (Ok e)) /\
    Raft.msgs f' = Raft.msgs f ++ [appendReply f m lastL false].
Proof.
  cbv zeta. intros HwfL Hs Hto Hpr Hnext HatL HwfF HatF Hterm Hb.
  pose proof HwfL as (HsL & _ & HixL & HbL).
  pose proof HwfF as (HsF & _ & _ & HbF).
  set (lL := Raft.raftLog r) in *. set (lF := Raft.raftLog f) in *.
  set (n := Progress.Next pr) in *.
  set (ents := drop (Z.to_nat (n - RaftLog.start lL)) (RaftLog.entries lL)).
  assert (Hlen : Z.of_nat (length ents) =
                 RaftLog.start lL + Z.of_nat (length (RaftLog.entries lL))
                 - n).
  { unfold ents. rewrite length_drop. lia. }
  destruct (sendAppend_wf r to pr HwfL Hs Hto Hpr ltac:(fold n; lia))
    as (_ & Hsend & _).
  destruct (Hsend Hnext) as (prevL' & HatL' & HidxL & Hrun). clear Hsend.
  fold lL n in HatL', HidxL, Hrun. rewrite HatL in HatL'.
  injection HatL' as <-. fold ents in Hrun.
  set (m := appendTo r to prevL ents) in *.
  pose proof (entryAt_Ok_range _ _ _ HwfF HatF) as HrF.
  assert (Hents : forall k e, ents !! k = Some e ->
                    Entry.Index e = n + Z.of_nat k).
  { intros k e Hk. unfold ents in Hk. rewrite lookup_drop in Hk.
    rewrite (HixL _ _ Hk). lia. }
  destruct (appendEntries_loop_agree ents lF n HwfF Hents)
    as (l' & Hloop & Hwf' & Hs' & _ & _ & _ & Hlo' & _ & Hpre' & Hag');
    [lia|lia|].
  destruct (handleAppendEntries_accept_log f m prevF l')
    as (f' & c & Hrunf & Hlog & Hmsgs & _).
  { unfold m, appendTo; simpl. fold lF. rewrite HidxL. exact HatF. }
  { exact Hterm. }
  { exact Hloop. }
  assert (Hwff : wf_log (Raft.raftLog f')) by (rewrite Hlog; exact Hwf').
  assert (Hat' : forall i, RaftLog.entryAt (Raft.raftLog f') i =
                           RaftLog.entryAt l' i) by (now rewrite Hlog).
  split; [exact Hrun|]. exists f'.
  split; [exact Hrunf|]. split; [exact Hwff|]. split; [|split].
  - intros i eL Hi HatLi.
    pose proof (entryAt_Ok_range _ _ _ HwfL HatLi) as HrL.
    rewrite (entryAt_in _ _ HwfL) in HatLi by lia.
    destruct (RaftLog.entries lL !! Z.to_nat (i - RaftLog.start lL))
      as [e|] eqn:He; [|discriminate].
    injection HatLi as ->.
    assert (Hk : ents !! Z.to_nat (i - n) = Some eL).
    { unfold ents. rewrite lookup_drop.
      replace (Z.to_nat (n - RaftLog.start lL) + Z.to_nat (i - n))%nat
        with (Z.to_nat (i - RaftLog.start lL)) by lia.
      exact He. }
    destruct (Hag' _ _ Hk) as (eF & HeF & HtF).
    exists eF. split; [|exact HtF].
    rewrite Hat', (entryAt_in _ _ Hwf') by (rewrite Hs'; lia).
    rewrite Hs'.
    replace (Z.to_nat (i - RaftLog.start lF))
      with (Z.to_nat (n - RaftLog.start lF) + Z.to_nat (i - n))%nat by lia.
    now rewrite HeF.
  - intros i e Hi Hati.
    pose proof (entryAt_Ok_range _ _ _ HwfF Hati) as Hr.
    rewrite (entryAt_in _ _ HwfF) in Hati by lia.
    rewrite Hat', (entryAt_in _ _ Hwf') by (rewrite Hs'; lia).
    rewrite Hs', Hpre' by lia. exact Hati.
  - rewrite Hmsgs. do 2 f_equal.
    unfold m, appendTo; simpl. rewrite HidxL. fold n.
    change (length ents) with (length ents).
    unfold add64. rewrite u64_small by lia.
    f_equal. lia.
Qed.

(** X19: one round of replication.  A leader with a well-formed log whose
    [next] for a peer lies in its log sends that peer an Append; a
    follower with a well-formed log that holds the entry before [next]
    with the leader's term for it takes that Append without panic.
    Afterwards the follower's log is well formed and has, at every index
    from [next] to the leader's last index, an entry of the same term as
    the leader's; its entries below [next] are kept; and it replies
    [reject = false] with the leader's last index. *)
Theorem X19_replication_round (r f : Raft.t) (to : Z) (pr : Progress.t)
  (prevL prevF : Entry.t) :
  let lastL := RaftLog.start (Raft.raftLog r) +
               Z.of_nat (length (RaftLog.entries (Raft.raftLog r))) - 1 in
  wf_log (Raft.raftLog r) ->
  Raft.State r = StateLeader ->
  to <> Raft.id r ->
  Raft.Prs r !! to = Some pr ->
  RaftLog.start (Raft.raftLog r) + 1 <= Progress.Next pr <= lastL ->
  RaftLog.entryAt (Raft.raftLog r) (Progress.Next pr - 1) =
    Some (Ok prevL) ->
  wf_log (Raft.raftLog f) ->
  RaftLog.entryAt (Raft.raftLog f) (Progress.Next pr - 1) =
    Some (Ok prevF) ->
  Entry.Term prevF = Entry.Term prevL ->
  RaftLog.start (Raft.raftLog f) +
    Z.of_nat (length (RaftLog.entries (Raft.raftLog f))) +
    (lastL - Progress.Next pr + 1) < 2 ^ 64 ->
  exists r' m f',
    Raft.sendAppend r to = Some (r', false) /\
    Raft.msgs r' = Raft.msgs r ++ [m] /\
    Message.MsgType m = MsgAppend /\
    Raft.handleAppendEntries f m = Some f' /\
    wf_log (Raft.raftLog f') /\
    (forall i eL, Progress.Next pr <= i ->
       RaftLog.entryAt (Raft.raftLog r) i = Some (Ok eL) ->
       exists eF,
         RaftLog.entryAt (Raft.raftLog f') i = Some (Ok eF) /\
         Entry.Term eF = Entry.Term eL) /\
    (forall i e, i < Progress.Next pr ->
       RaftLog.entryAt (Raft.raftLog f) i = Some (Ok e) ->
       RaftLog.entryAt (Raft.raftLog f') i = Some (Ok e)) /\
    Raft.msgs f' = Raft.msgs f ++ [appendReply f m lastL false].
Proof.
  cbv zeta. intros HwfL Hs Hto Hpr Hnext HatL HwfF HatF Hterm Hb.
  destruct (replication_round r f to pr prevL prevF
              HwfL Hs Hto Hpr Hnext HatL HwfF HatF Hterm Hb)
    as (Hsend & f' & Hrun & Hwf' & Hag & Hpre & Hmsgs).
  eexists _, _, f'. split; [exact Hsend|]. split; [reflexivity|].
  split; [reflexivity|]. split; [exact Hrun|]. split; [exact Hwf'|].
  split; [exact Hag|]. split; [exact Hpre|exact Hmsgs].
Qed.

End Replication.

(** X19, an instance: the leader of scenario S5 (entries 1 to 4 of term 1,
    its no-op of term 2 at index 5) probes peer 2 at index 3; a follower
    holding entries 1 to 3 of term 1 takes the Append and ends with the
    leader's five entries. *)
Lemma X19_replication_round_witness :
  wf_log (Raft.raftLog leaderBehind) /\
  wf_log (Raft.raftLog (must followerLong)) /\
  Raft.Prs leaderBehind !! 2 = Some (Progress.mk 2 3) /\
  exists r' m f',
    Raft.sendAppend leaderBehind 2 = Some (r', false) /\
    Raft.msgs r' = Raft.msgs leaderBehind ++ [m] /\
    Raft.handleAppendEntries (absent := spec_absent) (must followerLong) m
      = Some f' /\
    wf_log (Raft.raftLog f') /\
    (forall i eL, 3 <= i ->
       RaftLog.entryAt (Raft.raftLog leaderBehind) i = Some (Ok eL) ->
       exists eF,
         RaftLog.entryAt (Raft.raftLog f') i = Some (Ok eF) /\
         Entry.Term eF = Entry.Term eL).
Proof.
  assert (HwfL : wf_log (Raft.raftLog leaderBehind))
    by (apply wf_logb_sound; vm_compute; reflexivity).
  assert (HwfF : wf_log (Raft.raftLog (must followerLong)))
    by (apply wf_logb_sound; vm_compute; reflexivity).
  assert (Hs : Raft.State leaderBehind = StateLeader)
    by (vm_compute; reflexivity).
  assert (Hto : 2 <> Raft.id leaderBehind) by (vm_compute; discriminate).
  assert (Hpr : Raft.Prs leaderBehind !! 2 = Some (Progress.mk 2 3))
    by (vm_compute; reflexivity).
  assert (Hn : RaftLog.start (Raft.raftLog leaderBehind) + 1 <=
               Progress.Next (Progress.mk 2 3) <=
               RaftLog.start (Raft.raftLog leaderBehind) +
               Z.of_nat (length (RaftLog.entries (Raft.raftLog leaderBehind)))
               - 1)
    by (vm_compute; split; discriminate).
  assert (HatL : RaftLog.entryAt (Raft.raftLog leaderBehind)
                   (Progress.Next (Progress.mk 2 3) - 1) =
                 Some (Ok (Entry.mk 1 2 []))) by (vm_compute; reflexivity).
  assert (HatF : RaftLog.entryAt (Raft.raftLog (must followerLong))
                   (Progress.Next (Progress.mk 2 3) - 1) =
                 Some (Ok (Entry.mk 1 2 []))) by (vm_compute; reflexivity).
  assert (Hb : RaftLog.start (Raft.raftLog (must followerLong)) +
               Z.of_nat (length (RaftLog.entries
                                   (Raft.raftLog (must followerLong)))) +
               (RaftLog.start (Raft.raftLog leaderBehind) +
                Z.of_nat (length (RaftLog.entries
                                    (Raft.raftLog leaderBehind))) - 1
                - Progress.Next (Progress.mk 2 3) + 1) < 2 ^ 64)
    by (vm_compute; reflexivity).
  split; [exact HwfL|]. split; [exact HwfF|]. split; [exact Hpr|].
  destruct (X19_replication_round (absent := spec_absent)
              leaderBehind (must followerLong) 2 (Progress.mk 2 3)
              (Entry.mk 1 2 []) (Entry.mk 1 2 [])
              HwfL Hs Hto Hpr Hn HatL HwfF HatF eq_refl Hb)
    as (r' & m & f' & Hsend & Hmsgs & _ & Hrun & Hwf' & Hag & _ & _).
  exists r', m, f'.
  split; [exact Hsend|]. split; [exact Hmsgs|]. split; [exact Hrun|].
  split; [exact Hwf'|]. exact Hag.
Defined.

(** * Further properties of the leader's step *)

Lemma only_sent_refl (r : Raft.t) : only_sent r r.
Proof. exists []. destruct r; simpl. now rewrite app_nil_r. Qed.

Lemma only_sent_trans (r1 r2 r3 : Raft.t) :
  only_sent r1 r2 -> only_sent r2 r3 -> only_sent r1 r3.
Proof.
  intros [n1 ->] [n2 ->]. exists (n1 ++ n2). destruct r1; simpl.
  now rewrite app_assoc.
Qed.

Lemma only_sent_send (r : Raft.t) (m : Message.t) :
  only_sent r (Raft.send r m).
Proof. unfold Raft.send. eexists. reflexivity. Qed.

Lemma only_sent_fields (r r' : Raft.t) :
  only_sent r r' ->
  Raft.raftLog r' = Raft.raftLog r /\ Raft.Prs r' = Raft.Prs r /\
  Raft.State r' = Raft.State r /\ Raft.Term r' = Raft.Term r /\
  Raft.step r' = Raft.step r /\
  exists new, Raft.msgs r' = Raft.msgs r ++ new.
Proof. intros [new ->]. repeat split. now exists new. Qed.

Lemma Visit_loop_only_sent (f : Raft.t -> nat -> Z -> option Raft.t)
  (sendMe : bool) :
  (forall r i to r', f r i to = Some r' -> only_sent r r') ->
  forall ids idx r r',
    Raft.Visit_loop f sendMe idx ids r = Some r' -> only_sent r r'.
Proof.
  intros Hf ids. induction ids as [|to ids IH]; intros idx r r'; simpl.
  - intros [= <-]. apply only_sent_refl.
  - destruct (_ && _); [apply IH|].
    destruct (f r idx to) as [r1|] eqn:Hrun; simpl; [|discriminate].
    intros Hrest. eapply only_sent_trans; [exact (Hf _ _ _ _ Hrun)|].
    exact (IH _ _ _ Hrest).
Qed.

Section LeaderStep.
Context {absent : Raft.Absent}.

Lemma bcastAppend_only_sent (r r' : Raft.t) :
  Raft.bcastAppend r = Some r' -> only_sent r r'.
Proof.
  unfold Raft.bcastAppend, Raft.Visit. apply Visit_loop_only_sent.
  intros r0 i to r1.
  destruct (Raft.sendAppend r0 to) as [[r2 b]|] eqn:Hrun; simpl;
    [|discriminate].
  intros [= <-]. destruct (sendAppend_inv _ _ _ _ Hrun) as [->|[m ->]].
  - apply only_sent_refl.
  - apply only_sent_send.
Qed.

Lemma heartbeats_only_sent (r r' : Raft.t) :
  Raft.Visit r (fun r _ to => Raft.sendHeartbeat r to) false = Some r' ->
  only_sent r r'.
Proof.
  unfold Raft.Visit. apply Visit_loop_only_sent.
  intros r0 i to r1 Hrun.
  destruct (sendHeartbeat_inv _ _ _ Hrun) as (_ & _ & pr & _ & ->).
  eexists. reflexivity.
Qed.

(** What [Step] does on a leader with a message of its own term or
    without term: nothing on a Hup, and [stepLeader] otherwise. *)
Lemma Step_leader (r r' : Raft.t) (m : Message.t) :
  coherent r ->
  Raft.State r = StateLeader ->
  Message.Term m = 0 \/ Message.Term m = Raft.Term r ->
  Raft.Step r m = Some r' ->
  (Message.MsgType m = MsgHup /\ r' = r) \/
  (Message.MsgType m <> MsgHup /\ Raft.stepLeader r m = Some r').
Proof.
  intros Hco Hs Hterm. unfold coherent in Hco. rewrite Hs in Hco.
  destruct (Raft.step r) eqn:Hstep; try contradiction.
  assert (Hd : match Message.MsgType m with
               | MsgHup => Raft.hup r
               | _ => Raft.call_step r m
               end = Some r' ->
               (Message.MsgType m = MsgHup /\ r' = r) \/
               (Message.MsgType m <> MsgHup /\
                Raft.stepLeader r m = Some r')).
  { unfold Raft.hup, Raft.call_step. rewrite Hs, Hstep.
    destruct (Message.MsgType m); intros H;
      try (right; split; [discriminate|exact H]).
    left. split; [reflexivity|congruence]. }
  unfold Raft.Step.
  destruct (Message.Term m =? 0) eqn:H0; [exact Hd|].
  apply Z.eqb_neq in H0. destruct Hterm as [Hterm|Hterm]; [contradiction|].
  rewrite Hterm, Z.ltb_irrefl. exact Hd.
Qed.

(** X21: a leader only appends and never moves its commit index.  On a
    leader whose [step] field is its role's handler, a message of its own
    term or without term that [Step] takes leaves it leader of the same
    term; the commit, applied and stabled cursors and the window's start
    are as before; the entries it had are kept as a prefix of its log, and
    the log is untouched unless the message is a Propose; the send buffer
    is only extended. *)
Theorem X21_leader_append_only (r r' : Raft.t) (m : Message.t) :
  coherent r ->
  Raft.State r = StateLeader ->
  Message.Term m = 0 \/ Message.Term m = Raft.Term r ->
  Raft.Step r m = Some r' ->
  Raft.State r' = StateLeader /\
  Raft.Term r' = Raft.Term r /\
  coherent r' /\
  RaftLog.committed (Raft.raftLog r') = RaftLog.committed (Raft.raftLog r) /\
  RaftLog.applied (Raft.raftLog r') = RaftLog.applied (Raft.raftLog r) /\
  RaftLog.stabled (Raft.raftLog r') = RaftLog.stabled (Raft.raftLog r) /\
  RaftLog.start (Raft.raftLog r') = RaftLog.start (Raft.raftLog r) /\
  RaftLog.entries (Raft.raftLog r) `prefix_of`
    RaftLog.entries (Raft.raftLog r') /\
  (Message.MsgType m <> MsgPropose ->
   Raft.raftLog r' = Raft.raftLog r) /\
  exists new, Raft.msgs r' = Raft.msgs r ++ new.
Proof.
  intros Hco Hs Hterm Hrun.
  assert (Hsame : forall r1, only_sent r r1 ->
            Raft.State r1 = StateLeader /\
            Raft.Term r1 = Raft.Term r /\
            coherent r1 /\
            RaftLog.committed (Raft.raftLog r1) =
              RaftLog.committed (Raft.raftLog r) /\
            RaftLog.applied (Raft.raftLog r1) =
              RaftLog.applied (Raft.raftLog r) /\
            RaftLog.stabled (Raft.raftLog r1) =
              RaftLog.stabled (Raft.raftLog r) /\
            RaftLog.start (Raft.raftLog r1) =
              RaftLog.start (Raft.raftLog r) /\
            RaftLog.entries (Raft.raftLog r) `prefix_of`
              RaftLog.entries (Raft.raftLog r1) /\
            (Message.MsgType m <> MsgPropose ->
             Raft.raftLog r1 = Raft.raftLog r) /\
            exists new, Raft.msgs r1 = Raft.msgs r ++ new).
  { intros r1 Hos.
    destruct (only_sent_fields _ _ Hos)
      as (Hlog & _ & Hs1 & Ht1 & Hst1 & Hm1).
    split; [congruence|]. split; [exact Ht1|].
    split; [unfold coherent in *; now rewrite Hst1, Hs1|].
    rewrite Hlog. do 4 (split; [reflexivity|]).
    split; [reflexivity|]. split; [reflexivity|exact Hm1]. }
  destruct (Step_leader _ _ _ Hco Hs Hterm Hrun) as [[_ ->]|[_ Hstep]].
  { apply Hsame, only_sent_refl. }
  unfold Raft.stepLeader in Hstep. rewrite Hs in Hstep.
  destruct (Message.MsgType m) eqn:Hty;
    try (injection Hstep as <-; apply Hsame, only_sent_refl).
  - (* Propose *)
    unfold Raft.handleProse in Hstep.
    destruct (Raft.leaderAppendEntries r (Message.Entries m))
      as [[r1 li]|] eqn:Happ; simpl in Hstep; [|discriminate].
    destruct (leaderAppendEntries_inv _ _ _ _ Happ)
      as (_ & li0 & pr & _ & _ & _ & Hlog & Hmsgs & _ & _ & Ht1 & Hs1 & _).
    assert (Hst1 : Raft.step r1 = Raft.step r).
    { revert Happ. unfold Raft.leaderAppendEntries. rewrite Hs.
      destruct (RaftLog.LastIndex _); simpl; [|discriminate].
      destruct (RaftLog.append _ _) as [[l2 li2]|]; simpl; [|discriminate].
      destruct (_ !! _); simpl; [|discriminate].
      now intros [= <- _]. }
    destruct (only_sent_fields _ _ (bcastAppend_only_sent _ _ Hstep))
      as (Hlog' & _ & Hs' & Ht' & Hst' & new & Hm').
    split; [congruence|]. split; [congruence|].
    split; [unfold coherent in *; rewrite Hst', Hs', Hst1, Hs1; exact Hco|].
    rewrite Hlog', Hlog; simpl.
    do 4 (split; [reflexivity|]).
    split; [now apply prefix_app_r|]. split; [congruence|].
    rewrite Hm', Hmsgs, <- app_assoc. eauto.
  - (* AppendResponse *)
    destruct (negb (Message.Reject m)).
    + destruct (Raft.Prs r !! Message.From m) as [pr|]; simpl in Hstep;
        [|discriminate].
      injection Hstep as <-; simpl.
      split; [exact Hs|]. split; [reflexivity|]. split; [exact Hco|].
      do 4 (split; [reflexivity|]). split; [reflexivity|].
      split; [reflexivity|]. exists []. now rewrite app_nil_r.
    + injection Hstep as <-. apply Hsame, only_sent_refl.
  - (* Heartbeat *)
    apply Hsame. now apply heartbeats_only_sent.
Qed.

Lemma mayUpdateIndex_ok (pr : Progress.t) (index : Z) :
  0 <= Progress.Match pr < 2 ^ 64 - 1 ->
  0 <= Progress.Next pr < 2 ^ 64 ->
  0 <= index < 2 ^ 64 - 1 ->
  let pr' := Progress.mayUpdateIndex pr index in
  Progress.Match pr' = Z.max (Progress.Match pr) index /\
  Progress.Next pr' = Z.max (Progress.Match pr' + 1) (Progress.Next pr).
Proof.
  intros Hm Hn Hi. unfold Progress.mayUpdateIndex; cbv zeta; simpl.
  destruct (Progress.Match pr <? index) eqn:Hlt.
  - apply Z.ltb_lt in Hlt. unfold add64. rewrite u64_small by lia.
    split; [lia|reflexivity].
  - apply Z.ltb_ge in Hlt. unfold add64. rewrite u64_small by lia.
    split; [lia|reflexivity].
Qed.

(** X17: the leader's progresses keep [Match] below [Next].  [becomeLeader]
    on a well-formed log with room for one entry establishes it for every
    peer whose [Match] is below [2^64 - 1]; and once it holds, [Step] on
    the leader keeps it for every message of the leader's term or without
    term, provided an AppendResponse carries an index below [2^64 - 1] and
    the log has room for the entries of a Propose. *)
Theorem X17_progress_invariant :
  (forall r r',
     wf_log (Raft.raftLog r) ->
     RaftLog.start (Raft.raftLog r) +
       Z.of_nat (length (RaftLog.entries (Raft.raftLog r))) + 1 < 2 ^ 64 ->
     (forall i pr, Raft.Prs r !! i = Some pr ->
        0 <= Progress.Match pr < 2 ^ 64 - 1) ->
     Raft.becomeLeader r = Some r' ->
     progress_ok r') /\
  (forall r r' m,
     coherent r ->
     Raft.State r = StateLeader ->
     wf_log (Raft.raftLog r) ->
     progress_ok r ->
     Message.Term m = 0 \/ Message.Term m = Raft.Term r ->
     (Message.MsgType m = MsgAppendResponse ->
      0 <= Message.Index m < 2 ^ 64 - 1) ->
     (Message.MsgType m = MsgPropose ->
      RaftLog.start (Raft.raftLog r) +
        Z.of_nat (length (RaftLog.entries (Raft.raftLog r))) +
        Z.of_nat (length (Message.Entries m)) < 2 ^ 64) ->
     Raft.Step r m = Some r' ->
     progress_ok r').
Proof.
  split.
  - intros r r' Hwf Hb Hmatch. unfold Raft.becomeLeader.
    destruct (_ || _); [discriminate|]. simpl.
    match goal with
    | |- context [Raft.leaderAppendEntries ?r1 ?es] =>
        set (r0 := r1); set (es0 := es)
    end.
    destruct (Raft.leaderAppendEntries r0 es0) as [[r1 li]|] eqn:Happ;
      simpl; [|discriminate].
    intros [= <-].
    destruct (leaderAppendEntries_inv _ _ _ _ Happ)
      as (Hs0 & _ & pr0 & _ & Hpr0 & _).
    destruct (leaderAppendEntries_wf r0 es0 pr0 Hwf Hs0 Hpr0)
      as (r2 & Hrun2 & _ & _ & _ & _ & _ & _ & Hprs & _).
    { unfold es0; simpl. lia. }
    rewrite Happ in Hrun2. injection Hrun2 as <- Hli.
    pose proof Hwf as (Hst & _ & _ & _).
    pose proof (wf_length _ Hwf) as Hlen.
    assert (Hfm : forall i pr, Raft.Prs r0 !! i = Some pr ->
              0 <= Progress.Match pr < 2 ^ 64 - 1 /\
              Progress.Next pr = Progress.Match pr + 1).
    { intros i pr. unfold r0; simpl. rewrite lookup_fmap.
      destruct (Raft.Prs r !! i) as [p|] eqn:Hp; simpl; [|discriminate].
      intros [= <-]; simpl. pose proof (Hmatch _ _ Hp).
      unfold add64. rewrite u64_small by lia. lia. }
    intros i pr. rewrite Hprs.
    destruct (decide (i = Raft.id r0)) as [->|Hne].
    + rewrite lookup_insert_eq. intros [= <-].
      destruct (Hfm _ _ Hpr0) as (Hm0 & Hn0). rewrite <- Hli.
      destruct (mayUpdateIndex_ok pr0 li) as (-> & ->); lia.
    + rewrite lookup_insert_ne by congruence. intros Hp.
      destruct (Hfm _ _ Hp). lia.
  - intros r r' m Hco Hs Hwf Hok Hterm Hidx Hroom Hrun.
    destruct (Step_leader _ _ _ Hco Hs Hterm Hrun) as [[_ ->]|[_ Hstep]];
      [exact Hok|].
    unfold Raft.stepLeader in Hstep. rewrite Hs in Hstep.
    destruct (Message.MsgType m) eqn:Hty;
      try (injection Hstep as <-; exact Hok).
    + (* Propose *)
      unfold Raft.handleProse in Hstep.
      destruct (Raft.leaderAppendEntries r (Message.Entries m))
        as [[r1 li]|] eqn:Happ; simpl in Hstep; [|discriminate].
      destruct (leaderAppendEntries_inv _ _ _ _ Happ)
        as (_ & _ & pr0 & _ & Hpr0 & _).
      destruct (leaderAppendEntries_wf r (Message.Entries m) pr0 Hwf Hs Hpr0
                  (Hroom eq_refl))
        as (r2 & Hrun2 & _ & _ & _ & _ & _ & _ & Hprs1 & _).
      rewrite Happ in Hrun2. injection Hrun2 as <- Hli.
      destruct (only_sent_fields _ _ (bcastAppend_only_sent _ _ Hstep))
        as (_ & Hprs & _).
      pose proof Hwf as (Hst & _ & _ & _).
      pose proof (wf_length _ Hwf) as Hlen.
      pose proof (Hroom eq_refl) as Hb.
      intros i pr. rewrite Hprs, Hprs1.
      destruct (decide (i = Raft.id r)) as [->|Hne].
      * rewrite lookup_insert_eq. intros [= <-].
        destruct (Hok _ _ Hpr0) as (Hm0 & Hn0).
        destruct (mayUpdateIndex_ok pr0
                    (RaftLog.start (Raft.raftLog r) +
                     Z.of_nat (length (RaftLog.entries (Raft.raftLog r))) - 1
                     + Z.of_nat (length (Message.Entries m))))
          as (-> & ->); lia.
      * rewrite lookup_insert_ne by congruence. apply Hok.
    + (* AppendResponse *)
      destruct (negb (Message.Reject m)).
      * destruct (Raft.Prs r !! Message.From m) as [pr0|] eqn:Hpr0;
          simpl in Hstep; [|discriminate].
        injection Hstep as <-. intros i pr; simpl.
        destruct (decide (i = Message.From m)) as [->|Hne].
        -- rewrite lookup_insert_eq. intros [= <-]; simpl.
           destruct (Hok _ _ Hpr0) as (Hm0 & Hn0).
           pose proof (Hidx eq_refl) as Hi.
           unfold add64. rewrite u64_small by lia. lia.
        -- rewrite lookup_insert_ne by congruence. apply Hok.
      * injection Hstep as <-. exact Hok.
    + (* Heartbeat *)
      destruct (only_sent_fields _ _ (heartbeats_only_sent _ _ Hstep))
        as (_ & Hprs & _).
      unfold progress_ok. rewrite Hprs. exact Hok.
Qed.

End LeaderStep.

(** X17, an instance: the candidate of term 1 on three entries is
    promoted, and peer 2 then acknowledges index 3. *)
Lemma X17_progress_invariant_witness :
  progress_ok (must promoted) /\
  exists r',
    Raft.Step (absent := spec_absent) (must promoted)
      (Message.mk MsgAppendResponse 1 2 1 0 3 [] 0 None false) = Some r' /\
    Raft.Prs r' !! 2 = Some (Progress.mk 3 4) /\
    progress_ok r'.
Proof.
  assert (Hwf : wf_log (Raft.raftLog candidate))
    by (apply wf_logb_sound; vm_compute; reflexivity).
  assert (Hb : RaftLog.start (Raft.raftLog candidate) +
               Z.of_nat (length (RaftLog.entries (Raft.raftLog candidate)))
               + 1 < 2 ^ 64) by (vm_compute; reflexivity).
  assert (Hall : map_Forall
                   (fun _ pr => 0 <= Progress.Match pr < 2 ^ 64 - 1)
                   (Raft.Prs candidate))
    by (apply (bool_decide_unpack _); vm_compute; exact I).
  assert (Hrun : Raft.becomeLeader candidate = Some (must promoted))
    by (vm_compute; reflexivity).
  pose proof (proj1 (X17_progress_invariant (absent := spec_absent))
                candidate (must promoted) Hwf Hb Hall Hrun) as Hok.
  split; [exact Hok|].
  assert (Hco : coherent (must promoted)) by (vm_compute; exact I).
  assert (Hs : Raft.State (must promoted) = StateLeader)
    by (vm_compute; reflexivity).
  assert (Hwf' : wf_log (Raft.raftLog (must promoted)))
    by (apply wf_logb_sound; vm_compute; reflexivity).
  assert (Hstep : Raft.Step (absent := spec_absent) (must promoted)
                    (Message.mk MsgAppendResponse 1 2 1 0 3 [] 0 None false)
                  = Some (Raft.with_Prs
                            (<[2 := Progress.mk 3 4]>
                               (Raft.Prs (must promoted)))
                            (must promoted)))
    by (vm_compute; reflexivity).
  eexists. split; [exact Hstep|]. split; [vm_compute; reflexivity|].
  apply (proj2 (X17_progress_invariant (absent := spec_absent))
           (must promoted) _
           (Message.mk MsgAppendResponse 1 2 1 0 3 [] 0 None false)
           Hco Hs Hwf' Hok).
  - right. vm_compute. reflexivity.
  - intros _. simpl. lia.
  - discriminate.
  - exact Hstep.
Defined.

(** X21, an instance: the leader of scenario S5 takes a proposal; its
    commit index stays 4 and its five entries are kept. *)
Lemma X21_leader_append_only_witness :
  coherent (must leaderS5) /\
  Raft.Step (absent := spec_absent) (must leaderS5) proposeS5 =
    Some proposedS5 /\
  RaftLog.committed (Raft.raftLog proposedS5) =
    RaftLog.committed (Raft.raftLog (must leaderS5)) /\
  RaftLog.entries (Raft.raftLog (must leaderS5)) `prefix_of`
    RaftLog.entries (Raft.raftLog proposedS5).
Proof.
  assert (Hco : coherent (must leaderS5)) by (vm_compute; exact I).
  assert (Hs : Raft.State (must leaderS5) = StateLeader)
    by (vm_compute; reflexivity).
  assert (Hterm : Message.Term proposeS5 = 0 \/
                  Message.Term proposeS5 = Raft.Term (must leaderS5))
    by (left; reflexivity).
  assert (Hrun : Raft.Step (absent := spec_absent) (must leaderS5) proposeS5
                 = Some proposedS5) by (vm_compute; reflexivity).
  destruct (X21_leader_append_only (absent := spec_absent) _ _ _
              Hco Hs Hterm Hrun)
    as (_ & _ & _ & Hc & _ & _ & _ & Hpre & _).
  split; [exact Hco|]. split; [exact Hrun|]. split; [exact Hc|exact Hpre].
Defined.

(** * Further properties of the construction *)

Lemma foldl_insert_lookup (peers : list Z) (prs : gmap Z Progress.t)
  (i : Z) :
  foldl (fun prs peer => <[peer := Progress.mk 0 0]> prs) prs peers !! i =
    if decide (i ∈ peers) then Some (Progress.mk 0 0) else prs !! i.
Proof.
  revert prs. induction peers as [|p ps IH]; intros prs; simpl.
  - destruct (decide (i ∈ [])) as [Hin|_]; [|reflexivity].
    now apply elem_of_nil in Hin.
  - rewrite IH.
    destruct (decide (i ∈ ps)) as [Hin|Hnin].
    + destruct (decide (i ∈ p :: ps)) as [_|Hn]; [reflexivity|].
      exfalso. apply Hn. now right.
    + destruct (decide (i = p)) as [->|Hne].
      * rewrite lookup_insert_eq.
        destruct (decide (p ∈ p :: ps)) as [_|Hn]; [reflexivity|].
        exfalso. apply Hn. now left.
      * rewrite lookup_insert_ne by congruence.
        destruct (decide (i ∈ p :: ps)) as [Hin|_]; [|reflexivity].
        apply elem_of_cons in Hin as [?|?]; contradiction.
Qed.

(** X18: the construction of a node.  [newRaft] panics on a configuration
    whose id is 0, whose heartbeat tick is not positive, whose election
    tick is not above the heartbeat tick or that has no storage.  On any
    other configuration whose storage gives a log, it returns a follower
    of term 0 without vote or leader, with that log, an empty send buffer,
    both counters at 0, one progress with [Match = Next = 0] for each
    configured peer and for nobody else, and an election timeout between
    the election tick and twice the election tick minus one. *)
Theorem X18_newRaft (c : Config.t) (draw : Z) :
  (Config.ID c = None_id \/ Config.HeartbeatTick c <= 0 \/
   Config.ElectionTick c <= Config.HeartbeatTick c \/
   Config.Storage c = None ->
   Raft.newRaft c draw = None) /\
  (forall st l,
     Config.ID c <> None_id ->
     0 < Config.HeartbeatTick c < Config.ElectionTick c ->
     Config.ElectionTick c < 2 ^ 62 ->
     Config.Storage c = Some st ->
     RaftLog.newLog st = Some l ->
     0 <= draw ->
     exists r,
       Raft.newRaft c draw = Some r /\
       coherent r /\
       Raft.id r = Config.ID c /\
       Raft.State r = StateFollower /\
       Raft.Term r = 0 /\ Raft.Vote r = None_id /\ Raft.Lead r = None_id /\
       Raft.raftLog r = l /\
       Raft.msgs r = [] /\
       Raft.electionElapsed r = 0 /\ Raft.heartbeatElapsed r = 0 /\
       (forall i,
          Raft.Prs r !! i =
            if decide (i ∈ Config.peers c) then Some (Progress.mk 0 0)
            else None) /\
       Raft.heartbeatTimeout r = Config.HeartbeatTick c /\
       Config.ElectionTick c <= Raft.electionTimeout r
         <= 2 * Config.ElectionTick c - 1).
Proof.
  split.
  - intros Hbad. unfold Raft.newRaft, Config.validate.
    destruct (Config.ID c =? None_id) eqn:Hid; [reflexivity|].
    destruct (Config.HeartbeatTick c <=? 0) eqn:Hhb; [reflexivity|].
    destruct (Config.ElectionTick c <=? Config.HeartbeatTick c) eqn:Hel;
      [reflexivity|].
    destruct (Config.Storage c) as [st|] eqn:Hst; [|reflexivity].
    exfalso. apply Z.eqb_neq in Hid. apply Z.leb_gt in Hhb, Hel.
    destruct Hbad as [?|[?|[?|?]]];
      first [contradiction|lia|discriminate].
  - intros st l Hid Hticks Hbig Hst Hlog Hdraw.
    unfold Raft.newRaft, Config.validate.
    apply Z.eqb_neq in Hid. rewrite Hid.
    rewrite (proj2 (Z.leb_gt _ _)) by lia.
    rewrite (proj2 (Z.leb_gt _ _)) by lia.
    rewrite Hst, Hlog. simpl.
    eexists. split; [reflexivity|]. simpl.
    split; [exact I|]. do 9 (split; [reflexivity|]).
    split; [|split; [reflexivity|]].
    + intros i. rewrite foldl_insert_lookup.
      destruct (decide (i ∈ Config.peers c)); [reflexivity|].
      apply lookup_empty.
    + unfold Raft.randN.
      pose proof (Z.rem_bound_pos draw (Config.ElectionTick c) Hdraw
                    ltac:(lia)) as Hrem.
      rewrite int64_small by lia. lia.
Qed.

(** X18, an instance: the restart configuration of three peers with
    election tick 10. *)
Lemma X18_newRaft_witness :
  exists r,
    Raft.newRaft restartConfig 7 = Some r /\
    Raft.Prs r !! 2 = Some (Progress.mk 0 0) /\
    Raft.Prs r !! 4 = None /\
    10 <= Raft.electionTimeout r <= 19.
Proof.
  assert (Hlog : RaftLog.newLog
                   (memoryStorage (HardState.mk 5 2 3) 1 0 (entriesOfTerm1 3)
                      noSnapshot) =
                 Some (Raft.raftLog (must restarted)))
    by (vm_compute; reflexivity).
  destruct (proj2 (X18_newRaft restartConfig 7) _ _
              ltac:(discriminate) ltac:(simpl; lia) ltac:(simpl; lia)
              eq_refl Hlog ltac:(lia))
    as (r & Hrun & _ & _ & _ & _ & _ & _ & _ & _ & _ & _ & Hprs & _ & Hel).
  exists r. split; [exact Hrun|].
  split; [rewrite Hprs; reflexivity|].
  split; [rewrite Hprs; reflexivity|].
  simpl in Hel. lia.
Defined.

(** * Further properties of the leader's append for a peer left behind *)

(** X22: [sendAppend] for a peer whose [next] is at or below the start of
    the leader's log window, the entries before which are compacted.  With
    [1 <= next <= start] the leader asks its storage for the snapshot: it
    sends one Snapshot message carrying it, without entries, when the
    storage has it; it sends a Heartbeat with its own commit index when the
    storage answers [ErrSnapshotTemporarilyUnavailable]; it panics on any
    other error.  With [next = 0] the previous index wraps around to
    [2^64 - 1] and the leader panics.  The progress of the peer is never
    changed. *)
Theorem X22_sendAppend_compacted (r : Raft.t) (to : Z) (pr : Progress.t) :
  wf_log (Raft.raftLog r) ->
  Raft.State r = StateLeader ->
  to <> Raft.id r ->
  Raft.Prs r !! to = Some pr ->
  (1 <= Progress.Next pr <= RaftLog.start (Raft.raftLog r) ->
   match Storage.Snapshot (RaftLog.storage (Raft.raftLog r)) with
   | (snapshot, None) =>
       Raft.sendAppend r to =
         Some (Raft.send r
                 (Message.with_Snapshot (Some snapshot)
                    (Message.with_To to (Message.zero MsgSnapshot))),
               false)
   | (_, Some err) =>
       if decide (err = ErrSnapshotTemporarilyUnavailable) then
         Raft.sendAppend r to =
           Some (Raft.send r
                   (Message.with_Commit (RaftLog.committed (Raft.raftLog r))
                      (Message.with_To to (Message.zero MsgHeartbeat))),
                 false)
       else Raft.sendAppend r to = None
   end) /\
  (Progress.Next pr = 0 -> Raft.sendAppend r to = None) /\
  (forall r' b, Raft.sendAppend r to = Some (r', b) ->
     Raft.Prs r' = Raft.Prs r /\ Raft.raftLog r' = Raft.raftLog r).
Proof.
  intros Hwf Hs Hto Hpr.
  pose proof Hwf as (Hs0 & _ & _ & Hb0).
  pose proof (wf_length _ Hwf) as Hn.
  pose proof (wf_LastIndex _ Hwf) as Hli.
  pose proof (wf_First _ Hwf) as Hfirst.
  set (l := Raft.raftLog r) in *.
  set (last := RaftLog.start l + Z.of_nat (length (RaftLog.entries l)) - 1)
    in *.
  assert (HNext : RaftLog.NextIndex l = Some (last + 1)).
  { unfold RaftLog.LastIndex, RaftLog.NextIndex in *.
    destruct (RaftLog.LastLog l) as [e|]; simpl in *; [|discriminate].
    injection Hli as Hli. rewrite Hli. f_equal. unfold add64.
    apply u64_small. unfold last. lia. }
  assert (Hhead : Progress.Next pr <> last + 1 ->
    Raft.sendAppend r to =
      m ← Raft.NewAppendMsg r to; Some (Raft.send r m, false)).
  { intros Hne. unfold Raft.sendAppend.
    replace (to =? Raft.id r) with false by (symmetry; apply Z.eqb_neq; lia).
    rewrite Hpr. simpl. fold l. rewrite HNext. simpl.
    replace (Progress.Next pr =? last + 1) with false
      by (symmetry; apply Z.eqb_neq; lia).
    reflexivity. }
  split; [|split].
  - intros Hbehind. rewrite Hhead by (unfold last; lia).
    assert (Hsub : sub64 (Progress.Next pr) 1 = Progress.Next pr - 1)
      by (unfold sub64; apply u64_small; lia).
    assert (Hat : RaftLog.entryAt l (Progress.Next pr - 1) =
                  Some (Err ErrCompacted)).
    { unfold RaftLog.entryAt.
      replace (Progress.Next pr - 1 =? RaftLog.start l) with false
        by (symmetry; apply Z.eqb_neq; lia).
      rewrite Hfirst.
      replace (Progress.Next pr - 1 <? RaftLog.start l + 1) with true
        by (symmetry; apply Z.ltb_lt; lia).
      reflexivity. }
    unfold Raft.NewAppendMsg, Raft.NewHeartbeatMsg. rewrite Hs, Hpr. simpl.
    fold l. rewrite Hsub, Hat. simpl. rewrite Hli. simpl.
    destruct (Storage.Snapshot (RaftLog.storage l)) as [snapshot [err|]];
      [|reflexivity].
    destruct (decide (err = ErrSnapshotTemporarilyUnavailable));
      reflexivity.
  - intros H0. rewrite Hhead by (unfold last; lia).
    assert (Hsub : sub64 (Progress.Next pr) 1 = 2 ^ 64 - 1)
      by (rewrite H0; reflexivity).
    unfold Raft.NewAppendMsg. rewrite Hs, Hpr. simpl. fold l.
    rewrite Hsub. unfold RaftLog.entryAt.
    replace (2 ^ 64 - 1 =? RaftLog.start l) with false
      by (symmetry; apply Z.eqb_neq; lia).
    rewrite Hfirst.
    replace (2 ^ 64 - 1 <? RaftLog.start l + 1) with false
      by (symmetry; apply Z.ltb_ge; lia).
    rewrite Hli. simpl.
    replace (last <? 2 ^ 64 - 1) with true
      by (symmetry; apply Z.ltb_lt; unfold last; lia).
    reflexivity.
  - intros r' b Hrun.
    destruct (sendAppend_inv _ _ _ _ Hrun) as [->|[m ->]]; now split.
Qed.

(** X22, an instance: the leader restarted behind a snapshot at index 5
    sends it to peer 2, whose [next] is 1; the leader whose storage cannot
    serve the snapshot for the moment sends a heartbeat. *)
Lemma X22_sendAppend_compacted_witness :
  wf_log (Raft.raftLog (must leaderSnapshot)) /\
  (exists r',
     Raft.sendAppend (must leaderSnapshot) 2 = Some (r', false) /\
     (Message.MsgType <$> last (Raft.msgs r')) = Some MsgSnapshot /\
     (Message.Snapshot <$> last (Raft.msgs r')) =
       Some (Some (Snapshot.mk [9] 5 1))) /\
  (exists r',
     Raft.sendAppend (must leaderCompacted) 2 = Some (r', false) /\
     (Message.MsgType <$> last (Raft.msgs r')) = Some MsgHeartbeat).
Proof.
  assert (Hwf : wf_log (Raft.raftLog (must leaderSnapshot)))
    by (apply wf_logb_sound; vm_compute; reflexivity).
  assert (Hs : Raft.State (must leaderSnapshot) = StateLeader)
    by (vm_compute; reflexivity).
  assert (Hto : 2 <> Raft.id (must leaderSnapshot))
    by (vm_compute; discriminate).
  assert (Hpr : Raft.Prs (must leaderSnapshot) !! 2 = Some (Progress.mk 0 1))
    by (vm_compute; reflexivity).
  assert (Hn : 1 <= Progress.Next (Progress.mk 0 1) <=
               RaftLog.start (Raft.raftLog (must leaderSnapshot)))
    by (vm_compute; split; discriminate).
  assert (Hsnap : Storage.Snapshot
                    (RaftLog.storage (Raft.raftLog (must leaderSnapshot))) =
                  (Snapshot.mk [9] 5 1, None)) by (vm_compute; reflexivity).
  pose proof (proj1 (X22_sendAppend_compacted (must leaderSnapshot) 2
                       (Progress.mk 0 1) Hwf Hs Hto Hpr) Hn) as Hrun.
  rewrite Hsnap in Hrun.
  assert (Hwf' : wf_log (Raft.raftLog (must leaderCompacted)))
    by (apply wf_logb_sound; vm_compute; reflexivity).
  assert (Hs' : Raft.State (must leaderCompacted) = StateLeader)
    by (vm_compute; reflexivity).
  assert (Hto' : 2 <> Raft.id (must leaderCompacted))
    by (vm_compute; discriminate).
  assert (Hpr' : Raft.Prs (must leaderCompacted) !! 2 =
                 Some (Progress.mk 0 1)) by (vm_compute; reflexivity).
  assert (Hn' : 1 <= Progress.Next (Progress.mk 0 1) <=
                RaftLog.start (Raft.raftLog (must leaderCompacted)))
    by (vm_compute; split; discriminate).
  assert (Hsnap' : Storage.Snapshot
                     (RaftLog.storage (Raft.raftLog (must leaderCompacted))) =
                   (Snapshot.mk [] 0 0,
                    Some ErrSnapshotTemporarilyUnavailable))
    by (vm_compute; reflexivity).
  split; [exact Hwf|]. split.
  - eexists. split; [exact Hrun|].
    split; vm_compute; reflexivity.
  - pose proof (proj1 (X22_sendAppend_compacted (must leaderCompacted) 2
                         (Progress.mk 0 1) Hwf' Hs' Hto' Hpr') Hn') as Hrun'.
    rewrite Hsnap' in Hrun'.
    destruct (decide (ErrSnapshotTemporarilyUnavailable =
                      ErrSnapshotTemporarilyUnavailable)) as [_|Hne];
      [|contradiction].
    eexists. split; [exact Hrun'|].
    vm_compute. reflexivity.
Defined.

(** * Further properties of a round of replication *)

Section Round.
Context {absent : Raft.Absent}.

(** X23: a round of replication ends with nothing left to send.  A leader
    sends a follower of its own term the entries from [next] on; the
    follower, which holds the entry before [next] with the leader's term,
    takes the Append through [Step] and replies; the leader takes the reply
    through [Step].  Then the leader records the follower at
    [Match = max(Match, last)] and [Next = last + 1] for its last index
    [last], its log is untouched, and a further [sendAppend] for the
    follower sends nothing and returns true. *)
Theorem X23_round_completes (r f : Raft.t) (to : Z) (pr : Progress.t)
  (prevL prevF : Entry.t) :
  let lastL := RaftLog.start (Raft.raftLog r) +
               Z.of_nat (length (RaftLog.entries (Raft.raftLog r))) - 1 in
  wf_log (Raft.raftLog r) ->
  coherent r ->
  Raft.State r = StateLeader ->
  to <> Raft.id r ->
  Raft.Prs r !! to = Some pr ->
  RaftLog.start (Raft.raftLog r) + 1 <= Progress.Next pr <= lastL ->
  RaftLog.entryAt (Raft.raftLog r) (Progress.Next pr - 1) =
    Some (Ok prevL) ->
  wf_log (Raft.raftLog f) ->
  coherent f ->
  Raft.State f = StateFollower ->
  Raft.id f = to ->
  Raft.Term f = Raft.Term r ->
  RaftLog.entryAt (Raft.raftLog f) (Progress.Next pr - 1) =
    Some (Ok prevF) ->
  Entry.Term prevF = Entry.Term prevL ->
  RaftLog.start (Raft.raftLog f) +
    Z.of_nat (length (RaftLog.entries (Raft.raftLog f))) +
    (lastL - Progress.Next pr + 1) < 2 ^ 64 ->
  exists r1 m f' reply r2,
    Raft.sendAppend r to = Some (r1, false) /\
    Raft.msgs r1 = Raft.msgs r ++ [m] /\
    Raft.Step f m = Some f' /\
    Raft.msgs f' = Raft.msgs f ++ [reply] /\
    Raft.Step r1 reply = Some r2 /\
    Raft.Prs r2 !! to =
      Some (Progress.mk (Z.max (Progress.Match pr) lastL) (lastL + 1)) /\
    Raft.raftLog r2 = Raft.raftLog r /\
    Raft.sendAppend r2 to = Some (r2, true).
Proof.
  cbv zeta.
  intros HwfL HcoL HsL Hto Hpr Hnext HatL HwfF HcoF HsF Hidf Hterm HatF Hpt
         Hb.
  destruct (replication_round r f to pr prevL prevF
              HwfL HsL Hto Hpr Hnext HatL HwfF HatF Hpt Hb)
    as (Hsend & f' & Hrun & _ & _ & _ & Hmsgs).
  pose proof HwfL as (Hs0 & _ & _ & Hb0).
  pose proof (wf_length _ HwfL) as Hn.
  set (lastL := RaftLog.start (Raft.raftLog r) +
                Z.of_nat (length (RaftLog.entries (Raft.raftLog r))) - 1)
    in *.
  set (m := appendTo r to prevL
              (drop (Z.to_nat (Progress.Next pr -
                               RaftLog.start (Raft.raftLog r)))
                    (RaftLog.entries (Raft.raftLog r)))) in *.
  set (r1 := Raft.with_msgs (Raft.msgs r ++ [m]) r) in *.
  set (reply := appendReply f m lastL false) in *.
  set (pr' := Progress.mk (Z.max (Progress.Match pr) lastL) (lastL + 1)).
  set (r2 := Raft.with_Prs (<[to := pr']> (Raft.Prs r)) r1).
  assert (Hadd : add64 lastL 1 = lastL + 1)
    by (unfold add64; apply u64_small; unfold lastL; lia).
  exists r1, m, f', reply, r2.
  split; [exact Hsend|]. split; [reflexivity|].
  split; [|split; [exact Hmsgs|]].
  { rewrite Step_replication by reflexivity.
    replace (Message.Term m) with (Raft.Term f) by exact Hterm.
    rewrite Z.ltb_irrefl.
    assert (Hcall : Raft.call_step f m = Some f').
    { unfold Raft.call_step, Raft.stepFollower.
      unfold coherent in HcoF. rewrite HsF in HcoF.
      destruct (Raft.step f); try contradiction.
      rewrite HsF. exact Hrun. }
    destruct (Raft.Term f =? 0); exact Hcall. }
  split; [|split; [|split]].
  - rewrite Step_replication by reflexivity.
    replace (Message.Term reply) with (Raft.Term r1)
      by (symmetry; exact Hterm).
    rewrite Z.ltb_irrefl.
    assert (Hcall : Raft.call_step r1 reply = Some r2).
    { unfold Raft.call_step, Raft.stepLeader.
      change (Raft.step r1) with (Raft.step r).
      change (Raft.State r1) with (Raft.State r).
      unfold coherent in HcoL. rewrite HsL in HcoL.
      destruct (Raft.step r); try contradiction.
      rewrite HsL.
      change (Message.MsgType reply) with MsgAppendResponse.
      change (Message.Reject reply) with false.
      change (Message.From reply) with (Raft.id f).
      change (Message.Index reply) with lastL.
      change (Raft.Prs r1) with (Raft.Prs r).
      rewrite Hidf, Hpr. cbn [negb mbind option_bind Progress.Match
                              Progress.Next].
      rewrite Hadd.
      replace (Z.max (Progress.Next pr) (lastL + 1)) with (lastL + 1)
        by lia.
      reflexivity. }
    destruct (Raft.Term r1 =? 0); exact Hcall.
  - unfold r2. cbn [Raft.Prs Raft.with_Prs]. apply lookup_insert_eq.
  - reflexivity.
  - apply (proj1 (sendAppend_wf r2 to pr' HwfL HsL Hto
                    ltac:(unfold r2; cbn [Raft.Prs Raft.with_Prs];
                          apply lookup_insert_eq)
                    ltac:(unfold pr'; simpl; unfold lastL; lia))).
    reflexivity.
Qed.

End Round.

(** X23, an instance: the leader of scenario S5 (term 2, entries 1 to 5)
    probes peer 2 at index 3; peer 2, a follower of term 2 with entries 1
    to 3, takes entries 3 to 5 and acknowledges index 5; the leader then
    has peer 2 at [Match = 5, Next = 6] and nothing to send. *)
Lemma X23_round_completes_witness :
  wf_log (Raft.raftLog leaderBehind) /\
  wf_log (Raft.raftLog peer2) /\
  Raft.Prs leaderBehind !! 2 = Some (Progress.mk 2 3) /\
  exists r1 m f' reply r2,
    Raft.sendAppend leaderBehind 2 = Some (r1, false) /\
    Raft.msgs r1 = Raft.msgs leaderBehind ++ [m] /\
    Raft.Step (absent := spec_absent) peer2 m = Some f' /\
    Raft.msgs f' = Raft.msgs peer2 ++ [reply] /\
    Raft.Step (absent := spec_absent) r1 reply = Some r2 /\
    Raft.Prs r2 !! 2 = Some (Progress.mk 5 6) /\
    Raft.sendAppend r2 2 = Some (r2, true).
Proof.
  assert (HwfL : wf_log (Raft.raftLog leaderBehind))
    by (apply wf_logb_sound; vm_compute; reflexivity).
  assert (HwfF : wf_log (Raft.raftLog peer2))
    by (apply wf_logb_sound; vm_compute; reflexivity).
  assert (HcoL : coherent leaderBehind) by (vm_compute; exact I).
  assert (HcoF : coherent peer2) by (vm_compute; exact I).
  assert (HsL : Raft.State leaderBehind = StateLeader)
    by (vm_compute; reflexivity).
  assert (HsF : Raft.State peer2 = StateFollower)
    by (vm_compute; reflexivity).
  assert (Hto : 2 <> Raft.id leaderBehind) by (vm_compute; discriminate).
  assert (Hid : Raft.id peer2 = 2) by (vm_compute; reflexivity).
  assert (Hterm : Raft.Term peer2 = Raft.Term leaderBehind)
    by (vm_compute; reflexivity).
  assert (Hpr : Raft.Prs leaderBehind !! 2 = Some (Progress.mk 2 3))
    by (vm_compute; reflexivity).
  assert (Hn : RaftLog.start (Raft.raftLog leaderBehind) + 1 <=
               Progress.Next (Progress.mk 2 3) <=
               RaftLog.start (Raft.raftLog leaderBehind) +
               Z.of_nat (length (RaftLog.entries (Raft.raftLog leaderBehind)))
               - 1)
    by (vm_compute; split; discriminate).
  assert (HatL : RaftLog.entryAt (Raft.raftLog leaderBehind)
                   (Progress.Next (Progress.mk 2 3) - 1) =
                 Some (Ok (Entry.mk 1 2 []))) by (vm_compute; reflexivity).
  assert (HatF : RaftLog.entryAt (Raft.raftLog peer2)
                   (Progress.Next (Progress.mk 2 3) - 1) =
                 Some (Ok (Entry.mk 1 2 []))) by (vm_compute; reflexivity).
  assert (Hb : RaftLog.start (Raft.raftLog peer2) +
               Z.of_nat (length (RaftLog.entries (Raft.raftLog peer2))) +
               (RaftLog.start (Raft.raftLog leaderBehind) +
                Z.of_nat (length (RaftLog.entries
                                    (Raft.raftLog leaderBehind))) - 1
                - Progress.Next (Progress.mk 2 3) + 1) < 2 ^ 64)
    by (vm_compute; reflexivity).
  assert (Hlast : RaftLog.start (Raft.raftLog leaderBehind) +
                  Z.of_nat (length (RaftLog.entries
                                      (Raft.raftLog leaderBehind))) - 1 = 5)
    by (vm_compute; reflexivity).
  split; [exact HwfL|]. split; [exact HwfF|]. split; [exact Hpr|].
  destruct (X23_round_completes (absent := spec_absent)
              leaderBehind peer2 2 (Progress.mk 2 3)
              (Entry.mk 1 2 []) (Entry.mk 1 2 [])
              HwfL HcoL HsL Hto Hpr Hn HatL HwfF HcoF HsF Hid Hterm HatF
              eq_refl Hb)
    as (r1 & m & f' & reply & r2 & Hsend & Hm & Hstep & Hm' & Hstep' & Hprs
        & _ & Hnone).
  rewrite Hlast in Hprs.
  exists r1, m, f', reply, r2.
  split; [exact Hsend|]. split; [exact Hm|]. split; [exact Hstep|].
  split; [exact Hm'|]. split; [exact Hstep'|].
  split; [exact Hprs|exact Hnone].
Defined.
